(** * dcc-file-transfer: the chunk assembly and token engine of [server/utils.py]

    A shallow embedding of the upload-finalisation code ([get_chunk_filename],
    [get_file_chunks], [merge_chunks], [generate_file], [remove_from_uploads],
    [update_file_status]) and of the token code ([generate_auth_token],
    [get_auth_status]), with the properties the specification states about them.

    Conventions of the model.
    - Python 2 [str] values are [string]; file contents are [list byte].
    - Python integers are [Z]; a [datetime] value is the number of
      microseconds since [datetime.min], so that the values [datetime] can
      hold are those of [0 .. DATETIME_MAX].
    - The file system is a finite map from path strings to nodes.  It is keyed
      by the path exactly as the program spells it: two spellings name two
      objects.  The operations are those of the operating system on
      canonical paths ([canonical]: absolute, every component a plain name,
      no character [NUL]) in a tree without symbolic links; where it matters
      which object a path names, the properties are stated for such paths.
      Failures that do not come from the tree (permissions, a full disk, a
      concurrent process) are not modelled.
    - The database is a record of tables; a table is a list of rows and
      [query.filter_by(...).first()] is the first matching row.
    - Code that can raise runs in a state-and-exception monad whose results
      keep the state reached when the exception left the function.
    - Logging ([app.logger]) has no effect on any modelled value and is left
      out. *)

From Stdlib Require Import ZArith List Ascii String Lia Bool Permutation Sorted.
From Stdlib.Strings Require Byte.
From stdpp Require Import base option list strings gmap sorting.

Local Open Scope Z_scope.

(* ===================================================================== *)
(** * Python string helpers *)
(* ===================================================================== *)

Module Str.

(** [s[:n]] for [0 <= n]. *)
Fixpoint take (n : nat) (s : string) : string :=
  match n, s with
  | S n', String c s' => String c (take n' s')
  | _, _ => EmptyString
  end.

(** [s[n:]] for [0 <= n]. *)
Fixpoint drop (n : nat) (s : string) : string :=
  match n, s with
  | S n', String _ s' => drop n' s'
  | _, _ => s
  end.

(** [s.startswith(p)]. *)
Fixpoint startswith (p s : string) : bool :=
  match p, s with
  | EmptyString, _ => true
  | String a p', String b s' => if Ascii.eqb a b then startswith p' s' else false
  | String _ _, EmptyString => false
  end.

(** [s.endswith(c)] for a one-character [c]. *)
Fixpoint endswith_char (c : ascii) (s : string) : bool :=
  match s with
  | EmptyString => false
  | String a EmptyString => Ascii.eqb a c
  | String _ s' => endswith_char c s'
  end.

(** The suffix of [s] after the prefix [p], when [p] is a prefix of [s]. *)
Fixpoint strip_prefix (p s : string) : option string :=
  match p, s with
  | EmptyString, _ => Some s
  | String a p', String b s' => if Ascii.eqb a b then strip_prefix p' s' else None
  | String _ _, EmptyString => None
  end.

(** [c in s]. *)
Fixpoint contains (c : ascii) (s : string) : bool :=
  match s with
  | EmptyString => false
  | String a s' => Ascii.eqb a c || contains c s'
  end.

Fixpoint rfind_from (c : ascii) (s : string) (i last : Z) : Z :=
  match s with
  | EmptyString => last
  | String a s' => rfind_from c s' (i + 1) (if Ascii.eqb a c then i else last)
  end.

(** [s.rfind(c)]: the highest index of [c] in [s], or [-1]. *)
Definition rfind (c : ascii) (s : string) : Z := rfind_from c s 0 (-1).

(** [s.rstrip(c)]. *)
Fixpoint rstrip (c : ascii) (s : string) : string :=
  match s with
  | EmptyString => EmptyString
  | String a s' =>
      match rstrip c s' with
      | EmptyString => if Ascii.eqb a c then EmptyString else String a EmptyString
      | r => String a r
      end
  end.

(** [c * n]. *)
Fixpoint repeat (c : ascii) (n : nat) : string :=
  match n with
  | O => EmptyString
  | S n' => String c (repeat c n')
  end.

Definition lower_char (c : ascii) : ascii :=
  let n := nat_of_ascii c in
  if (65 <=? n)%nat && (n <=? 90)%nat then ascii_of_nat (n + 32) else c.

(** [s.lower()] on a byte string (ASCII letters only). *)
Fixpoint lower (s : string) : string :=
  match s with
  | EmptyString => EmptyString
  | String a s' => String (lower_char a) (lower s')
  end.

(** [s[i]] as an option. *)
Fixpoint get (n : nat) (s : string) : option ascii :=
  match s, n with
  | EmptyString, _ => None
  | String a _, O => Some a
  | String _ s', S n' => get n' s'
  end.

End Str.

(* ===================================================================== *)
(** * [os.path] on POSIX *)
(* ===================================================================== *)

Module Path.

Definition sep : ascii := "/"%char.

(** [posixpath.join(a, b)]. *)
Definition join (a b : string) : string :=
  if Str.startswith "/" b then b
  else if String.eqb a "" || Str.endswith_char sep a then a +:+ b
  else a +:+ "/" +:+ b.

(** [posixpath.split(p)]. *)
Definition split (p : string) : string * string :=
  let i := Z.to_nat (Str.rfind sep p + 1) in
  let head := Str.take i p in
  let tail := Str.drop i p in
  let head :=
    if negb (String.eqb head "") &&
       negb (String.eqb head (Str.repeat sep (String.length head)))
    then Str.rstrip sep head else head in
  (head, tail).

(** [posixpath.dirname(p)]. *)
Definition dirname (p : string) : string := fst (split p).

(** The loop of [genericpath._splitext] that skips leading dots: is there a
    character other than [.] at an index in [[i, i + n)]? *)
Fixpoint has_non_dot (p : string) (i n : nat) : bool :=
  match n with
  | O => false
  | S n' =>
      match Str.get i p with
      | Some c => if Ascii.eqb c "."%char then has_non_dot p (S i) n' else true
      | None => false
      end
  end.

(** [posixpath.splitext(p)]. *)
Definition splitext (p : string) : string * string :=
  let sepIndex := Str.rfind sep p in
  let dotIndex := Str.rfind "."%char p in
  if sepIndex <? dotIndex then
    let filenameIndex := Z.to_nat (sepIndex + 1) in
    if has_non_dot p filenameIndex (Z.to_nat dotIndex - filenameIndex)
    then (Str.take (Z.to_nat dotIndex) p, Str.drop (Z.to_nat dotIndex) p)
    else (p, "")
  else (p, "").

End Path.

(* ===================================================================== *)
(** * Chunk names *)
(* ===================================================================== *)

Definition CHUNK_PREFIX : string := "chunk.".

Definition digit_char (d : Z) : ascii := ascii_of_nat (48 + Z.to_nat d).

(** The [w] low decimal digits of [n], most significant first. *)
Fixpoint digits_w (w : nat) (n : Z) : string :=
  match w with
  | O => EmptyString
  | S w' => String (digit_char ((n / 10 ^ Z.of_nat w') mod 10)) (digits_w w' n)
  end.

Fixpoint count_digits (fuel : nat) (n : Z) : nat :=
  match fuel with
  | O => 1
  | S f => if n <? 10 then 1%nat else S (count_digits f (n / 10))
  end.

(** The number of decimal digits of [n >= 0] (at least one). *)
Definition num_digits (n : Z) : nat := count_digits (Z.to_nat (Z.log2 n)) n.

(** ["{:08d}".format(n)]: the decimal digits of [n], zero-padded on the left
    to a width of eight characters, the sign included and written first. *)
Definition format_08d (n : Z) : string :=
  if n <? 0
  then String "-"%char (digits_w (Nat.max 7 (num_digits (- n))) (- n))
  else digits_w (Nat.max 8 (num_digits n)) n.

Definition get_chunk_filename (temp_dir : string) (chunk_number : Z) : string :=
  Path.join temp_dir (CHUNK_PREFIX +:+ format_08d chunk_number).

(** [list.sort()] on a list of [str]: ascending in the lexicographic order of
    the characters' codes. *)
Definition sort_paths (l : list string) : list string := merge_sort String.le l.

(* ===================================================================== *)
(** * State and exceptions *)
(* ===================================================================== *)

(** The exceptions the modelled code can raise.  [ZlibError] is
    [zlib.error] and, with it, every exception of a gzip read that is not an
    [IOError]; this code catches none of them. *)
Inductive exn : Type :=
  | IndexError
  | IOError
  | OSError
  | ZlibError
  | OverflowError
  | InvalidServerToken.

Global Instance exn_eq_dec : EqDecision exn.
Proof. solve_decision. Defined.

(** The result of running a piece of code from a state: a value, or an
    exception, each with the state the run has reached. *)
Inductive outcome (S A : Type) : Type :=
  | Ret (a : A) (s : S)
  | Raise (e : exn) (s : S).
Global Arguments Ret {S A} a s.
Global Arguments Raise {S A} e s.

Definition Py (S A : Type) : Type := S -> outcome S A.

Definition ret {S A} (a : A) : Py S A := fun s => Ret a s.

Definition raise {S A} (e : exn) : Py S A := fun s => Raise e s.

Definition bind {S A B} (m : Py S A) (k : A -> Py S B) : Py S B :=
  fun s => match m s with
           | Ret a s' => k a s'
           | Raise e s' => Raise e s'
           end.

(** [try: m  except e: handler]. *)
Definition try_except {S A} (m : Py S A) (e : exn) (handler : Py S A) : Py S A :=
  fun s => match m s with
           | Ret a s' => Ret a s'
           | Raise e' s' => if decide (e' = e) then handler s' else Raise e' s'
           end.

(** [for x in l: body(x)]. *)
Fixpoint for_each {S A} (l : list A) (body : A -> Py S unit) : Py S unit :=
  match l with
  | [] => ret tt
  | x :: l' => bind (body x) (fun _ => for_each l' body)
  end.

Declare Scope py_scope.
Delimit Scope py_scope with py.
Notation "'do' x <- m ; k" := (bind m (fun x => k))
  (at level 10, x name, m at level 100, k at level 200) : py_scope.
Notation "'run' m ; k" := (bind m (fun _ => k))
  (at level 10, m at level 100, k at level 200) : py_scope.
Local Open Scope py_scope.

(** The state and the value of an outcome, whichever way the run ended. *)
Definition final_state {S A} (o : outcome S A) : S :=
  match o with Ret _ s => s | Raise _ s => s end.

Definition returned {S A} (o : outcome S A) : option A :=
  match o with Ret a _ => Some a | Raise _ _ => None end.

Definition raised {S A} (o : outcome S A) : option exn :=
  match o with Ret _ _ => None | Raise e _ => Some e end.

(* ===================================================================== *)
(** * The file system *)
(* ===================================================================== *)

Inductive node : Type :=
  | File (content : list Byte.byte)
  | Dir.

Global Instance byte_eq_dec : EqDecision Byte.byte := Byte.byte_eq_dec.

Global Instance node_eq_dec : EqDecision node.
Proof. solve_decision. Defined.

Module FS.

(** [os.path.isfile(p)]. *)
Definition isfile (fs : gmap string node) (p : string) : bool :=
  match fs !! p with Some (File _) => true | _ => false end.

(** [os.path.isdir(p)]. *)
Definition isdir (fs : gmap string node) (p : string) : bool :=
  match fs !! p with Some Dir => true | _ => false end.

(** [p] names the entry [n] of the directory [d]: [p] is [join d n] for a
    non-empty name without a separator. *)
Definition entry_name (d p : string) : option string :=
  match Str.strip_prefix (Path.join d "") p with
  | Some n =>
      if negb (String.eqb n "") && negb (Str.contains Path.sep n)
      then Some n else None
  | None => None
  end.

Definition entries (fs : gmap string node) (d : string) : list string :=
  omap (entry_name d) (map_to_list fs).*1.

(** [open(p, 'wb')]: creates or truncates the file.  It fails on a
    directory and where the parent directory does not exist. *)
Definition open_wb (p : string) : Py (gmap string node) unit :=
  fun fs =>
    if isdir fs p || negb (isdir fs (Path.dirname p))
    then Raise IOError fs
    else Ret tt (<[p := File []]> fs).

(** [open(p, 'rb').read()]. *)
Definition read (p : string) : Py (gmap string node) (list Byte.byte) :=
  fun fs =>
    match fs !! p with
    | Some (File c) => Ret c fs
    | _ => Raise IOError fs
    end.

(** [OUTPUT.write(data)] on the file opened at [p]; the bytes reach the
    file at once.  The program's file object buffers them until it is
    closed, which shows only in a run that reads the output while it is
    written, that is, where the output path is one of the chunk paths. *)
Definition write (p : string) (data : list Byte.byte) : Py (gmap string node) unit :=
  fun fs =>
    match fs !! p with
    | Some (File c) => Ret tt (<[p := File (c ++ data)]> fs)
    | _ => Raise IOError fs
    end.

(** [os.remove(p)]. *)
Definition remove (p : string) : Py (gmap string node) unit :=
  fun fs => if isfile fs p then Ret tt (delete p fs) else Raise OSError fs.

(** [os.listdir(d)]. *)
Definition listdir (d : string) : Py (gmap string node) (list string) :=
  fun fs => if isdir fs d then Ret (entries fs d) fs else Raise OSError fs.

(** [os.rmdir(d)]. *)
Definition rmdir (d : string) : Py (gmap string node) unit :=
  fun fs =>
    if isdir fs d && bool_decide (entries fs d = [])
    then Ret tt (delete d fs) else Raise OSError fs.

End FS.

(* ===================================================================== *)
(** * The database *)
(* ===================================================================== *)

(** The rows of [server.models] with the columns this code reads or writes. *)
Module Models.

Record Server : Type := mkServer {
  server_id : string;
  server_token : string
}.

Record User : Type := mkUser {
  user_id : string;
  user_name : option string;
  user_email : option string;
  server_of : string
}.

Record Access : Type := mkAccess {
  auth_token : string;
  creation_date : Z;
  expiration_date : Z;
  user_of : string
}.

Record File : Type := mkFile {
  identifier : string;
  filename : string;
  total_size : Z;
  upload_status : string;
  upload_start_date : Z;
  upload_end_date : option Z
}.

End Models.

Record database : Type := mkDatabase {
  servers : list Models.Server;
  users : list Models.User;
  accesses : list Models.Access;
  files : list Models.File
}.

(** The state a request runs in. *)
Record world : Type := mkWorld {
  fs : gmap string node;
  db : database;
  now : Z;
  entropy : nat -> Byte.byte;
  drawn : nat
}.

Definition set_fs (f : gmap string node) (w : world) : world :=
  mkWorld f (db w) (now w) (entropy w) (drawn w).

Definition set_db (d : database) (w : world) : world :=
  mkWorld (fs w) d (now w) (entropy w) (drawn w).

Definition set_files (l : list Models.File) (d : database) : database :=
  mkDatabase (servers d) (users d) (accesses d) l.

(** Runs file-system code on the file system of the world. *)
Definition on_fs {A} (m : Py (gmap string node) A) : Py world A :=
  fun w => match m (fs w) with
           | Ret a f => Ret a (set_fs f w)
           | Raise e f => Raise e (set_fs f w)
           end.

(** [dt.datetime.today()]. *)
Definition today : Py world Z := fun w => Ret (now w) w.

(** [os.urandom(n)]. *)
Definition urandom (n : nat) : Py world (list Byte.byte) :=
  fun w => Ret (map (entropy w) (seq (drawn w) n))
               (mkWorld (fs w) (db w) (now w) (entropy w) (drawn w + n)).

(** [query.filter_by(...).first()]. *)
Definition first {A} (p : A -> bool) (table : list A) : option A := List.find p table.

(** Writes [f row] in place of the first row that satisfies [p]. *)
Fixpoint update_first {A} (p : A -> bool) (f : A -> A) (table : list A) : list A :=
  match table with
  | [] => []
  | row :: rest => if p row then f row :: rest else row :: update_first p f rest
  end.

(** The response of a request: [make_response(jsonify({'message': m}), c)]. *)
Record response : Type := mkResponse {
  message : string;
  status_code : Z
}.

Definition return_message (message : string) (status_code : Z) : response :=
  mkResponse message status_code.

(* ===================================================================== *)
(** * Library functions of the token code *)
(* ===================================================================== *)

Definition byte_val (b : Byte.byte) : Z := Z.of_N (Byte.to_N b).

(** The alphabet of [base64.urlsafe_b64encode]: [A-Z a-z 0-9 - _]. *)
Definition b64_char (i : Z) : ascii :=
  if i <? 26 then ascii_of_nat (65 + Z.to_nat i)
  else if i <? 52 then ascii_of_nat (97 + Z.to_nat (i - 26))
  else if i <? 62 then ascii_of_nat (48 + Z.to_nat (i - 52))
  else if i =? 62 then "-"%char
  else "_"%char.

(** The [k]-th six-bit group, from the top, of a 24-bit group. *)
Definition sextet (n : Z) (k : Z) : ascii :=
  b64_char (Z.land (Z.shiftr n (18 - 6 * k)) 63).

(** [base64.urlsafe_b64encode(s)]. *)
Fixpoint urlsafe_b64encode (s : list Byte.byte) : string :=
  match s with
  | [] => EmptyString
  | [a] =>
      let n := Z.shiftl (byte_val a) 16 in
      String (sextet n 0) (String (sextet n 1) "==")
  | [a; b] =>
      let n := Z.lor (Z.shiftl (byte_val a) 16) (Z.shiftl (byte_val b) 8) in
      String (sextet n 0) (String (sextet n 1) (String (sextet n 2) "="))
  | a :: b :: c :: rest =>
      let n := Z.lor (Z.lor (Z.shiftl (byte_val a) 16) (Z.shiftl (byte_val b) 8))
                     (byte_val c) in
      String (sextet n 0) (String (sextet n 1) (String (sextet n 2)
        (String (sextet n 3) (urlsafe_b64encode rest))))
  end.

(** The microseconds of a number of days. *)
Definition microseconds (days : Z) : Z := days * 86400000000.

(** [datetime.max], 9999-12-31 23:59:59.999999, counted from
    [datetime.min]. *)
Definition DATETIME_MAX : Z := 3652059 * 86400000000 - 1.

(** [dt.timedelta(days)]: more than 999999999 days, either way, raise
    [OverflowError]. *)
Definition timedelta {S} (days : Z) : Py S Z :=
  if 999999999 <? Z.abs days then raise OverflowError
  else ret (microseconds days).

(** [date + delta] on a [datetime]: a result that [datetime] cannot hold
    raises [OverflowError]. *)
Definition datetime_add {S} (date delta : Z) : Py S Z :=
  let result := date + delta in
  if (result <? 0) || (DATETIME_MAX <? result) then raise OverflowError
  else ret result.

(* ===================================================================== *)
(** * The environment of the server *)
(* ===================================================================== *)

(** What the code takes from its configuration and from libraries whose
    results are not computed here. *)
(** What [gzip.open(f, 'rb').read(n)] does on a file: it returns the
    decompressed bytes, raises [IOError] (no gzip header, a failed CRC or
    length check), or raises another exception ([zlib.error] on a corrupted
    deflate stream). *)
Inductive gzip_result : Type :=
  | GzipData (data : list Byte.byte)
  | GzipIOError
  | GzipOtherError.

Global Instance gzip_result_eq_dec : EqDecision gzip_result.
Proof. solve_decision. Defined.

Class Env : Type := {
  (** [app.config['UPLOAD_FOLDER']]. *)
  UPLOAD_FOLDER : string;
  (** [os.path.realpath]. *)
  realpath : string -> string;
  (** [gzip.open(f, 'rb').read(n)] on a file of the given content. *)
  gzip_read : list Byte.byte -> Z -> gzip_result;
  (** [glob.iglob(d)] for a directory part [d] that holds one of the
      characters [*], [?] and [[]. *)
  glob_dirs : gmap string node -> string -> list string;
  (** [os.path.getsize] of a directory. *)
  dir_size : Z
}.

Module Data.
(** The [data] dictionary of a finalise request. *)
Record t : Type := mk {
  auth_token : string;
  identifier : string;
  filename : string;
  total_size : Z
}.
End Data.

(* ===================================================================== *)
(** * [glob] *)
(* ===================================================================== *)

Module Glob.

Definition has_magic (s : string) : bool :=
  Str.contains "*"%char s || Str.contains "?"%char s || Str.contains "["%char s.

(** [fnmatch.fnmatch(name, pat)] for patterns made of literal characters,
    [*] and [?]; character classes do not occur in this program. *)
Fixpoint fnmatch (pat : string) : string -> bool :=
  match pat with
  | EmptyString => fun name => String.eqb name ""
  | String c pat' =>
      if Ascii.eqb c "*"%char then
        fix star (name : string) : bool :=
          fnmatch pat' name ||
          match name with
          | EmptyString => false
          | String _ name' => star name'
          end
      else if Ascii.eqb c "?"%char then
        fun name => match name with
                    | EmptyString => false
                    | String _ name' => fnmatch pat' name'
                    end
      else
        fun name => match name with
                    | EmptyString => false
                    | String a name' => Ascii.eqb a c && fnmatch pat' name'
                    end
  end.

Definition lexists (fs : gmap string node) (p : string) : bool :=
  bool_decide (is_Some (fs !! p)).

Definition glob1 (fs : gmap string node) (dirname pattern : string) : list string :=
  match FS.listdir dirname fs with
  | Raise _ _ => []
  | Ret names _ =>
      let names :=
        if negb (Str.startswith "." pattern)
        then List.filter (fun x => negb (Str.startswith "." x)) names
        else names in
      List.filter (fnmatch pattern) names
  end.

Definition glob0 (fs : gmap string node) (dirname basename : string) : list string :=
  if String.eqb basename "" then
    if FS.isdir fs dirname then [basename] else []
  else
    if lexists fs (Path.join dirname basename) then [basename] else [].

(** [glob.glob(pathname)]. *)
Definition glob `{Env} (fs : gmap string node) (pathname : string) : list string :=
  let '(dirname, basename) := Path.split pathname in
  if negb (has_magic pathname) then
    if negb (String.eqb basename "") then
      if lexists fs pathname then [pathname] else []
    else
      if FS.isdir fs dirname then [pathname] else []
  else if String.eqb dirname "" then glob1 fs "." basename
  else
    let dirs :=
      if negb (String.eqb dirname pathname) && has_magic dirname
      then glob_dirs fs dirname else [dirname] in
    let glob_in_dir := if has_magic basename then glob1 else glob0 in
    flat_map (fun d => map (Path.join d) (glob_in_dir fs d basename)) dirs.

End Glob.

(* ===================================================================== *)
(** * [server/utils.py] *)
(* ===================================================================== *)

Section Utils.
Context `{Env}.

Definition generate_auth_token (server_token username : string)
    (name email : option string) (duration_days : option Z)
    : Py world (string * Z) :=
  let duration_days := default 1 duration_days in
  fun w =>
    match first (fun s => String.eqb (Models.server_token s) server_token)
                (servers (db w)) with
    | None => Raise InvalidServerToken w
    | Some server =>
        let user_id := Models.server_id server +:+ "/" +:+ username in
        let users' :=
          match first (fun u => String.eqb (Models.user_id u) user_id)
                      (users (db w)) with
          | Some _ => users (db w)
          | None => users (db w) ++ [Models.mkUser user_id name email (Models.server_id server)]
          end in
        (do bytes <- urandom 12 ;
         let auth_token := urlsafe_b64encode bytes in
         do current_date <- today ;
         do delta <- timedelta duration_days ;
         do expiry_date <- datetime_add current_date delta ;
         let access := Models.mkAccess auth_token current_date expiry_date user_id in
         fun w' =>
           Ret (auth_token, expiry_date)
               (set_db (mkDatabase (servers (db w')) users'
                                   (accesses (db w') ++ [access])
                                   (files (db w'))) w')) w
    end.

Definition get_auth_status (auth_token : string) : Py world string :=
  do current_time <- today ;
  fun w =>
    match first (fun a => String.eqb (Models.auth_token a) auth_token)
                (accesses (db w)) with
    | None => Ret "not found" w
    | Some access =>
        if Models.expiration_date access <? current_time
        then Ret "expired" w
        else Ret "valid" w
    end.

Definition is_gzip_file (filename : string) : bool :=
  let suffix := Str.lower (snd (Path.splitext filename)) in
  bool_decide (suffix ∈ [".gz"; ".tgz"]).

Definition gzip_open_read (filename : string) (n : Z)
    : Py (gmap string node) (list Byte.byte) :=
  fun fs =>
    match fs !! filename with
    | Some (File content) =>
        match gzip_read content n with
        | GzipData data => Ret data fs
        | GzipIOError => Raise IOError fs
        | GzipOtherError => Raise ZlibError fs
        end
    | _ => Raise IOError fs
    end.

Definition gzip_test (filename : string) : Py (gmap string node) bool :=
  try_except
    (run gzip_open_read filename (1024 * 1024) ; ret true)
    IOError
    (ret false).

Definition get_tempdir (args : list string) : string :=
  fold_left Path.join args UPLOAD_FOLDER.

Definition get_file_chunks (fs : gmap string node) (temp_dir : string) : list string :=
  Glob.glob fs (Path.join temp_dir (CHUNK_PREFIX +:+ "*")).

(** [chunk_paths[0]]. *)
Definition item0 {S} (chunk_paths : list string) : Py S string :=
  match chunk_paths with
  | [] => raise IndexError
  | p :: _ => ret p
  end.

Definition merge_chunks (chunk_paths : list string) (filename : string)
    : Py (gmap string node) bool :=
  let chunk_paths := sort_paths chunk_paths in
  do first_path <- item0 chunk_paths ;
  let output_file := Path.join (Path.dirname (realpath first_path)) filename in
  try_except
    (run FS.open_wb output_file ;
     run for_each chunk_paths (fun path =>
           do data <- FS.read path ;
           FS.write output_file data) ;
     ret true)
    IOError
    (run try_except (FS.remove output_file) OSError (ret tt) ;
     ret false).

Definition update_file_status (identifier status : string) : Py world unit :=
  fun w =>
    let this f := String.eqb (Models.identifier f) identifier in
    match first this (files (db w)) with
    | Some _ =>
        let end_date f :=
          if negb (String.eqb status "ongoing") then Some (now w)
          else Models.upload_end_date f in
        let commit f :=
          Models.mkFile (Models.identifier f) (Models.filename f)
                        (Models.total_size f) status
                        (Models.upload_start_date f) (end_date f) in
        Ret tt (set_db (set_files (update_first this commit (files (db w))) (db w)) w)
    | None => Ret tt w
    end.

Definition remove_from_uploads (tempdir : string) : Py (gmap string node) unit :=
  try_except
    (do all_chunks <- FS.listdir tempdir ;
     run for_each all_chunks (fun chunk => FS.remove (Path.join tempdir chunk)) ;
     FS.rmdir tempdir)
    OSError
    (ret tt).

(** [os.path.getsize(p)]. *)
Definition getsize (p : string) : Py (gmap string node) Z :=
  fun fs =>
    match fs !! p with
    | Some (File content) => Ret (Z.of_nat (length content)) fs
    | Some Dir => Ret dir_size fs
    | None => Raise OSError fs
    end.

(** Lines 201 to 212 of [generate_file]: the checks on the merged file. *)
Definition integrity_checks (data : Data.t) (temp_dir merged_file : string)
    : Py world response :=
  do truncated <- (if is_gzip_file (Data.filename data)
                   then (do ok <- on_fs (gzip_test merged_file) ; ret (negb ok))
                   else ret false) ;
  if truncated : bool then
    run on_fs (remove_from_uploads temp_dir) ;
    run update_file_status (Data.identifier data) "corrupt" ;
    ret (return_message "Error: Truncated GZIP file" 415)
  else
    do size <- on_fs (getsize merged_file) ;
    if negb (size =? Data.total_size data) then
      run on_fs (FS.remove merged_file) ;
      ret (return_message "Error: Inconsistent merged file size" 415)
    else
      run update_file_status (Data.identifier data) "complete" ;
      ret (return_message "Success: File upload completed successfully" 200).

Definition generate_file (data : Data.t) : Py world response :=
  let temp_dir := get_tempdir [Data.auth_token data; Data.identifier data] in
  fun w =>
    let all_chunks := get_file_chunks (fs w) temp_dir in
    let merged_file := Path.join temp_dir (Data.filename data) in
    (if negb (FS.isfile (fs w) merged_file) then
       do success <- on_fs (merge_chunks all_chunks (Data.filename data)) ;
       if negb success then
         run update_file_status (Data.identifier data) "unmerged" ;
         ret (return_message "Error: File could not be merged" 500)
       else integrity_checks data temp_dir merged_file
     else integrity_checks data temp_dir merged_file) w.

End Utils.

(* ===================================================================== *)
(** * Auxiliary definitions of the statements *)
(* ===================================================================== *)

(** The bytes of the regular file at [p] (none where there is no such file). *)
Definition file_content (fs : gmap string node) (p : string) : list Byte.byte :=
  match fs !! p with Some (File c) => c | _ => [] end.

(** The body of the loop in [merge_chunks]. *)
Definition copy_chunk (output_file path : string) : Py (gmap string node) unit :=
  do data <- FS.read path ; FS.write output_file data.

(** The path [merge_chunks] writes to, given the first path of the sorted
    list. *)
Definition output_path `{Env} (first_path filename : string) : string :=
  Path.join (Path.dirname (realpath first_path)) filename.

(** [open(p, 'wb')] succeeds. *)
Definition can_create (fs : gmap string node) (p : string) : bool :=
  negb (FS.isdir fs p) && FS.isdir fs (Path.dirname p).

(* ===================================================================== *)
(** * A concrete server for the examples *)
(* ===================================================================== *)

Definition bytes (s : string) : list Byte.byte := String.list_byte_of_string s.

(** The gzip encoding of the empty byte string. *)
Definition empty_gzip : list Byte.byte :=
  [Byte.x1f; Byte.x8b; Byte.x08; Byte.x00; Byte.x00; Byte.x00; Byte.x00;
   Byte.x00; Byte.x02; Byte.xff; Byte.x03; Byte.x00; Byte.x00; Byte.x00;
   Byte.x00; Byte.x00; Byte.x00; Byte.x00; Byte.x00; Byte.x00].

(** A gzip header followed by a deflate block of the reserved type 3, on
    which [zlib] raises [zlib.error] (invalid block type). *)
Definition corrupt_gzip : list Byte.byte :=
  [Byte.x1f; Byte.x8b; Byte.x08; Byte.x00; Byte.x00; Byte.x00; Byte.x00;
   Byte.x00; Byte.x02; Byte.xff; Byte.xff; Byte.xff; Byte.xff; Byte.xff].

(** The gzip reader of the examples.  The examples use it on [empty_gzip],
    which it reads, on [corrupt_gzip], and on content that does not start
    with the gzip magic number [1f 8b], which [gzip] rejects with
    [IOError]. *)
Definition example_gzip_read (content : list Byte.byte) (n : Z) : gzip_result :=
  if decide (content = empty_gzip) then GzipData []
  else if decide (content = corrupt_gzip) then GzipOtherError
  else GzipIOError.

(** A server whose paths are canonical, so that [realpath] leaves them as
    they are. *)
Definition example_env : Env := {|
  UPLOAD_FOLDER := "/uploads";
  realpath := fun p => p;
  gzip_read := example_gzip_read;
  glob_dirs := fun _ _ => [];
  dir_size := 4096
|}.

(** The upload directory of the upload [abc] of the token [tok], holding the
    chunks [HELLO] and [WORLD]. *)
Definition upload_dirs : gmap string node :=
  <["/uploads" := Dir]> (<["/uploads/tok" := Dir]>
  (<["/uploads/tok/abc" := Dir]> ∅)).

Definition two_chunks : gmap string node :=
  <["/uploads/tok/abc/chunk.00000001" := File (bytes "WORLD")]>
  (<["/uploads/tok/abc/chunk.00000000" := File (bytes "HELLO")]> upload_dirs).

Definition hello_world (i : Z) : list Byte.byte :=
  if i =? 0 then bytes "HELLO" else bytes "WORLD".

Definition example_db (name : string) (size : Z) : database :=
  mkDatabase [Models.mkServer "s1" "server-secret"] [] []
             [Models.mkFile "abc" name size "ongoing" 5 None].

Definition example_world (files : gmap string node) (name : string) (size : Z)
    : world :=
  mkWorld files (example_db name size) 1000 (fun _ => Byte.x00) 0.

(** The row of the upload [identifier], as [update_file_status] finds it. *)
Definition file_row (d : database) (identifier : string) : option Models.File :=
  first (fun f => String.eqb (Models.identifier f) identifier) (files d).

(** The row [f] after a transition to [status] at the time [t]. *)
Definition finished (status : string) (t : Z) (f : Models.File) : Models.File :=
  Models.mkFile (Models.identifier f) (Models.filename f) (Models.total_size f)
                status (Models.upload_start_date f) (Some t).

(** The upload directory and the path of the merged file of a request. *)
Definition upload_dir `{Env} (data : Data.t) : string :=
  get_tempdir [Data.auth_token data; Data.identifier data].

Definition merged_path `{Env} (data : Data.t) : string :=
  Path.join (upload_dir data) (Data.filename data).

(** The read of [gzip_test] returns on a file of the given content. *)
Definition gzip_reads `{Env} (content : list Byte.byte) : bool :=
  match gzip_read content (1024 * 1024) with
  | GzipData _ => true
  | _ => false
  end.

(** [gzip_test] returns [True] on the file at [p]. *)
Definition gzip_ok `{Env} (fs : gmap string node) (p : string) : bool :=
  match fs !! p with
  | Some (File content) => gzip_reads content
  | _ => false
  end.

(** [gzip_test] returns [False] on [p]: the read raises [IOError]. *)
Definition gzip_rejected `{Env} (fs : gmap string node) (p : string) : bool :=
  match fs !! p with
  | Some (File content) =>
      bool_decide (gzip_read content (1024 * 1024) = GzipIOError)
  | _ => true
  end.

(** What a run shows to the caller and leaves on disk. *)
Definition visible {A} (o : outcome world A) : option A * option exn * gmap string node :=
  (returned o, raised o, fs (final_state o)).


(** The state in which [generate_file] reaches its checks: the state of the
    call where the merged file is already there, the state after the merge
    where [merge_chunks] has just succeeded. *)
Definition checked_state `{Env} (data : Data.t) (w : world) : option world :=
  if FS.isfile (fs w) (merged_path data) then Some w
  else
    match merge_chunks (get_file_chunks (fs w) (upload_dir data))
                       (Data.filename data) (fs w) with
    | Ret true fs' => Some (set_fs fs' w)
    | _ => None
    end.

(** An upload directory that holds the two chunks and a merged file
    [out.gz] whose content is not a gzip stream. *)
Definition with_bad_gzip : gmap string node :=
  <["/uploads/tok/abc/out.gz" := File (bytes "HELLOWORLD")]> two_chunks.

(** The same with a sub-directory in the upload directory. *)
Definition with_subdirectory : gmap string node :=
  <["/uploads/tok/abc/sub" := Dir]> with_bad_gzip.

(** An upload directory whose second chunk name is taken by a directory. *)
Definition with_unreadable_chunk : gmap string node :=
  <["/uploads/tok/abc/chunk.00000001" := Dir]>
  (<["/uploads/tok/abc/chunk.00000000" := File (bytes "HELLO")]> upload_dirs).

(** An upload directory that holds a merged file [out.gz] which is a gzip
    stream. *)
Definition with_good_gzip : gmap string node :=
  <["/uploads/tok/abc/out.gz" := File empty_gzip]> upload_dirs.

(** An upload directory that holds a merged file [out.gz] with a corrupted
    deflate stream. *)
Definition with_corrupt_gzip : gmap string node :=
  <["/uploads/tok/abc/out.gz" := File corrupt_gzip]> two_chunks.

(** The access row of a token, as [get_auth_status] finds it. *)
Definition access_row (d : database) (auth_token : string) : option Models.Access :=
  first (fun a => String.eqb (Models.auth_token a) auth_token) (accesses d).

(** The server row of a server token, as [generate_auth_token] finds it. *)
Definition server_row (d : database) (server_token : string) : option Models.Server :=
  first (fun s => String.eqb (Models.server_token s) server_token) (servers d).

(* ===================================================================== *)
(** * The paths on which the model is that of the operating system *)
(* ===================================================================== *)

(** The name of a directory entry: not empty, not [.] or [..], without a
    separator and without the character [NUL], of at most 255 characters. *)
Definition plain_name (n : string) : bool :=
  negb (String.eqb n "") && negb (String.eqb n ".") &&
  negb (String.eqb n "..") && negb (Str.contains Path.sep n) &&
  negb (Str.contains Ascii.zero n) && (String.length n <=? 255)%nat.

(** The components of a path: the texts between its separators, the
    component [name] being under way. *)
Fixpoint components_from (name p : string) : list string :=
  match p with
  | EmptyString => [name]
  | String c p' =>
      if Ascii.eqb c Path.sep then name :: components_from "" p'
      else components_from (name +:+ String c "") p'
  end.

(** A canonical path: absolute, every component a plain name, fewer than
    1024 characters (within [PATH_MAX]).  Without symbolic links a file or a
    directory has one canonical path, the one [realpath] returns. *)
Definition canonical (p : string) : bool :=
  match p with
  | String c rest =>
      Ascii.eqb c Path.sep && forallb plain_name (components_from "" rest) &&
      (String.length p <? 1024)%nat
  | EmptyString => false
  end.

(** A directory path in the spelling [get_tempdir] gives it for plain parts:
    not empty, no separator at its end, none of the characters [glob] reads
    as a pattern. *)
Definition plain_dir (d : string) : bool :=
  negb (String.eqb d "") && negb (Str.endswith_char Path.sep d) &&
  negb (Glob.has_magic d).

(** A finalise request whose paths are canonical: the upload directory, the
    merged file, which is an entry of it, and the chunks, which [realpath]
    leaves as they are. *)
Definition ordinary `{Env} (data : Data.t) (w : world) : Prop :=
  canonical (upload_dir data) = true /\
  plain_dir (upload_dir data) = true /\
  plain_name (Data.filename data) = true /\
  canonical (merged_path data) = true /\
  forall p, p ∈ get_file_chunks (fs w) (upload_dir data) -> realpath p = p.

(* ===================================================================== *)
(** * More of [server/utils.py] *)
(* ===================================================================== *)

Definition get_auth_response (auth_status : string) : response :=
  if String.eqb auth_status "valid" then
    return_message "Success: Valid transfer code" 200
  else if String.eqb auth_status "expired" then
    return_message "Error: Transfer code has expired" 410
  else if String.eqb auth_status "not found" then
    return_message "Error: Transfer code does not exist" 404
  else
    return_message "Error: Unexpected authentication status" 500.

(** [allowed_file], with [app.config['ALLOWED_EXTENSIONS']] as a
    parameter. *)
Definition allowed_file (ALLOWED_EXTENSIONS : list string) (filename : string) : bool :=
  let suffix := Str.lower (snd (Path.splitext filename)) in
  bool_decide (suffix ∈ ALLOWED_EXTENSIONS).

(** The end-of-file block of a BAM file, 28 bytes. *)
Definition bam_eof : list Byte.byte :=
  [Byte.x1f; Byte.x8b; Byte.x08; Byte.x04; Byte.x00; Byte.x00; Byte.x00;
   Byte.x00; Byte.x00; Byte.xff; Byte.x06; Byte.x00; Byte.x42; Byte.x43;
   Byte.x02; Byte.x00; Byte.x1b; Byte.x00; Byte.x03; Byte.x00; Byte.x00;
   Byte.x00; Byte.x00; Byte.x00; Byte.x00; Byte.x00; Byte.x00; Byte.x00].

(** [bam_test]: [f.seek(-28, 2)] raises [IOError] on a file of fewer than
    28 bytes, and [f.read()] then returns the last 28 bytes. *)
Definition bam_test (filename : string) : Py (gmap string node) bool :=
  fun fs =>
    match fs !! filename with
    | Some (File content) =>
        if (length content <? 28)%nat then Raise IOError fs
        else Ret (bool_decide (drop (length content - 28) content = bam_eof)) fs
    | _ => Raise IOError fs
    end.

(** [get_user_by_auth_token]: the function returns [None] by falling off its
    end where no access row has the token. *)
Definition get_user_by_auth_token (auth_token : string) : Py world (option string) :=
  fun w =>
    match first (fun a => String.eqb (Models.auth_token a) auth_token)
                (accesses (db w)) with
    | Some access => Ret (Some (Models.user_of access)) w
    | None => Ret None w
    end.

(** The row of a user. *)
Definition user_row (d : database) (user_id : string) : option Models.User :=
  first (fun u => String.eqb (Models.user_id u) user_id) (users d).

(** The chunk names of the sequence numbers [0 .. n-1] in a directory. *)
Definition chunk_names (temp_dir : string) (n : Z) : list string :=
  map (get_chunk_filename temp_dir) (seqZ 0 n).

(** The state [generate_auth_token] leaves, given the server it has found. *)
Definition issued (server : Models.Server) (username : string)
    (name email : option string) (duration_days : option Z) (w : world) : world :=
  let user_id := Models.server_id server +:+ "/" +:+ username in
  let token := urlsafe_b64encode (map (entropy w) (seq (drawn w) 12)) in
  let access := Models.mkAccess token (now w)
                  (now w + microseconds (default 1 duration_days)) user_id in
  mkWorld (fs w)
    (mkDatabase (servers (db w))
       (match user_row (db w) user_id with
        | Some _ => users (db w)
        | None => users (db w) ++ [Models.mkUser user_id name email
                                                 (Models.server_id server)]
        end)
       (accesses (db w) ++ [access])
       (files (db w)))
    (now w) (entropy w) (drawn w + 12).

(** The expiration date of a token issued at [date] for [days] days is a
    date [datetime] can hold. *)
Definition representable (date days : Z) : bool :=
  (Z.abs days <=? 999999999) && (0 <=? date + microseconds days) &&
  (date + microseconds days <=? DATETIME_MAX).

(** The world when the clock shows [t]. *)
Definition at_time (t : Z) (w : world) : world :=
  mkWorld (fs w) (db w) t (entropy w) (drawn w).

(** Every character of [s] satisfies [p]. *)
Fixpoint string_forall (p : ascii -> bool) (s : string) : bool :=
  match s with
  | EmptyString => true
  | String c s' => p c && string_forall p s'
  end.

(** The characters of a base64url text: letters, digits, [-], [_] and the
    padding [=]. *)
Definition urlsafe_char (c : ascii) : bool :=
  let n := nat_of_ascii c in
  ((65 <=? n) && (n <=? 90) || (97 <=? n) && (n <=? 122) ||
   (48 <=? n) && (n <=? 57) || (n =? 45) || (n =? 95) || (n =? 61))%nat.

(* ===================================================================== *)
(** * Chunk names sort in numeric order *)
(* ===================================================================== *)

Section ChunkOrder.

Lemma ascii_compare_refl (c : ascii) : Ascii.compare c c = Eq.
Proof. unfold Ascii.compare. apply N.compare_refl. Qed.

Lemma string_lt_le (s t : string) : (s ?= t)%string = Lt -> String.le s t.
Proof. unfold String.le, String.leb. intros ->. done. Qed.

Lemma string_app_cons (c : ascii) (s t : string) :
  String c s +:+ t = String c (s +:+ t).
Proof. done. Qed.

Lemma string_app_nil_r (s : string) : s +:+ "" = s.
Proof. induction s as [|c s IH]; [done|]. by rewrite string_app_cons, IH. Qed.

Lemma string_app_assoc (s t u : string) : (s +:+ t) +:+ u = s +:+ (t +:+ u).
Proof. induction s as [|c s IH]; [done|]. by rewrite !string_app_cons, IH. Qed.

Lemma compare_app_prefix (p s t : string) :
  ((p +:+ s) ?= (p +:+ t))%string = (s ?= t)%string.
Proof.
  induction p as [|c p IH]; [done|].
  change (String c p +:+ s) with (String c (p +:+ s)).
  change (String c p +:+ t) with (String c (p +:+ t)).
  cbn [String.compare]. by rewrite ascii_compare_refl.
Qed.

Lemma digit_char_lt (a b : Z) :
  0 <= a -> a < b -> b < 10 ->
  Ascii.compare (digit_char a) (digit_char b) = Lt.
Proof.
  intros Ha Hab Hb. unfold Ascii.compare, digit_char, ascii_of_nat.
  rewrite !N_ascii_embedding by lia.
  apply N.compare_lt_iff. lia.
Qed.

Lemma digits_w_mod (w : nat) (n : Z) :
  0 <= n -> digits_w w (n mod 10 ^ Z.of_nat w) = digits_w w n.
Proof.
  intros Hn. revert n Hn.
  assert (G : forall k (n : Z), (k <= w)%nat -> 0 <= n ->
            digits_w k (n mod 10 ^ Z.of_nat w) = digits_w k n).
  { induction k as [|k IH]; intros n Hk Hn; [done|].
    cbn [digits_w]. rewrite IH by lia. f_equal. f_equal.
    replace (Z.of_nat w) with (Z.of_nat k + (Z.of_nat w - Z.of_nat k)) by lia.
    rewrite Z.pow_add_r by lia.
    set (a := 10 ^ Z.of_nat k). set (b := 10 ^ (Z.of_nat w - Z.of_nat k)).
    assert (0 < a) by (apply Z.pow_pos_nonneg; lia).
    assert (0 < b) by (apply Z.pow_pos_nonneg; lia).
    assert (Hb : exists c, b = 10 * c /\ 0 < c).
    { exists (10 ^ (Z.of_nat w - Z.of_nat k - 1)). split.
      - unfold b. rewrite <- Z.pow_succ_r by lia. f_equal. lia.
      - apply Z.pow_pos_nonneg; lia. }
    destruct Hb as (c & -> & Hc).
    rewrite Z.rem_mul_r by lia.
    rewrite (Z.mul_comm a), Z.div_add by lia.
    rewrite Z.div_small by (apply Z.mod_pos_bound; lia).
    rewrite Z.add_0_l.
    rewrite Z.rem_mul_r by lia.
    rewrite (Z.mul_comm 10), Z.mod_add by lia.
    apply Z.mod_mod. lia. }
  intros n Hn. by apply G.
Qed.

Lemma digits_w_lt (w : nat) (i j : Z) :
  0 <= i -> i < j -> j < 10 ^ Z.of_nat w ->
  (digits_w w i ?= digits_w w j)%string = Lt.
Proof.
  revert i j. induction w as [|w IH]; intros i j Hi Hij Hj.
  { change (10 ^ Z.of_nat 0) with 1 in Hj. lia. }
  cbn [digits_w String.compare].
  rewrite Nat2Z.inj_succ, Z.pow_succ_r in Hj by lia.
  set (a := 10 ^ Z.of_nat w) in *.
  assert (Ha : 0 < a) by (apply Z.pow_pos_nonneg; lia).
  assert (Hqi : 0 <= i / a < 10).
  { split; [apply Z.div_pos; lia|]. apply Z.div_lt_upper_bound; lia. }
  assert (Hqj : 0 <= j / a < 10).
  { split; [apply Z.div_pos; lia|]. apply Z.div_lt_upper_bound; lia. }
  rewrite !(Z.mod_small (_ / a)) by lia.
  assert (Hle : i / a <= j / a) by (apply Z.div_le_mono; lia).
  destruct (Z.eq_dec (i / a) (j / a)) as [Heq|Hne].
  - rewrite Heq, ascii_compare_refl.
    rewrite <- (digits_w_mod w i), <- (digits_w_mod w j) by lia.
    apply IH.
    + apply Z.mod_pos_bound; lia.
    + pose proof (Z.div_mod i a ltac:(lia)) as Ei.
      pose proof (Z.div_mod j a ltac:(lia)) as Ej.
      rewrite Heq in Ei. fold a. lia.
    + apply Z.mod_pos_bound; lia.
  - rewrite digit_char_lt by lia. done.
Qed.

Lemma count_digits_le (fuel k : nat) (n : Z) :
  (0 < k)%nat -> 0 <= n -> n < 10 ^ Z.of_nat k -> (count_digits fuel n <= k)%nat.
Proof.
  revert k n. induction fuel as [|f IH]; intros k n Hk Hn Hlt; cbn [count_digits].
  { lia. }
  destruct (n <? 10) eqn:E; [lia|].
  apply Z.ltb_ge in E.
  destruct k as [|k]; [lia|].
  destruct k as [|k].
  { change (10 ^ Z.of_nat 1) with 10 in Hlt. lia. }
  apply le_n_S. apply IH; [lia| apply Z.div_pos; lia |].
  apply Z.div_lt_upper_bound; [lia|].
  rewrite (Nat2Z.inj_succ (S k)), Z.pow_succ_r in Hlt by lia. lia.
Qed.

(** Below 100,000,000 the name has exactly eight digits. *)
Lemma format_08d_eight (n : Z) :
  0 <= n < 100000000 -> format_08d n = digits_w 8 n.
Proof.
  intros [Hn Hlt]. unfold format_08d.
  destruct (n <? 0) eqn:E; [apply Z.ltb_lt in E; lia|].
  replace (Nat.max 8 (num_digits n)) with 8%nat; [done|].
  assert (num_digits n <= 8)%nat; [|lia].
  apply count_digits_le; [lia|lia|]. change (10 ^ Z.of_nat 8) with 100000000. lia.
Qed.

Lemma join_relative (d b : string) :
  Str.startswith "/" b = false -> Path.join d b = Path.join d "" +:+ b.
Proof.
  intros Hb. unfold Path.join. rewrite Hb. cbn [Str.startswith].
  destruct (String.eqb d "" || Str.endswith_char Path.sep d).
  - by rewrite string_app_nil_r.
  - by rewrite string_app_assoc.
Qed.

Lemma get_chunk_filename_eq (d : string) (n : Z) :
  get_chunk_filename d n = Path.join d "" +:+ CHUNK_PREFIX +:+ format_08d n.
Proof. unfold get_chunk_filename. by rewrite join_relative. Qed.

(** Lexicographic order of the names is numeric order of the sequence
    numbers, up to 99,999,999. *)
Lemma get_chunk_filename_lt (d : string) (i j : Z) :
  0 <= i -> i < j -> j < 100000000 ->
  (get_chunk_filename d i ?= get_chunk_filename d j)%string = Lt.
Proof.
  intros Hi Hij Hj. rewrite !get_chunk_filename_eq, !compare_app_prefix.
  rewrite !format_08d_eight by lia.
  apply digits_w_lt; [lia|lia|]. change (10 ^ Z.of_nat 8) with 100000000. lia.
Qed.

Lemma get_chunk_filename_inj (d : string) (i j : Z) :
  0 <= i < 100000000 -> 0 <= j < 100000000 ->
  get_chunk_filename d i = get_chunk_filename d j -> i = j.
Proof.
  intros Hi Hj Heq.
  destruct (Z.lt_trichotomy i j) as [Hlt|[->|Hlt]]; [|done|].
  - pose proof (get_chunk_filename_lt d i j) as L. rewrite Heq in L.
    assert ((get_chunk_filename d j ?= get_chunk_filename d j)%string = Eq) as R.
    { rewrite !get_chunk_filename_eq, !compare_app_prefix.
      generalize (format_08d j). induction s; [done|].
      cbn. by rewrite ascii_compare_refl. }
    rewrite R in L. discriminate L; lia.
  - pose proof (get_chunk_filename_lt d j i) as L. rewrite Heq in L.
    assert ((get_chunk_filename d j ?= get_chunk_filename d j)%string = Eq) as R.
    { rewrite !get_chunk_filename_eq, !compare_app_prefix.
      generalize (format_08d j). induction s; [done|].
      cbn. by rewrite ascii_compare_refl. }
    rewrite R in L. discriminate L; lia.
Qed.

Lemma chunk_names_sorted (d : string) (m : Z) (n : nat) :
  0 <= m -> m + Z.of_nat n <= 100000000 ->
  StronglySorted String.le (map (get_chunk_filename d) (seqZ m (Z.of_nat n))).
Proof.
  revert m. induction n as [|n IH]; intros m Hm Hn.
  { constructor. }
  rewrite seqZ_cons by lia. cbn [map]. constructor.
  - replace (Z.pred (Z.of_nat (S n))) with (Z.of_nat n) by lia.
    apply IH; lia.
  - apply Forall_forall. intros x Hx.
    apply list_elem_of_fmap in Hx as (j & -> & Hj).
    apply elem_of_seqZ in Hj.
    apply string_lt_le, get_chunk_filename_lt; lia.
Qed.

(** Sorting the names of the sequence numbers [0 .. n-1], given in any
    order, yields them in ascending numeric order. *)
Lemma sort_paths_chunks (d : string) (n : Z) (seqs : list Z) :
  n <= 100000000 ->
  seqs ≡ₚ seqZ 0 n ->
  sort_paths (map (get_chunk_filename d) seqs) = map (get_chunk_filename d) (seqZ 0 n).
Proof.
  intros Hn Hperm. unfold sort_paths.
  apply (StronglySorted_unique String.le).
  - apply StronglySorted_merge_sort; apply _.
  - destruct (Z.le_gt_cases n 0) as [Hle|Hgt].
    + rewrite seqZ_nil by lia. constructor.
    + rewrite <- (Z2Nat.id n) by lia. apply chunk_names_sorted; lia.
  - rewrite merge_sort_Permutation. by apply Permutation_map.
Qed.

End ChunkOrder.

(* ===================================================================== *)
(** * The copy loop of [merge_chunks] *)
(* ===================================================================== *)

Section MergeLemmas.
Context `{Env}.

Lemma isfile_Some (fs : gmap string node) (p : string) :
  FS.isfile fs p = true -> fs !! p = Some (File (file_content fs p)).
Proof.
  unfold FS.isfile, file_content. by destruct (fs !! p) as [[c|]|].
Qed.

Lemma isfile_insert_ne (fs : gmap string node) (p q : string) (x : node) :
  p ≠ q -> FS.isfile (<[q := x]> fs) p = FS.isfile fs p.
Proof. intros Hne. unfold FS.isfile. by rewrite lookup_insert_ne. Qed.

Lemma file_content_insert_ne (fs : gmap string node) (p q : string) (x : node) :
  p ≠ q -> file_content (<[q := x]> fs) p = file_content fs p.
Proof. intros Hne. unfold file_content. by rewrite lookup_insert_ne. Qed.

Lemma for_each_copy_cons (out p : string) (rest : list string)
    (fs : gmap string node) :
  for_each (p :: rest) (copy_chunk out) fs
  = match fs !! p with
    | Some (File c) =>
        match fs !! out with
        | Some (File acc) =>
            for_each rest (copy_chunk out) (<[out := File (acc ++ c)]> fs)
        | _ => Raise IOError fs
        end
    | _ => Raise IOError fs
    end.
Proof.
  cbn [for_each]. unfold bind, copy_chunk, bind, FS.read, FS.write.
  destruct (fs !! p) as [[c|]|]; [|done..].
  by destruct (fs !! out) as [[acc|]|].
Qed.

(** Every chunk is readable and none is the output: the loop appends the
    chunks to the output in the order of the list. *)
Lemma copy_loop_ok (out : string) (paths : list string)
    (fs : gmap string node) (acc : list Byte.byte) :
  out ∉ paths ->
  fs !! out = Some (File acc) ->
  (forall p, p ∈ paths -> FS.isfile fs p = true) ->
  for_each paths (copy_chunk out) fs
  = Ret tt (<[out := File (acc ++ concat (map (file_content fs) paths))]> fs).
Proof.
  revert fs acc. induction paths as [|p rest IH]; intros fs acc Hout Hacc Hfiles.
  { cbn. rewrite app_nil_r. by rewrite insert_id. }
  apply not_elem_of_cons in Hout as [Hne Hout].
  rewrite for_each_copy_cons.
  rewrite (isfile_Some fs p) by (apply Hfiles; left). rewrite Hacc.
  rewrite (IH _ (acc ++ file_content fs p)); [| done | by rewrite lookup_insert_eq |].
  - rewrite insert_insert_eq. cbn [map concat]. rewrite <- app_assoc.
    assert (map (file_content (<[out:=File (acc ++ file_content fs p)]> fs)) rest
            = map (file_content fs) rest) as ->; [|done].
    apply map_ext_in. intros q Hq.
    apply file_content_insert_ne. intros ->.
    apply Hout. by apply list_elem_of_In.
  - intros q Hq. rewrite isfile_insert_ne; [apply Hfiles; by right|].
    intros ->. by apply Hout.
Qed.

(** Whatever the chunks are, the loop ends, by returning or by [IOError],
    and has touched the output file only. *)
Lemma copy_loop_total (out : string) (paths : list string)
    (fs : gmap string node) (acc : list Byte.byte) :
  fs !! out = Some (File acc) ->
  exists acc',
    for_each paths (copy_chunk out) fs = Ret tt (<[out := File acc']> fs) \/
    for_each paths (copy_chunk out) fs = Raise IOError (<[out := File acc']> fs).
Proof.
  revert fs acc. induction paths as [|p rest IH]; intros fs acc Hacc.
  { exists acc. left. cbn. by rewrite insert_id. }
  rewrite for_each_copy_cons.
  destruct (fs !! p) as [[c|]|] eqn:Hp.
  - rewrite Hacc.
    destruct (IH (<[out := File (acc ++ c)]> fs) (acc ++ c)) as (acc' & IH').
    { by rewrite lookup_insert_eq. }
    rewrite insert_insert_eq in IH'. by exists acc'.
  - exists acc. right. by rewrite insert_id.
  - exists acc. right. by rewrite insert_id.
Qed.

(** A chunk other than the output that cannot be read makes the loop end
    with [IOError]. *)
Lemma copy_loop_fail (out : string) (paths : list string)
    (fs : gmap string node) (acc : list Byte.byte) :
  fs !! out = Some (File acc) ->
  (exists p, p ∈ paths /\ p ≠ out /\ FS.isfile fs p = false) ->
  exists acc',
    for_each paths (copy_chunk out) fs = Raise IOError (<[out := File acc']> fs).
Proof.
  revert fs acc. induction paths as [|p rest IH]; intros fs acc Hacc (q & Hq & Hne & Hbad).
  { by apply elem_of_nil in Hq. }
  rewrite for_each_copy_cons.
  destruct (fs !! p) as [[c|]|] eqn:Hp.
  - rewrite Hacc.
    destruct (IH (<[out := File (acc ++ c)]> fs) (acc ++ c)) as (acc' & IH').
    { by rewrite lookup_insert_eq. }
    { exists q. split_and!; [|done|by rewrite isfile_insert_ne].
      apply elem_of_cons in Hq as [->|Hq]; [|done].
      unfold FS.isfile in Hbad. by rewrite Hp in Hbad. }
    rewrite insert_insert_eq in IH'. by exists acc'.
  - exists acc. by rewrite insert_id.
  - exists acc. by rewrite insert_id.
Qed.

(** [merge_chunks] on a non-empty list, step by step. *)
Lemma merge_chunks_eq (chunk_paths : list string) (filename : string)
    (fs : gmap string node) (p0 : string) (rest : list string) :
  sort_paths chunk_paths = p0 :: rest ->
  merge_chunks chunk_paths filename fs
  = let out := output_path p0 filename in
    if can_create fs out then
      match for_each (p0 :: rest) (copy_chunk out) (<[out := File []]> fs) with
      | Ret _ fs' => Ret true fs'
      | Raise e fs' =>
          if decide (e = IOError) then
            if FS.isfile fs' out then Ret false (delete out fs') else Ret false fs'
          else Raise e fs'
      end
    else if FS.isfile fs out then Ret false (delete out fs) else Ret false fs.
Proof.
  intros Hsort. unfold merge_chunks. rewrite Hsort. cbn [item0].
  unfold bind at 1. unfold ret at 1. fold (output_path p0 filename).
  set (out := output_path p0 filename). cbv zeta.
  unfold try_except at 1. unfold bind at 1. unfold FS.open_wb, can_create.
  destruct (FS.isdir fs out); cbn [orb negb andb].
  { cbn. unfold bind, try_except, FS.remove.
    destruct (FS.isfile fs out); done. }
  destruct (FS.isdir fs (Path.dirname out)); cbn [negb].
  - unfold bind at 1.
    change (fun path => do data <- FS.read path; FS.write out data)
      with (copy_chunk out).
    destruct (for_each (p0 :: rest) (copy_chunk out) (<[out:=File []]> fs))
      as [[] fs'|e fs']; [done|].
    destruct (decide (e = IOError)); [|done].
    unfold bind, try_except, FS.remove. by destruct (FS.isfile fs' out).
  - cbn. unfold bind, try_except, FS.remove.
    destruct (FS.isfile fs out); done.
Qed.

Lemma sort_paths_cons (chunk_paths : list string) :
  chunk_paths ≠ [] ->
  exists p0 rest, sort_paths chunk_paths = p0 :: rest.
Proof.
  intros Hne. destruct (sort_paths chunk_paths) as [|p0 rest] eqn:E; [|by eauto].
  exfalso. apply Hne. apply Permutation_nil_r.
  unfold sort_paths in E. by rewrite <- E, merge_sort_Permutation.
Qed.

Lemma can_create_lookup (fs : gmap string node) (out : string) :
  can_create fs out = true -> fs !! out ≠ Some Dir.
Proof.
  unfold can_create, FS.isdir. intros Hc Hd. by rewrite Hd in Hc.
Qed.

(** Success of [merge_chunks]: readable chunks, none of them the output. *)
Lemma merge_chunks_ok (chunk_paths : list string) (filename : string)
    (fs : gmap string node) (p0 : string) (rest : list string) :
  sort_paths chunk_paths = p0 :: rest ->
  let out := output_path p0 filename in
  can_create fs out = true ->
  out ∉ chunk_paths ->
  (forall p, p ∈ chunk_paths -> FS.isfile fs p = true) ->
  merge_chunks chunk_paths filename fs
  = Ret true (<[out := File (concat (map (file_content fs) (p0 :: rest)))]> fs).
Proof.
  intros Hsort out Hc Hout Hfiles.
  rewrite (merge_chunks_eq _ _ _ _ _ Hsort). fold out. cbv zeta. rewrite Hc.
  assert (Hperm : p0 :: rest ≡ₚ chunk_paths).
  { rewrite <- Hsort. apply merge_sort_Permutation. }
  rewrite (copy_loop_ok out (p0 :: rest) _ []).
  - rewrite insert_insert_eq. cbn [app]. do 4 f_equal.
    apply map_ext_in. intros q Hq. apply file_content_insert_ne.
    intros ->. apply Hout. rewrite <- Hperm. by apply list_elem_of_In.
  - by rewrite Hperm.
  - by rewrite lookup_insert_eq.
  - intros q Hq. rewrite isfile_insert_ne.
    + apply Hfiles. by rewrite <- Hperm.
    + intros ->. apply Hout. by rewrite <- Hperm.
Qed.

(** [merge_chunks] on a non-empty list always returns; it touches the
    output path only; when it reports success a regular file is at the
    output path, and when it reports failure none is. *)
Lemma merge_chunks_total (chunk_paths : list string) (filename : string)
    (fs : gmap string node) (p0 : string) (rest : list string) :
  sort_paths chunk_paths = p0 :: rest ->
  let out := output_path p0 filename in
  exists (success : bool) (fs' : gmap string node),
    merge_chunks chunk_paths filename fs = Ret success fs' /\
    (forall p, p ≠ out -> fs' !! p = fs !! p) /\
    (success = false -> FS.isfile fs' out = false) /\
    (success = true -> FS.isfile fs' out = true /\ FS.isdir fs out = false).
Proof.
  intros Hsort out.
  rewrite (merge_chunks_eq _ _ _ _ _ Hsort). fold out. cbv zeta.
  destruct (can_create fs out) eqn:Hc.
  - destruct (copy_loop_total out (p0 :: rest) (<[out := File []]> fs) [])
      as (acc & [E|E]); [by rewrite lookup_insert_eq| |];
      rewrite E, insert_insert_eq.
    + exists true, (<[out := File acc]> fs). split_and!; [done| |done|].
      * intros p Hp. by rewrite lookup_insert_ne.
      * intros _. split.
        -- unfold FS.isfile. by rewrite lookup_insert_eq.
        -- unfold can_create in Hc. by destruct (FS.isdir fs out).
    + cbn. unfold FS.isfile at 1. rewrite lookup_insert_eq.
      exists false, (delete out (<[out := File acc]> fs)). split_and!; [done| | |done].
      * intros p Hp. by rewrite lookup_delete_ne, lookup_insert_ne.
      * intros _. unfold FS.isfile. by rewrite lookup_delete_eq.
  - destruct (FS.isfile fs out) eqn:Hf.
    + exists false, (delete out fs). split_and!; [done| | |done].
      * intros p Hp. by rewrite lookup_delete_ne.
      * intros _. unfold FS.isfile. by rewrite lookup_delete_eq.
    + by exists false, fs.
Qed.

(** An I/O failure in [merge_chunks]: the output cannot be opened, or a
    chunk other than the output cannot be read. *)
Lemma merge_chunks_io_failure (chunk_paths : list string) (filename : string)
    (fs : gmap string node) (p0 : string) (rest : list string) :
  sort_paths chunk_paths = p0 :: rest ->
  let out := output_path p0 filename in
  can_create fs out = false \/
  (exists p, p ∈ chunk_paths /\ p ≠ out /\ FS.isfile fs p = false) ->
  exists fs' : gmap string node,
    merge_chunks chunk_paths filename fs = Ret false fs' /\
    (forall p, p ≠ out -> fs' !! p = fs !! p) /\
    FS.isfile fs' out = false.
Proof.
  intros Hsort out Hfail.
  destruct (merge_chunks_total chunk_paths filename fs p0 rest Hsort)
    as (success & fs' & Hrun & Hframe & Hclean & _). fold out in Hrun, Hframe, Hclean.
  assert (success = false) as ->; [|by eauto].
  rewrite (merge_chunks_eq _ _ _ _ _ Hsort) in Hrun. fold out in Hrun. cbv zeta in Hrun.
  destruct (can_create fs out) eqn:Hc.
  - destruct Hfail as [?|(q & Hq & Hne & Hbad)]; [done|].
    destruct (copy_loop_fail out (p0 :: rest) (<[out := File []]> fs) [])
      as (acc & E).
    + by rewrite lookup_insert_eq.
    + exists q. split_and!; [|done|by rewrite isfile_insert_ne].
      assert (Hperm : p0 :: rest ≡ₚ chunk_paths).
      { rewrite <- Hsort. apply merge_sort_Permutation. }
      by rewrite Hperm.
    + rewrite E in Hrun. cbn in Hrun.
      destruct (FS.isfile _ out); by inversion Hrun.
  - destruct (FS.isfile fs out); by inversion Hrun.
Qed.

End MergeLemmas.

(* ===================================================================== *)
(** * [update_file_status] *)
(* ===================================================================== *)

Section StatusLemmas.

Lemma first_update_first {A} (p : A -> bool) (f : A -> A) (table : list A) :
  (forall row, p row = true -> p (f row) = true) ->
  first p (update_first p f table) = f <$> first p table.
Proof.
  intros Hp. unfold first. induction table as [|row rest IH]; [done|].
  cbn [update_first List.find]. destruct (p row) eqn:E.
  - cbn [List.find]. by rewrite (Hp row E).
  - cbn [List.find]. by rewrite E.
Qed.

Lemma first_update_first_other {A} (p q : A -> bool) (f : A -> A) (table : list A) :
  (forall row, p row = true -> q row = false) ->
  (forall row, p row = true -> q (f row) = false) ->
  first q (update_first p f table) = first q table.
Proof.
  intros H1 H2. unfold first. induction table as [|row rest IH]; [done|].
  cbn [update_first List.find]. destruct (p row) eqn:E.
  - cbn [List.find]. by rewrite (H1 row E), (H2 row E).
  - cbn [List.find]. by rewrite IH.
Qed.

Lemma update_file_status_missing (identifier status : string) (w : world) :
  file_row (db w) identifier = None ->
  update_file_status identifier status w = Ret tt w.
Proof. unfold update_file_status, file_row. by intros ->. Qed.

(** A transition to a status other than [ongoing]. *)
Lemma update_file_status_found (identifier status : string) (w : world)
    (row : Models.File) :
  file_row (db w) identifier = Some row ->
  status ≠ "ongoing" ->
  exists w',
    update_file_status identifier status w = Ret tt w' /\
    file_row (db w') identifier = Some (finished status (now w) row) /\
    (forall other, other ≠ identifier ->
       file_row (db w') other = file_row (db w) other) /\
    fs w' = fs w /\ now w' = now w /\
    servers (db w') = servers (db w) /\ users (db w') = users (db w) /\
    accesses (db w') = accesses (db w).
Proof.
  intros Hrow Hst. unfold update_file_status. unfold file_row in Hrow.
  rewrite Hrow. eexists. split; [reflexivity|].
  assert (String.eqb status "ongoing" = false) as E by by apply String.eqb_neq.
  rewrite E. cbn [negb]. split_and!; try done.
  - unfold file_row. cbn [db set_db files set_files].
    rewrite first_update_first; [by rewrite Hrow|]. by intros [].
  - intros other Hne. unfold file_row. cbn [db set_db files set_files].
    apply first_update_first_other.
    + intros r Hr. apply String.eqb_eq in Hr. apply String.eqb_neq. by rewrite Hr.
    + intros r Hr. apply String.eqb_eq in Hr. apply String.eqb_neq. cbn. by rewrite Hr.
Qed.

(** [update_file_status] always returns and leaves the files alone. *)
Lemma update_file_status_total (identifier status : string) (w : world) :
  exists w', update_file_status identifier status w = Ret tt w' /\
             fs w' = fs w /\ now w' = now w.
Proof.
  unfold update_file_status.
  destruct (first _ (files (db w))); by eexists.
Qed.

End StatusLemmas.

(* ===================================================================== *)
(** * The outcomes of [generate_auth_token] *)
(* ===================================================================== *)

Section TokenOutcomes.

(** With a known server the call returns where the expiration date is one
    that [datetime] can hold, and raises [OverflowError], nothing being
    committed, where it is not. *)
Lemma generate_auth_token_eq (server_token username : string)
    (name email : option string) (duration_days : option Z) (w : world)
    (server : Models.Server) :
  server_row (db w) server_token = Some server ->
  generate_auth_token server_token username name email duration_days w
  = if representable (now w) (default 1 duration_days)
    then Ret (urlsafe_b64encode (map (entropy w) (seq (drawn w) 12)),
              now w + microseconds (default 1 duration_days))
             (issued server username name email duration_days w)
    else Raise OverflowError
               (mkWorld (fs w) (db w) (now w) (entropy w) (drawn w + 12)).
Proof.
  intros Hserver. unfold generate_auth_token. unfold server_row in Hserver.
  rewrite Hserver. unfold representable, bind, urandom, today, timedelta,
    datetime_add, raise, ret.
  cbn [now]. rewrite !Z.leb_antisym.
  destruct (999999999 <? Z.abs (default 1 duration_days)); [done|].
  destruct (now w + microseconds (default 1 duration_days) <? 0); [done|].
  by destruct (DATETIME_MAX <? now w + microseconds (default 1 duration_days)).
Qed.

Lemma generate_auth_token_unknown (server_token username : string)
    (name email : option string) (duration_days : option Z) (w : world) :
  server_row (db w) server_token = None ->
  generate_auth_token server_token username name email duration_days w
  = Raise InvalidServerToken w.
Proof.
  intros Hserver. unfold generate_auth_token. unfold server_row in Hserver.
  by rewrite Hserver.
Qed.

End TokenOutcomes.

(* ===================================================================== *)
(** * The two phases of [generate_file] *)
(* ===================================================================== *)

Section FinalizeLemmas.
Context `{Env}.

Lemma generate_file_eq (data : Data.t) (w : world) :
  generate_file data w
  = if FS.isfile (fs w) (merged_path data)
    then integrity_checks data (upload_dir data) (merged_path data) w
    else
      match merge_chunks (get_file_chunks (fs w) (upload_dir data))
                         (Data.filename data) (fs w) with
      | Ret true fs' =>
          integrity_checks data (upload_dir data) (merged_path data) (set_fs fs' w)
      | Ret false fs' =>
          match update_file_status (Data.identifier data) "unmerged" (set_fs fs' w) with
          | Ret _ w' => Ret (return_message "Error: File could not be merged" 500) w'
          | Raise e w' => Raise e w'
          end
      | Raise e fs' => Raise e (set_fs fs' w)
      end.
Proof.
  unfold generate_file. fold (upload_dir data). fold (merged_path data). cbv zeta.
  destruct (FS.isfile (fs w) (merged_path data)); cbn [negb]; [done|].
  unfold bind at 1. unfold on_fs.
  destruct (merge_chunks _ _ (fs w)) as [[|] fs'|e fs']; cbn [negb]; try done.
Qed.

Lemma set_fs_same (w : world) : set_fs (fs w) w = w.
Proof. by destruct w. Qed.

Lemma gzip_test_eq (p : string) (fs : gmap string node) :
  gzip_test p fs
  = if gzip_ok fs p then Ret true fs
    else if gzip_rejected fs p then Ret false fs
    else Raise ZlibError fs.
Proof.
  unfold gzip_test, try_except, bind, gzip_open_read, gzip_ok, gzip_rejected,
    gzip_reads.
  destruct (fs !! p) as [[c|]|]; [|done..].
  by destruct (gzip_read c (1024 * 1024)) as [d| |].
Qed.

Lemma gzip_rejected_not_ok (p : string) (fs : gmap string node) :
  gzip_rejected fs p = true -> gzip_ok fs p = false.
Proof.
  unfold gzip_rejected, gzip_ok, gzip_reads.
  destruct (fs !! p) as [[c|]|]; [|done..].
  intros Hr%bool_decide_eq_true. by rewrite Hr.
Qed.

Lemma remove_loop_cons (d n : string) (rest : list string)
    (fs : gmap string node) :
  for_each (n :: rest) (fun chunk => FS.remove (Path.join d chunk)) fs
  = if FS.isfile fs (Path.join d n)
    then for_each rest (fun chunk => FS.remove (Path.join d chunk))
                  (delete (Path.join d n) fs)
    else Raise OSError fs.
Proof.
  cbn [for_each]. unfold bind, FS.remove.
  by destruct (FS.isfile fs (Path.join d n)).
Qed.



Lemma integrity_checks_eq (data : Data.t) (temp_dir merged_file : string)
    (w : world) :
  integrity_checks data temp_dir merged_file w
  = if is_gzip_file (Data.filename data) && negb (gzip_ok (fs w) merged_file)
    then
      if gzip_rejected (fs w) merged_file then
        match remove_from_uploads temp_dir (fs w) with
        | Ret _ fs' =>
            match update_file_status (Data.identifier data) "corrupt" (set_fs fs' w) with
            | Ret _ w' => Ret (return_message "Error: Truncated GZIP file" 415) w'
            | Raise e w' => Raise e w'
            end
        | Raise e fs' => Raise e (set_fs fs' w)
        end
      else Raise ZlibError w
    else
      match getsize merged_file (fs w) with
      | Ret size _ =>
          if negb (size =? Data.total_size data) then
            match FS.remove merged_file (fs w) with
            | Ret _ fs' =>
                Ret (return_message "Error: Inconsistent merged file size" 415)
                    (set_fs fs' w)
            | Raise e fs' => Raise e (set_fs fs' w)
            end
          else
            match update_file_status (Data.identifier data) "complete" w with
            | Ret _ w' =>
                Ret (return_message "Success: File upload completed successfully" 200) w'
            | Raise e w' => Raise e w'
            end
      | Raise e _ => Raise e w
      end.
Proof.
  unfold integrity_checks. unfold bind at 1.
  assert (Hsize :
    (do size <- on_fs (getsize merged_file);
     if negb (size =? Data.total_size data)
     then run on_fs (FS.remove merged_file);
          ret (return_message "Error: Inconsistent merged file size" 415)
     else run update_file_status (Data.identifier data) "complete";
          ret (return_message "Success: File upload completed successfully" 200)) w
    = match getsize merged_file (fs w) with
      | Ret size _ =>
          if negb (size =? Data.total_size data) then
            match FS.remove merged_file (fs w) with
            | Ret _ fs' =>
                Ret (return_message "Error: Inconsistent merged file size" 415)
                    (set_fs fs' w)
            | Raise e fs' => Raise e (set_fs fs' w)
            end
          else
            match update_file_status (Data.identifier data) "complete" w with
            | Ret _ w' =>
                Ret (return_message "Success: File upload completed successfully" 200) w'
            | Raise e w' => Raise e w'
            end
      | Raise e _ => Raise e w
      end).
  { unfold bind at 1. unfold on_fs at 1. unfold getsize.
    destruct (fs w !! merged_file) as [[c|]|]; rewrite ?set_fs_same; [| |done].
    - destruct (negb (_ =? _)).
      + unfold bind, on_fs. by destruct (FS.remove merged_file (fs w)).
      + unfold bind. by destruct (update_file_status _ _ w).
    - destruct (negb (_ =? _)).
      + unfold bind, on_fs. by destruct (FS.remove merged_file (fs w)).
      + unfold bind. by destruct (update_file_status _ _ w). }
  destruct (is_gzip_file (Data.filename data)); cbn [andb].
  - unfold bind at 1. unfold on_fs at 1. rewrite gzip_test_eq.
    destruct (gzip_ok (fs w) merged_file); cbn [negb];
      [rewrite set_fs_same; unfold ret at 1; exact Hsize|].
    destruct (gzip_rejected (fs w) merged_file);
      rewrite set_fs_same; [|done].
    unfold ret at 1. cbn [negb].
    unfold bind at 1. unfold on_fs.
    destruct (remove_from_uploads temp_dir (fs w)) as [[] fs'|e fs']; [|done].
    unfold bind. by destruct (update_file_status _ _ (set_fs fs' w)).
  - unfold ret at 1. exact Hsize.
Qed.

End FinalizeLemmas.

(* ===================================================================== *)
(** * Directory listings and the cleanup of an upload directory *)
(* ===================================================================== *)

Section DirLemmas.

Lemma ascii_eqb_true (a b : ascii) : Ascii.eqb a b = true -> a = b.
Proof. apply Ascii.eqb_eq. Qed.

Lemma strip_prefix_Some (p s n : string) :
  Str.strip_prefix p s = Some n -> s = p +:+ n.
Proof.
  revert s. induction p as [|a p IH]; intros s Hs.
  - cbn in Hs. by injection Hs as ->.
  - destruct s as [|b s]; [done|]. cbn in Hs.
    destruct (Ascii.eqb a b) eqn:E; [|done].
    apply ascii_eqb_true in E as ->.
    rewrite string_app_cons. f_equal. by apply IH.
Qed.

Lemma strip_prefix_app (p n : string) : Str.strip_prefix p (p +:+ n) = Some n.
Proof.
  induction p as [|a p IH]; [done|].
  rewrite string_app_cons. cbn. by rewrite Ascii.eqb_refl.
Qed.

Lemma startswith_refl (s : string) : Str.startswith s s = true.
Proof. induction s as [|c s IH]; [done|]. cbn. by rewrite Ascii.eqb_refl. Qed.

Lemma startswith_app (p s t : string) :
  Str.startswith p s = true -> Str.startswith p (s +:+ t) = true.
Proof.
  revert s. induction p as [|a p IH]; intros s Hs; [done|].
  destruct s as [|b s]; [done|]. rewrite string_app_cons. cbn in *.
  destruct (Ascii.eqb a b); [by apply IH|done].
Qed.

Lemma no_slash_relative (n : string) :
  Str.contains Path.sep n = false -> Str.startswith "/" n = false.
Proof.
  destruct n as [|a n]; [done|]. cbn [Str.contains Str.startswith].
  intros Hc. apply orb_false_elim in Hc as [E _].
  rewrite Ascii.eqb_sym. unfold Path.sep in E. by rewrite E.
Qed.

(** An entry name determines the path of the entry. *)
Lemma entry_name_Some (d p n : string) :
  FS.entry_name d p = Some n ->
  p = Path.join d n /\ n ≠ "" /\ Str.contains Path.sep n = false.
Proof.
  unfold FS.entry_name.
  destruct (Str.strip_prefix (Path.join d "") p) as [m|] eqn:E; [|done].
  destruct (String.eqb m "") eqn:E1; [done|].
  destruct (Str.contains Path.sep m) eqn:E2; [done|].
  cbn. intros [= ->]. split_and!; [|by apply String.eqb_neq|done].
  apply strip_prefix_Some in E.
  by rewrite join_relative by by apply no_slash_relative.
Qed.

Lemma entry_name_join (d n : string) :
  n ≠ "" -> Str.contains Path.sep n = false ->
  FS.entry_name d (Path.join d n) = Some n.
Proof.
  intros Hn Hs. unfold FS.entry_name.
  rewrite (join_relative d n) by by apply no_slash_relative.
  rewrite strip_prefix_app.
  apply String.eqb_neq in Hn. by rewrite Hn, Hs.
Qed.

Lemma elem_of_entries (fs : gmap string node) (d n : string) :
  n ∈ FS.entries fs d <->
  is_Some (fs !! Path.join d n) /\ n ≠ "" /\ Str.contains Path.sep n = false.
Proof.
  unfold FS.entries. rewrite list_elem_of_omap. split.
  - intros (p & Hp & Hn). apply entry_name_Some in Hn as (-> & Hne & Hs).
    apply list_elem_of_fmap in Hp as ([q x] & Hq & Hin). cbn in Hq. subst q.
    apply elem_of_map_to_list in Hin. split_and!; eauto.
  - intros ([x Hx] & Hne & Hs). exists (Path.join d n). split.
    + apply list_elem_of_fmap. exists (Path.join d n, x). split; [done|].
      by apply elem_of_map_to_list.
    + by apply entry_name_join.
Qed.

Lemma join_inj (d n m : string) :
  Str.contains Path.sep n = false -> Str.contains Path.sep m = false ->
  Path.join d n = Path.join d m -> n = m.
Proof.
  intros Hn Hm.
  rewrite (join_relative d n), (join_relative d m) by by apply no_slash_relative.
  apply String.app_inj.
Qed.

(** The loop of [remove_from_uploads] over entries that are all regular
    files removes each of them and nothing else. *)
Lemma remove_loop_ok (d : string) (names : list string) (fs : gmap string node) :
  NoDup names ->
  (forall n, n ∈ names -> Str.contains Path.sep n = false) ->
  (forall n, n ∈ names -> FS.isfile fs (Path.join d n) = true) ->
  exists fs',
    for_each names (fun chunk => FS.remove (Path.join d chunk)) fs = Ret tt fs' /\
    (forall n, n ∈ names -> fs' !! Path.join d n = None) /\
    (forall p, (forall n, n ∈ names -> p ≠ Path.join d n) -> fs' !! p = fs !! p).
Proof.
  revert fs. induction names as [|n rest IH]; intros fs Hnd Hslash Hfiles.
  { exists fs. split_and!; [done| |done]. intros n Hn. by apply elem_of_nil in Hn. }
  rewrite remove_loop_cons, Hfiles by left.
  apply NoDup_cons in Hnd as [Hnotin Hnd].
  destruct (IH (delete (Path.join d n) fs)) as (fs' & Hrun & Hgone & Hframe).
  - done.
  - intros m Hm. apply Hslash. by right.
  - intros m Hm. unfold FS.isfile. rewrite lookup_delete_ne.
    + apply Hfiles. by right.
    + intros Heq. apply join_inj in Heq; [by subst| |]; apply Hslash; [left|by right].
  - exists fs'. split_and!; [done| |].
    + intros m Hm. apply elem_of_cons in Hm as [->|Hm]; [|by apply Hgone].
      rewrite Hframe; [by rewrite lookup_delete_eq|].
      intros m Hm Heq.
      apply join_inj in Heq; [by subst| |]; apply Hslash; [left|by right].
    + intros p Hp. rewrite Hframe.
      * rewrite lookup_delete_ne; [done|]. intros Heq. by apply (Hp n); [left|].
      * intros m Hm. apply Hp. by right.
Qed.

Lemma NoDup_entries (fs : gmap string node) (d : string) : NoDup (FS.entries fs d).
Proof.
  unfold FS.entries.
  assert (Hkeys : NoDup (map_to_list fs).*1) by apply NoDup_fst_map_to_list.
  induction Hkeys as [|p l Hp Hnd IH]; [constructor|].
  cbn [omap list_omap]. destruct (FS.entry_name d p) as [n|] eqn:E; [|done].
  constructor; [|done].
  intros Hin. apply list_elem_of_omap in Hin as (q & Hq & Hn).
  apply entry_name_Some in E as (-> & _). apply entry_name_Some in Hn as (-> & _).
  done.
Qed.

(** A check, by evaluation, that a directory holds regular files only. *)
Lemma entries_all_files (fs : gmap string node) (d : string) :
  forallb (fun n => FS.isfile fs (Path.join d n)) (FS.entries fs d) = true ->
  forall n, n ∈ FS.entries fs d -> FS.isfile fs (Path.join d n) = true.
Proof.
  intros Hall n Hn. apply list_elem_of_In in Hn.
  by apply (proj1 (forallb_forall _ _) Hall).
Qed.

End DirLemmas.

Section CleanupLemmas.
Context `{Env}.

(** The cleanup of a directory that holds regular files only removes every
    entry and the directory, and touches nothing else. *)
Lemma remove_from_uploads_all (d : string) (fs : gmap string node) :
  FS.isdir fs d = true ->
  (forall n, n ∈ FS.entries fs d -> FS.isfile fs (Path.join d n) = true) ->
  exists fs',
    remove_from_uploads d fs = Ret tt fs' /\
    fs' !! d = None /\
    (forall n, n ≠ "" -> Str.contains Path.sep n = false ->
       fs' !! Path.join d n = None) /\
    (forall p, p ≠ d -> FS.entry_name d p = None -> fs' !! p = fs !! p).
Proof.
  intros Hdir Hfiles.
  destruct (remove_loop_ok d (FS.entries fs d) fs) as (fs1 & Hrun & Hgone & Hframe).
  - apply NoDup_entries.
  - intros n Hn. by apply elem_of_entries in Hn as (_ & _ & ?).
  - done.
  - assert (Hd : fs1 !! d = Some Dir).
    { rewrite Hframe.
      - unfold FS.isdir in Hdir. by destruct (fs !! d) as [[|]|].
      - intros n Hn Heq. specialize (Hfiles n Hn). rewrite <- Heq in Hfiles.
        unfold FS.isfile, FS.isdir in *. by destruct (fs !! d) as [[|]|]. }
    assert (Hempty : FS.entries fs1 d = []).
    { apply elem_of_nil_inv. intros n Hn.
      apply elem_of_entries in Hn as ([x Hx] & Hne & Hs).
      destruct (decide (n ∈ FS.entries fs d)) as [Hin|Hout].
      - by rewrite Hgone in Hx.
      - apply Hout. apply elem_of_entries. split_and!; [|done|done].
        exists x. rewrite <- Hframe; [done|].
        intros m Hm Heq. apply join_inj in Heq; [by subst|done|].
        by apply elem_of_entries in Hm as (_ & _ & ?). }
    exists (delete d fs1). split_and!.
    + unfold remove_from_uploads, try_except. unfold bind at 1.
      unfold FS.listdir. rewrite Hdir. unfold bind at 1. rewrite Hrun.
      unfold FS.rmdir, FS.isdir. rewrite Hd, Hempty. done.
    + by rewrite lookup_delete_eq.
    + intros n Hn Hs. destruct (decide (Path.join d n = d)) as [->|Hne].
      * by rewrite lookup_delete_eq.
      * rewrite lookup_delete_ne by done.
        destruct (decide (n ∈ FS.entries fs d)) as [Hin|Hout]; [by apply Hgone|].
        rewrite Hframe.
        -- destruct (fs !! Path.join d n) as [x|] eqn:E; [|done].
           exfalso. apply Hout. apply elem_of_entries. by split_and!; [exists x| |].
        -- intros m Hm Heq. apply join_inj in Heq; [by subst|done|].
           by apply elem_of_entries in Hm as (_ & _ & ?).
    + intros p Hp Hnone. rewrite lookup_delete_ne by done. apply Hframe.
      intros n Hn ->.
      apply elem_of_entries in Hn as (_ & Hne & Hs).
      by rewrite entry_name_join in Hnone.
Qed.

(** The loop of the cleanup, however it ends, removes entries of the
    directory only; it ends by returning only where every name is that of a
    regular file. *)
Lemma remove_loop_frame (d : string) (names : list string)
    (fs : gmap string node) :
  exists fs',
    (for_each names (fun chunk => FS.remove (Path.join d chunk)) fs = Ret tt fs' /\
     (forall n, n ∈ names -> FS.isfile fs (Path.join d n) = true) \/
     for_each names (fun chunk => FS.remove (Path.join d chunk)) fs = Raise OSError fs') /\
    (forall p, fs' !! p = fs !! p \/
               (fs' !! p = None /\ FS.isfile fs p = true /\
                exists n, n ∈ names /\ p = Path.join d n)) /\
    (forall p, FS.isdir fs p = true -> fs' !! p = fs !! p).
Proof.
  revert fs. induction names as [|n rest IH]; intros fs.
  { exists fs. split_and!; [left; split; [done|]|by left|done].
    intros n Hn. by apply elem_of_nil in Hn. }
  rewrite remove_loop_cons.
  destruct (FS.isfile fs (Path.join d n)) eqn:Hfile.
  - destruct (IH (delete (Path.join d n) fs)) as (fs' & Hrun & Hframe & Hdirs).
    assert (Hback : forall p, FS.isfile (delete (Path.join d n) fs) p = true ->
                      FS.isfile fs p = true).
    { intros p. unfold FS.isfile.
      destruct (decide (p = Path.join d n)) as [->|Hne].
      - by rewrite lookup_delete_eq.
      - by rewrite lookup_delete_ne. }
    exists fs'. split_and!.
    + destruct Hrun as [[Hrun Hall]|Hrun]; [left|by right].
      split; [done|]. intros m Hm.
      apply elem_of_cons in Hm as [->|Hm]; [done|]. by apply Hback, Hall.
    + intros p. destruct (Hframe p) as [Heq|(Hnone & Hf & m & Hm & ->)].
      * destruct (decide (p = Path.join d n)) as [->|Hne].
        -- right. rewrite Heq, lookup_delete_eq. split_and!; [done|done|].
           exists n. split; [left|done].
        -- left. by rewrite Heq, lookup_delete_ne.
      * right. split_and!; [done|by apply Hback|].
        exists m. split; [by right|done].
    + intros p Hp. rewrite Hdirs.
      * rewrite lookup_delete_ne; [done|]. intros <-.
        unfold FS.isfile, FS.isdir in *. by destruct (fs !! Path.join d n) as [[|]|].
      * unfold FS.isdir in *. rewrite lookup_delete_ne; [done|]. intros <-.
        unfold FS.isfile in Hfile. by destruct (fs !! Path.join d n) as [[|]|].
  - exists fs. split_and!; [by right|by left|done].
Qed.

(** The cleanup never raises; it deletes regular files that are entries of
    the directory, and the directory, and nothing else; and it leaves the
    directory where one of its entries is not a regular file. *)
Lemma remove_from_uploads_best_effort (d : string) (fs : gmap string node) :
  exists fs' : gmap string node,
    remove_from_uploads d fs = Ret tt fs' /\
    (forall p, p ≠ d ->
       (forall n, n ∈ FS.entries fs d -> p ≠ Path.join d n) ->
       fs' !! p = fs !! p) /\
    (forall p, p ≠ d -> FS.isfile fs p = false -> fs' !! p = fs !! p) /\
    (forall p x, fs' !! p = Some x -> fs !! p = Some x) /\
    ((exists n, n ∈ FS.entries fs d /\ FS.isfile fs (Path.join d n) = false) ->
     fs' !! d = fs !! d).
Proof.
  unfold remove_from_uploads, try_except. unfold bind at 1. unfold FS.listdir.
  destruct (FS.isdir fs d) eqn:Hdir; [|exists fs; cbn; by split_and!].
  unfold bind at 1.
  destruct (remove_loop_frame d (FS.entries fs d) fs)
    as (fs1 & Hrun & Hframe & Hdirs).
  assert (Hsub : forall p x, fs1 !! p = Some x -> fs !! p = Some x).
  { intros p x Hp. destruct (Hframe p) as [Heq|[Hnone _]]; congruence. }
  assert (Hout : forall p,
            (forall n, n ∈ FS.entries fs d -> p ≠ Path.join d n) ->
            fs1 !! p = fs !! p).
  { intros p Hp. destruct (Hframe p) as [Heq|(_ & _ & n & Hn & ->)]; [done|].
    by destruct (Hp n Hn). }
  assert (Hnonfile : forall p, FS.isfile fs p = false -> fs1 !! p = fs !! p).
  { intros p Hp. destruct (Hframe p) as [Heq|(_ & Hf & _)]; [done|congruence]. }
  destruct Hrun as [[Hrun Hall]|Hrun]; rewrite Hrun.
  - assert (Hno : (exists n, n ∈ FS.entries fs d /\
                             FS.isfile fs (Path.join d n) = false) -> False).
    { intros (n & Hn & Hf). by rewrite Hall in Hf. }
    unfold FS.rmdir.
    destruct (FS.isdir fs1 d && bool_decide (FS.entries fs1 d = [])).
    + exists (delete d fs1). cbn. split_and!; [done| | | |by intros ?%Hno].
      * intros p Hne Hp. rewrite lookup_delete_ne by done. by apply Hout.
      * intros p Hne Hp. rewrite lookup_delete_ne by done. by apply Hnonfile.
      * intros p x Hp. apply Hsub.
        destruct (decide (p = d)) as [->|Hne].
        -- by rewrite lookup_delete_eq in Hp.
        -- by rewrite lookup_delete_ne in Hp.
    + exists fs1. cbn. split_and!; [done| | |done|by intros ?%Hno].
      * intros p _ Hp. by apply Hout.
      * intros p _ Hp. by apply Hnonfile.
  - exists fs1. cbn. split_and!; [done| | |done|].
    + intros p _ Hp. by apply Hout.
    + intros p _ Hp. by apply Hnonfile.
    + intros _. by apply Hdirs.
Qed.

End CleanupLemmas.

(* ===================================================================== *)
(** * The state the checks run in *)
(* ===================================================================== *)

Section CheckLemmas.
Context `{Env}.

Lemma merge_chunks_nil (filename : string) (fs : gmap string node) :
  merge_chunks [] filename fs = Raise IndexError fs.
Proof. reflexivity. Qed.

Lemma generate_file_checked (data : Data.t) (w w1 : world) :
  checked_state data w = Some w1 ->
  generate_file data w
  = integrity_checks data (upload_dir data) (merged_path data) w1.
Proof.
  unfold checked_state. rewrite generate_file_eq.
  destruct (FS.isfile (fs w) (merged_path data)); [by intros [= ->]|].
  destruct (merge_chunks _ _ (fs w)) as [[|] fs'|e fs']; [|done..].
  by intros [= <-].
Qed.

(** Reaching the checks deletes nothing and leaves the database alone. *)
Lemma checked_state_keeps (data : Data.t) (w w1 : world) :
  checked_state data w = Some w1 ->
  db w1 = db w /\ now w1 = now w /\
  (forall p, FS.isfile (fs w) p = true -> FS.isfile (fs w1) p = true) /\
  (forall p, FS.isdir (fs w) p = true -> FS.isdir (fs w1) p = true).
Proof.
  unfold checked_state.
  destruct (FS.isfile (fs w) (merged_path data)); [by intros [= ->]|].
  destruct (get_file_chunks (fs w) (upload_dir data)) as [|c cs] eqn:Hchunks.
  { by rewrite merge_chunks_nil. }
  destruct (sort_paths_cons (c :: cs) ltac:(done)) as (p0 & rest & Hsort).
  destruct (merge_chunks_total (c :: cs) (Data.filename data) (fs w) p0 rest Hsort)
    as (success & fs' & Hrun & Hframe & _ & Hok).
  rewrite Hrun. destruct success; [|done]. intros [= <-].
  destruct (Hok eq_refl) as [Hfile Hnodir]. split_and!; [done|done| |].
  - intros p Hp. cbn [fs set_fs].
    destruct (decide (p = output_path p0 (Data.filename data))) as [->|Hne]; [done|].
    unfold FS.isfile in *. by rewrite Hframe.
  - intros p Hp. cbn [fs set_fs].
    destruct (decide (p = output_path p0 (Data.filename data))) as [->|Hne].
    + by rewrite Hp in Hnodir.
    + unfold FS.isdir in *. by rewrite Hframe.
Qed.


End CheckLemmas.

(* ===================================================================== *)
(** * What [generate_file] owes to the database *)
(* ===================================================================== *)

Section DatabaseIndependence.
Context `{Env}.

Lemma status_step_visible (identifier status : string) (r : response)
    (w v : world) :
  fs w = fs v ->
  visible (match update_file_status identifier status w with
           | Ret _ w' => Ret r w'
           | Raise e w' => Raise e w'
           end)
  = visible (match update_file_status identifier status v with
             | Ret _ w' => Ret r w'
             | Raise e w' => Raise e w'
             end).
Proof.
  intros Hfs.
  destruct (update_file_status_total identifier status w) as (w' & -> & Hw & _).
  destruct (update_file_status_total identifier status v) as (v' & -> & Hv & _).
  unfold visible. cbn. by rewrite Hw, Hv, Hfs.
Qed.

Lemma status_step_db (identifier status : string) (r : response) (w : world) :
  file_row (db w) identifier = None ->
  db (final_state (match update_file_status identifier status w with
                   | Ret _ w' => Ret r w'
                   | Raise e w' => Raise e w'
                   end)) = db w.
Proof. intros Hrow. by rewrite update_file_status_missing. Qed.

(** The response of the checks and what they do to the disk do not
    depend on the database. *)
Lemma integrity_checks_visible (data : Data.t) (temp_dir merged_file : string)
    (w v : world) :
  fs w = fs v ->
  visible (integrity_checks data temp_dir merged_file w)
  = visible (integrity_checks data temp_dir merged_file v).
Proof.
  intros Hfs. rewrite !integrity_checks_eq, Hfs.
  destruct (is_gzip_file (Data.filename data) && negb _).
  - destruct (gzip_rejected (fs v) merged_file);
      [|unfold visible; cbn; by rewrite Hfs].
    destruct (remove_from_uploads temp_dir (fs v)) as [[] fs'|e fs']; [|done].
    by apply status_step_visible.
  - destruct (getsize merged_file (fs v)) as [size ?|e ?].
    + destruct (negb (_ =? _)).
      * by destruct (FS.remove merged_file (fs v)).
      * by apply status_step_visible.
    + unfold visible. cbn. by rewrite Hfs.
Qed.

Lemma integrity_checks_db (data : Data.t) (temp_dir merged_file : string)
    (w : world) :
  file_row (db w) (Data.identifier data) = None ->
  db (final_state (integrity_checks data temp_dir merged_file w)) = db w.
Proof.
  intros Hrow. rewrite integrity_checks_eq.
  destruct (is_gzip_file (Data.filename data) && negb _).
  - destruct (gzip_rejected (fs w) merged_file); [|done].
    destruct (remove_from_uploads temp_dir (fs w)) as [[] fs'|e fs']; [|done].
    by rewrite status_step_db.
  - destruct (getsize merged_file (fs w)) as [size ?|e ?]; [|done].
    destruct (negb (_ =? _)).
    + by destruct (FS.remove merged_file (fs w)).
    + by rewrite status_step_db.
Qed.

Lemma generate_file_visible (data : Data.t) (w v : world) :
  fs w = fs v ->
  visible (generate_file data w) = visible (generate_file data v).
Proof.
  intros Hfs. rewrite !generate_file_eq, Hfs.
  destruct (FS.isfile (fs v) (merged_path data)).
  - by apply integrity_checks_visible.
  - destruct (merge_chunks _ _ (fs v)) as [[|] fs'|e fs'].
    + by apply integrity_checks_visible.
    + by apply status_step_visible.
    + done.
Qed.

Lemma generate_file_db (data : Data.t) (w : world) :
  file_row (db w) (Data.identifier data) = None ->
  db (final_state (generate_file data w)) = db w.
Proof.
  intros Hrow. rewrite generate_file_eq.
  destruct (FS.isfile (fs w) (merged_path data)).
  - by apply integrity_checks_db.
  - destruct (merge_chunks _ _ (fs w)) as [[|] fs'|e fs'].
    + by rewrite integrity_checks_db.
    + by rewrite status_step_db.
    + done.
Qed.

Lemma digit_char_not_sep (d : Z) :
  0 <= d < 10 -> Ascii.eqb (digit_char d) Path.sep = false.
Proof.
  intros Hd.
  assert (d = 0 \/ d = 1 \/ d = 2 \/ d = 3 \/ d = 4 \/ d = 5 \/ d = 6 \/
          d = 7 \/ d = 8 \/ d = 9) as Hcases by lia.
  repeat (destruct Hcases as [->|Hcases]; [reflexivity|]). by subst.
Qed.

Lemma digits_w_no_sep (w : nat) (n : Z) :
  Str.contains Path.sep (digits_w w n) = false.
Proof.
  induction w as [|w IH]; [done|].
  cbn [digits_w Str.contains]. rewrite IH, digit_char_not_sep; [done|].
  apply Z.mod_pos_bound. lia.
Qed.

Lemma contains_app (c : ascii) (s t : string) :
  Str.contains c (s +:+ t) = Str.contains c s || Str.contains c t.
Proof.
  induction s as [|a s IH]; [done|].
  rewrite string_app_cons. cbn [Str.contains]. by rewrite IH, orb_assoc.
Qed.

Lemma chunk_name_no_sep (i : Z) :
  Str.contains Path.sep (CHUNK_PREFIX +:+ format_08d i) = false.
Proof.
  rewrite contains_app. unfold format_08d.
  destruct (i <? 0); cbn [Str.contains]; by rewrite digits_w_no_sep.
Qed.

End DatabaseIndependence.

(* ===================================================================== *)
(** * The listing of the chunks *)
(* ===================================================================== *)

Section SplitLemmas.

Lemma rfind_from_absent (c : ascii) (s : string) (i last : Z) :
  Str.contains c s = false -> Str.rfind_from c s i last = last.
Proof.
  revert i last. induction s as [|a s IH]; intros i last Hs; [done|].
  cbn [Str.contains] in Hs. apply orb_false_elim in Hs as [Ha Hs].
  cbn [Str.rfind_from]. rewrite Ha. by apply IH.
Qed.

Lemma rfind_from_last (c : ascii) (s t : string) (i last : Z) :
  Str.contains c t = false ->
  Str.rfind_from c (s +:+ String c t) i last = i + Z.of_nat (String.length s).
Proof.
  intros Ht. revert i last. induction s as [|a s IH]; intros i last.
  - cbn [String.length]. change ("" +:+ String c t) with (String c t).
    cbn [Str.rfind_from]. rewrite Ascii.eqb_refl.
    rewrite rfind_from_absent by done. lia.
  - rewrite string_app_cons. cbn [Str.rfind_from String.length].
    rewrite IH. lia.
Qed.

Lemma str_take_app (s t : string) : Str.take (String.length s) (s +:+ t) = s.
Proof.
  induction s as [|a s IH]; [by destruct t|].
  rewrite string_app_cons. cbn [String.length Str.take]. by rewrite IH.
Qed.

Lemma str_drop_app (s t : string) : Str.drop (String.length s) (s +:+ t) = t.
Proof.
  induction s as [|a s IH]; [by destruct t|].
  rewrite string_app_cons. cbn [String.length Str.drop]. by rewrite IH.
Qed.

Lemma string_length_app (s t : string) :
  String.length (s +:+ t) = (String.length s + String.length t)%nat.
Proof.
  induction s as [|a s IH]; [done|].
  rewrite string_app_cons. cbn [String.length]. by rewrite IH.
Qed.

Lemma rstrip_app_sep (s : string) :
  Str.rstrip Path.sep (s +:+ "/") = Str.rstrip Path.sep s.
Proof.
  induction s as [|a s IH]; [done|].
  rewrite string_app_cons. cbn [Str.rstrip]. by rewrite IH.
Qed.

Lemma rstrip_plain (s : string) :
  Str.endswith_char Path.sep s = false -> Str.rstrip Path.sep s = s.
Proof.
  induction s as [|a s IH]; [done|].
  cbn [Str.endswith_char Str.rstrip]. destruct s as [|b s].
  - intros Ha. cbn. by rewrite Ha.
  - intros Hs. rewrite IH by done. done.
Qed.

Lemma repeat_sep_ends (s : string) (n : nat) :
  s ≠ "" -> s = Str.repeat Path.sep n -> Str.endswith_char Path.sep s = true.
Proof.
  revert n. induction s as [|a s IH]; intros n Hne Heq; [done|].
  destruct n as [|n]; [done|]. cbn [Str.repeat] in Heq. injection Heq as -> Hs.
  cbn [Str.endswith_char]. destruct s as [|b s]; [done|].
  by apply (IH n).
Qed.

Lemma endswith_app_sep (s : string) : Str.endswith_char Path.sep (s +:+ "/") = true.
Proof.
  induction s as [|a s IH]; [done|].
  rewrite string_app_cons. cbn [Str.endswith_char].
  destruct (s +:+ "/") eqn:E; [by destruct s|done].
Qed.

(** [split] undoes [join] on a plain directory and a name without a
    separator. *)
Lemma split_join (d n : string) :
  d ≠ "" -> Str.endswith_char Path.sep d = false ->
  Str.contains Path.sep n = false ->
  Path.split (Path.join d n) = (d, n).
Proof.
  intros Hd Hend Hn.
  assert (Hjoin : Path.join d n = (d +:+ "/") +:+ n).
  { unfold Path.join. rewrite (no_slash_relative n Hn).
    apply String.eqb_neq in Hd. rewrite Hd, Hend. cbn [orb].
    by rewrite string_app_assoc. }
  rewrite Hjoin. unfold Path.split.
  assert (Hfind : Str.rfind Path.sep ((d +:+ "/") +:+ n) + 1
                  = Z.of_nat (String.length (d +:+ "/"))).
  { unfold Str.rfind. rewrite string_app_assoc.
    change ("/" +:+ n) with (String Path.sep n).
    rewrite rfind_from_last by done.
    rewrite string_length_app. cbn [String.length]. lia. }
  rewrite Hfind, Nat2Z.id, str_take_app, str_drop_app.
  assert (String.eqb (d +:+ "/") "" = false) as ->.
  { apply String.eqb_neq. by destruct d. }
  assert (String.eqb (d +:+ "/") (Str.repeat Path.sep (String.length (d +:+ "/")))
          = false) as ->.
  { apply String.eqb_neq. intros Heq.
    assert (Hall : exists m, d = Str.repeat Path.sep m).
    { revert Heq. generalize (String.length (d +:+ "/")). clear.
      induction d as [|a d IH]; intros m Heq; [by exists 0%nat|].
      rewrite string_app_cons in Heq. destruct m as [|m]; [done|].
      cbn [Str.repeat] in Heq. injection Heq as -> Heq.
      destruct (IH m Heq) as [k ->]. by exists (S k). }
    destruct Hall as [m Hm].
    rewrite (repeat_sep_ends d m Hd Hm) in Hend. done. }
  cbn [negb andb]. by rewrite rstrip_app_sep, rstrip_plain.
Qed.

Lemma fnmatch_literal (c : ascii) (pat name : string) :
  Ascii.eqb c "*" = false -> Ascii.eqb c "?" = false ->
  Glob.fnmatch (String c pat) name
  = match name with
    | EmptyString => false
    | String a name' => Ascii.eqb a c && Glob.fnmatch pat name'
    end.
Proof. intros H1 H2. cbn [Glob.fnmatch]. by rewrite H1, H2. Qed.

Lemma fnmatch_star (pat name : string) :
  Glob.fnmatch (String "*" pat) name
  = Glob.fnmatch pat name ||
    match name with
    | EmptyString => false
    | String _ name' => Glob.fnmatch (String "*" pat) name'
    end.
Proof. by destruct name. Qed.

Lemma fnmatch_star_any (name : string) : Glob.fnmatch "*" name = true.
Proof.
  induction name as [|a name IH]; [done|].
  rewrite fnmatch_star, IH. apply orb_true_r.
Qed.

(** The pattern of the chunks matches the names that start with the
    prefix. *)
Lemma fnmatch_chunk_pattern (name : string) :
  Glob.fnmatch (CHUNK_PREFIX +:+ "*") name = Str.startswith CHUNK_PREFIX name.
Proof.
  change (CHUNK_PREFIX +:+ "*") with "chunk.*". unfold CHUNK_PREFIX.
  repeat (rewrite fnmatch_literal by done;
          destruct name as [|? name]; [done|];
          cbn [Str.startswith]; rewrite Ascii.eqb_sym;
          match goal with |- context [Ascii.eqb ?x ?y] =>
            destruct (Ascii.eqb x y); [cbn [andb]|done] end).
  apply fnmatch_star_any.
Qed.

End SplitLemmas.

Section ChunkListing.
Context `{Env}.

Lemma plain_dir_facts (d : string) :
  plain_dir d = true ->
  d ≠ "" /\ Str.endswith_char Path.sep d = false /\ Glob.has_magic d = false.
Proof.
  unfold plain_dir. intros Hd.
  apply andb_prop in Hd as [Hd Hmagic]. apply andb_prop in Hd as [Hne Hend].
  split_and!.
  - apply String.eqb_neq. by destruct (String.eqb d "").
  - by destruct (Str.endswith_char Path.sep d).
  - by destruct (Glob.has_magic d).
Qed.

Lemma chunk_filter (names : list string) :
  List.filter (Glob.fnmatch (CHUNK_PREFIX +:+ "*"))
    (List.filter (fun x => negb (Str.startswith "." x)) names)
  = List.filter (Str.startswith CHUNK_PREFIX) names.
Proof.
  induction names as [|n names IH]; [done|]. cbn [List.filter].
  destruct (Str.startswith "." n) eqn:Hdot; cbn [negb].
  - rewrite IH.
    assert (Str.startswith CHUNK_PREFIX n = false) as ->; [|done].
    destruct n as [|a n]; [done|]. unfold CHUNK_PREFIX.
    cbn [Str.startswith] in Hdot |- *.
    destruct (Ascii.eqb "." a) eqn:E; [|done].
    apply Ascii.eqb_eq in E. by subst a.
  - cbn [List.filter]. rewrite fnmatch_chunk_pattern, IH. done.
Qed.

(** The chunks of a plain directory, as [glob] finds them. *)
Lemma get_file_chunks_eq (fs : gmap string node) (d : string) :
  plain_dir d = true ->
  get_file_chunks fs d
  = if FS.isdir fs d
    then map (Path.join d) (List.filter (Str.startswith CHUNK_PREFIX) (FS.entries fs d))
    else [].
Proof.
  intros Hplain. destruct (plain_dir_facts d Hplain) as (Hne & Hend & Hmagic).
  unfold get_file_chunks, Glob.glob.
  rewrite split_join by done.
  assert (Glob.has_magic (Path.join d (CHUNK_PREFIX +:+ "*")) = true) as ->.
  { rewrite (join_relative d) by done. unfold Glob.has_magic.
    by rewrite !contains_app, !orb_true_r. }
  cbn [negb]. apply String.eqb_neq in Hne. rewrite Hne, Hmagic, andb_false_r.
  change (Glob.has_magic (CHUNK_PREFIX +:+ "*")) with true. cbv iota.
  cbn [flat_map]. rewrite app_nil_r. unfold Glob.glob1, FS.listdir.
  destruct (FS.isdir fs d); [|done].
  change (Str.startswith "." (CHUNK_PREFIX +:+ "*")) with false. cbn [negb].
  by rewrite chunk_filter.
Qed.

End ChunkListing.

(** The chunks of a plain directory: the entries with the prefix, once
    each. *)
Lemma get_file_chunks_spec `{Env} (fs : gmap string node)
    (temp_dir : string) :
  plain_dir temp_dir = true ->
  (FS.isdir fs temp_dir = false -> get_file_chunks fs temp_dir = []) /\
  (forall p, p ∈ get_file_chunks fs temp_dir <->
     FS.isdir fs temp_dir = true /\
     exists name, p = Path.join temp_dir name /\
                  Str.startswith CHUNK_PREFIX name = true /\
                  Str.contains Path.sep name = false /\
                  is_Some (fs !! p)) /\
  NoDup (get_file_chunks fs temp_dir) /\
  (forall i, FS.isdir fs temp_dir = true ->
     is_Some (fs !! get_chunk_filename temp_dir i) ->
     get_chunk_filename temp_dir i ∈ get_file_chunks fs temp_dir).
Proof.
  intros Hplain. rewrite get_file_chunks_eq by done.
  assert (Hmem : forall p,
            p ∈ (if FS.isdir fs temp_dir
                 then map (Path.join temp_dir)
                        (List.filter (Str.startswith CHUNK_PREFIX) (FS.entries fs temp_dir))
                 else []) <->
            FS.isdir fs temp_dir = true /\
            exists name, p = Path.join temp_dir name /\
                         Str.startswith CHUNK_PREFIX name = true /\
                         Str.contains Path.sep name = false /\
                         is_Some (fs !! p)).
  { intros p. destruct (FS.isdir fs temp_dir).
    - rewrite list_elem_of_fmap. split.
      + intros (n & -> & Hn). split; [done|].
        apply list_elem_of_In, filter_In in Hn as [Hn Hpre].
        apply list_elem_of_In, elem_of_entries in Hn as (Hsome & _ & Hsep).
        by exists n.
      + intros (_ & n & -> & Hpre & Hsep & Hsome).
        exists n. split; [done|].
        apply list_elem_of_In, filter_In. split; [|done].
        apply list_elem_of_In, elem_of_entries. split_and!; [done| |done].
        by destruct n.
    - split; [by intros ?%elem_of_nil|by intros [? _]]. }
  split_and!.
  - by intros ->.
  - exact Hmem.
  - destruct (FS.isdir fs temp_dir); [|constructor].
    apply NoDup_fmap_2_strong.
    + intros n m Hn Hm Heq.
      apply list_elem_of_In, filter_In in Hn as [Hn _].
      apply list_elem_of_In, filter_In in Hm as [Hm _].
      apply list_elem_of_In, elem_of_entries in Hn as (_ & _ & Hn).
      apply list_elem_of_In, elem_of_entries in Hm as (_ & _ & Hm).
      by apply (join_inj temp_dir).
    + apply NoDup_ListNoDup, List.NoDup_filter, NoDup_ListNoDup, NoDup_entries.
  - intros i Hdir Hsome. apply Hmem. split; [done|].
    exists (CHUNK_PREFIX +:+ format_08d i). split_and!; [done| |apply chunk_name_no_sep|done].
    apply startswith_app, startswith_refl.
Qed.

(* ===================================================================== *)
(** * Finalise requests on canonical paths *)
(* ===================================================================== *)

Section OrdinaryRequests.
Context `{Env}.

Lemma plain_name_facts (n : string) :
  plain_name n = true -> n ≠ "" /\ Str.contains Path.sep n = false.
Proof.
  unfold plain_name. intros Hn.
  repeat (apply andb_prop in Hn as [Hn ?]). split.
  - apply String.eqb_neq. by destruct (String.eqb n "").
  - by destruct (Str.contains Path.sep n).
Qed.

(** The chunks of an ordinary request are entries of the upload directory. *)
Lemma ordinary_chunk (data : Data.t) (w : world) (p : string) :
  ordinary data w ->
  p ∈ get_file_chunks (fs w) (upload_dir data) ->
  realpath p = p /\
  Path.dirname p = upload_dir data /\
  is_Some (fs w !! p) /\
  exists name, p = Path.join (upload_dir data) name /\
               Str.startswith CHUNK_PREFIX name = true /\
               Str.contains Path.sep name = false.
Proof.
  intros (_ & Hplain & _ & _ & Hreal) Hp. split; [by apply Hreal|].
  destruct (plain_dir_facts _ Hplain) as (Hne & Hend & _).
  rewrite get_file_chunks_eq in Hp by done.
  destruct (FS.isdir (fs w) (upload_dir data)); [|by apply elem_of_nil in Hp].
  apply list_elem_of_fmap in Hp as (n & -> & Hn).
  apply list_elem_of_In, filter_In in Hn as [Hn Hpre].
  apply list_elem_of_In, elem_of_entries in Hn as (Hsome & _ & Hsep).
  split_and!; [|done|by exists n].
  unfold Path.dirname. by rewrite split_join.
Qed.

(** The merge of an ordinary request writes to the path of the merged
    file. *)
Lemma merge_output_is_merged_path (data : Data.t) (w : world) (p0 : string)
    (rest : list string) :
  ordinary data w ->
  sort_paths (get_file_chunks (fs w) (upload_dir data)) = p0 :: rest ->
  output_path p0 (Data.filename data) = merged_path data.
Proof.
  intros Hord Hsort.
  assert (Hin : p0 ∈ get_file_chunks (fs w) (upload_dir data)).
  { unfold sort_paths in Hsort.
    rewrite <- (merge_sort_Permutation String.le), Hsort. left. }
  destruct (ordinary_chunk data w p0 Hord Hin) as (Hreal & Hdir & _).
  unfold output_path, merged_path. by rewrite Hreal, Hdir.
Qed.

(** Reaching the checks changes the merged file only. *)
Lemma checked_state_frame (data : Data.t) (w w1 : world) :
  ordinary data w ->
  checked_state data w = Some w1 ->
  forall p, p ≠ merged_path data -> fs w1 !! p = fs w !! p.
Proof.
  intros Hord. unfold checked_state.
  destruct (FS.isfile (fs w) (merged_path data)); [by intros [= ->]|].
  destruct (get_file_chunks (fs w) (upload_dir data)) as [|c cs] eqn:Hchunks.
  { by rewrite merge_chunks_nil. }
  destruct (sort_paths_cons (c :: cs) ltac:(done)) as (p0 & rest & Hsort).
  destruct (merge_chunks_total (c :: cs) (Data.filename data) (fs w) p0 rest Hsort)
    as (success & fs' & Hrun & Hframe & _).
  rewrite Hrun. destruct success; [|done]. intros [= <-] p Hp. cbn [fs set_fs].
  apply Hframe. rewrite <- Hchunks in Hsort.
  by rewrite (merge_output_is_merged_path data w p0 rest Hord Hsort).
Qed.

(** The merged file of an ordinary request is no chunk unless its name has
    the prefix of the chunks. *)
Lemma merged_path_no_chunk (data : Data.t) (w : world) (p : string) :
  ordinary data w ->
  Str.startswith CHUNK_PREFIX (Data.filename data) = false ->
  p ∈ get_file_chunks (fs w) (upload_dir data) ->
  p ≠ merged_path data.
Proof.
  intros Hord Hpre Hp.
  destruct (ordinary_chunk data w p Hord Hp) as (_ & _ & _ & n & -> & Hn & Hsep).
  destruct Hord as (_ & _ & Hname & _).
  destruct (plain_name_facts _ Hname) as [_ Hfsep].
  unfold merged_path. intros Heq%join_inj; [|done..].
  rewrite <- Heq, Hn in Hpre. done.
Qed.

End OrdinaryRequests.

(* ===================================================================== *)
(** * Properties of [merge_chunks] *)
(* ===================================================================== *)

(** C1. For chunk files named by [get_chunk_filename] with the sequence
    numbers [0 .. n-1], [0 < n <= 100,000,000], handed to [merge_chunks] in
    any order, where the paths of the chunks and of the output are canonical
    ([realpath] leaves the first chunk path as it is), the output path is
    free and its directory exists: sorting the names yields them in
    ascending numeric order, and [merge_chunks] returns [True] having
    written, at the output path, the concatenation of the chunks' contents
    in ascending numeric order. *)
Theorem merge_chunks_concatenates `{Env} (fs : gmap string node)
    (temp_dir filename : string) (n : Z) (seqs : list Z)
    (content : Z -> list Byte.byte) :
  0 < n <= 100000000 ->
  seqs ≡ₚ seqZ 0 n ->
  (forall i, 0 <= i < n ->
     fs !! get_chunk_filename temp_dir i = Some (File (content i))) ->
  (forall i, 0 <= i < n -> canonical (get_chunk_filename temp_dir i) = true) ->
  realpath (get_chunk_filename temp_dir 0) = get_chunk_filename temp_dir 0 ->
  let output_file := output_path (get_chunk_filename temp_dir 0) filename in
  canonical output_file = true ->
  fs !! output_file = None ->
  FS.isdir fs (Path.dirname output_file) = true ->
  sort_paths (map (get_chunk_filename temp_dir) seqs)
  = map (get_chunk_filename temp_dir) (seqZ 0 n) /\
  merge_chunks (map (get_chunk_filename temp_dir) seqs) filename fs
  = Ret true (<[output_file := File (concat (map content (seqZ 0 n)))]> fs).
Proof.
  intros Hn Hperm Hfiles _ _ output_file _ Hfree Hdir.
  assert (Hsort := sort_paths_chunks temp_dir n seqs ltac:(lia) Hperm).
  split; [done|].
  assert (Hcons : seqZ 0 n = 0 :: seqZ 1 (Z.pred n)) by (apply seqZ_cons; lia).
  assert (Hin : forall p, p ∈ map (get_chunk_filename temp_dir) seqs ->
                  exists i, 0 <= i < n /\ p = get_chunk_filename temp_dir i).
  { intros p Hp. apply list_elem_of_fmap in Hp as (i & -> & Hi).
    exists i. split; [|done]. rewrite Hperm in Hi. apply elem_of_seqZ in Hi. lia. }
  rewrite Hcons in Hsort. cbn [map] in Hsort.
  rewrite (merge_chunks_ok _ _ _ _ _ Hsort); fold output_file.
  - do 3 f_equal. rewrite Hcons.
    change (get_chunk_filename temp_dir 0 :: map (get_chunk_filename temp_dir) (seqZ 1 (Z.pred n)))
      with (map (get_chunk_filename temp_dir) (0 :: seqZ 1 (Z.pred n))).
    rewrite <- Hcons, map_map. f_equal. apply map_ext_in. intros i Hi.
    apply list_elem_of_In, elem_of_seqZ in Hi.
    unfold file_content. by rewrite Hfiles by lia.
  - unfold can_create, FS.isdir at 1. by rewrite Hfree, Hdir.
  - intros Hp. apply Hin in Hp as (i & Hi & Hp).
    rewrite Hp, Hfiles in Hfree by done. discriminate.
  - intros p Hp. apply Hin in Hp as (i & Hi & ->).
    unfold FS.isfile. by rewrite Hfiles.
Qed.

Lemma merge_chunks_concatenates_witness :
  @merge_chunks example_env
    ["/uploads/tok/abc/chunk.00000001"; "/uploads/tok/abc/chunk.00000000"]
    "out.txt" two_chunks
  = Ret true (<["/uploads/tok/abc/out.txt" := File (bytes "HELLOWORLD")]> two_chunks).
Proof.
  refine (proj2 (@merge_chunks_concatenates example_env two_chunks
                   "/uploads/tok/abc" "out.txt" 2 [1; 0] hello_world
                   _ _ _ _ _ _ _ _)).
  - lia.
  - apply perm_swap.
  - intros i Hi. assert (i = 0 \/ i = 1) as [-> | ->] by lia; reflexivity.
  - intros i Hi. assert (i = 0 \/ i = 1) as [-> | ->] by lia; reflexivity.
  - reflexivity.
  - reflexivity.
  - reflexivity.
  - reflexivity.
Defined.

(** C8 (amended). [merge_chunks] on a non-empty list writes in the directory
    of the real path of the first chunk path in lexicographic order, and it
    opens the output for writing, not for exclusive creation: a regular file
    that is already at the output path is truncated and replaced by the
    concatenation of the chunks, and the call returns [True]. *)
Theorem merge_chunks_replaces_existing_output `{Env} (chunk_paths : list string)
    (filename : string) (fs : gmap string node) :
  chunk_paths ≠ [] ->
  exists first_path : string,
    head (sort_paths chunk_paths) = Some first_path /\
    first_path ∈ chunk_paths /\
    (forall p, p ∈ chunk_paths -> String.le first_path p) /\
    let output_file := Path.join (Path.dirname (realpath first_path)) filename in
    forall old : list Byte.byte,
      fs !! output_file = Some (File old) ->
      FS.isdir fs (Path.dirname output_file) = true ->
      output_file ∉ chunk_paths ->
      (forall p, p ∈ chunk_paths -> FS.isfile fs p = true) ->
      merge_chunks chunk_paths filename fs
      = Ret true (<[output_file :=
                      File (concat (map (file_content fs) (sort_paths chunk_paths)))]> fs).
Proof.
  intros Hne. destruct (sort_paths_cons chunk_paths Hne) as (p0 & rest & Hsort).
  assert (Hperm : p0 :: rest ≡ₚ chunk_paths).
  { rewrite <- Hsort. apply merge_sort_Permutation. }
  assert (Hsorted : StronglySorted String.le (p0 :: rest)).
  { rewrite <- Hsort. apply StronglySorted_merge_sort; apply _. }
  exists p0. split_and!.
  - by rewrite Hsort.
  - rewrite <- Hperm. left.
  - intros p Hp. rewrite <- Hperm in Hp.
    apply elem_of_cons in Hp as [->|Hp]; [done|].
    apply StronglySorted_inv in Hsorted as [_ Hall].
    by apply (proj1 (Forall_forall _ _) Hall).
  - intros output_file old Hold Hdir Hout Hfiles.
    rewrite (merge_chunks_ok _ _ _ _ _ Hsort); [by rewrite Hsort| |done|done].
    unfold can_create, FS.isdir at 1.
    change (output_path p0 filename) with output_file. by rewrite Hold, Hdir.
Qed.

Lemma merge_chunks_replaces_existing_output_witness :
  @merge_chunks example_env
    ["/uploads/tok/abc/chunk.00000001"; "/uploads/tok/abc/chunk.00000000"]
    "out.txt" (<["/uploads/tok/abc/out.txt" := File (bytes "OLD")]> two_chunks)
  = Ret true (<["/uploads/tok/abc/out.txt" := File (bytes "HELLOWORLD")]> two_chunks).
Proof.
  destruct (@merge_chunks_replaces_existing_output example_env
              ["/uploads/tok/abc/chunk.00000001"; "/uploads/tok/abc/chunk.00000000"]
              "out.txt"
              (<["/uploads/tok/abc/out.txt" := File (bytes "OLD")]> two_chunks))
    as (p & Hhead & _ & _ & Hrun).
  - discriminate.
  - vm_compute in Hhead. injection Hhead as <-.
    rewrite (Hrun (bytes "OLD")).
    + vm_compute. reflexivity.
    + reflexivity.
    + reflexivity.
    + intros Hin.
      repeat (apply elem_of_cons in Hin as [Heq | Hin];
              [vm_compute in Heq; discriminate Heq|]).
      by apply elem_of_nil in Hin.
    + intros q Hq.
      repeat (apply elem_of_cons in Hq as [-> | Hq]; [reflexivity|]).
      by apply elem_of_nil in Hq.
Defined.

(** C8, as stated, fails: with a file [OLD] already at the output path,
    [merge_chunks] returns [True] and the file holds the merged chunks. *)
Lemma merge_chunks_exclusive_counterexample :
  let before := <["/uploads/tok/abc/out.txt" := File (bytes "OLD")]> two_chunks in
  let after := <["/uploads/tok/abc/out.txt" := File (bytes "HELLOWORLD")]> two_chunks in
  before !! "/uploads/tok/abc/out.txt" = Some (File (bytes "OLD")) /\
  @merge_chunks example_env
    ["/uploads/tok/abc/chunk.00000000"; "/uploads/tok/abc/chunk.00000001"]
    "out.txt" before = Ret true after /\
  after !! "/uploads/tok/abc/out.txt" = Some (File (bytes "HELLOWORLD")).
Proof. split_and!; reflexivity. Qed.

(** C6. An I/O failure in [merge_chunks] on canonical paths (the output
    cannot be opened, or a chunk cannot be read): the call returns [False],
    no regular file is left at the output path, and every other path is as
    before.  A finalise call on canonical paths whose merge reports failure
    returns the response [500] "File could not be merged" and the upload's
    row, when there is one, has the status [unmerged] and the current time
    as its end date. *)
Theorem merge_failure_is_cleaned_up_and_reported `{Env} :
  (forall (chunk_paths : list string) (filename : string)
          (fs : gmap string node) (first_path : string),
     head (sort_paths chunk_paths) = Some first_path ->
     (forall p, p ∈ chunk_paths -> canonical p = true) ->
     realpath first_path = first_path ->
     let output_file := output_path first_path filename in
     canonical output_file = true ->
     can_create fs output_file = false \/
     (exists p, p ∈ chunk_paths /\ p ≠ output_file /\ FS.isfile fs p = false) ->
     exists fs' : gmap string node,
       merge_chunks chunk_paths filename fs = Ret false fs' /\
       FS.isfile fs' output_file = false /\
       (forall p, p ≠ output_file -> fs' !! p = fs !! p)) /\
  (forall (data : Data.t) (w : world) (fs' : gmap string node),
     ordinary data w ->
     FS.isfile (fs w) (merged_path data) = false ->
     merge_chunks (get_file_chunks (fs w) (upload_dir data))
                  (Data.filename data) (fs w) = Ret false fs' ->
     exists w' : world,
       generate_file data w
       = Ret (return_message "Error: File could not be merged" 500) w' /\
       fs w' = fs' /\
       (forall row, file_row (db w) (Data.identifier data) = Some row ->
          file_row (db w') (Data.identifier data)
          = Some (finished "unmerged" (now w) row)) /\
       (file_row (db w) (Data.identifier data) = None -> db w' = db w)).
Proof.
  split.
  - intros chunk_paths filename fs first_path Hhead _ _ output_file _ Hfail.
    destruct (sort_paths chunk_paths) as [|p0 rest] eqn:Hsort; [done|].
    injection Hhead as ->.
    destruct (merge_chunks_io_failure chunk_paths filename fs first_path rest Hsort Hfail)
      as (fs' & Hrun & Hframe & Hclean).
    by exists fs'.
  - intros data w fs' _ Hmissing Hmerge.
    rewrite generate_file_eq, Hmissing, Hmerge.
    destruct (file_row (db w) (Data.identifier data)) as [row|] eqn:Hrow.
    + destruct (update_file_status_found (Data.identifier data) "unmerged"
                  (set_fs fs' w) row Hrow ltac:(done))
        as (w' & Hrun & Hnew & _ & Hfs & _).
      rewrite Hrun. exists w'. split_and!; [done|done| |done].
      intros r [= <-]. exact Hnew.
    + rewrite (update_file_status_missing _ _ (set_fs fs' w) Hrow).
      exists (set_fs fs' w). split_and!; done.
Qed.

Lemma merge_failure_is_cleaned_up_and_reported_witness :
  @merge_chunks example_env
    ["/uploads/tok/abc/chunk.00000001"; "/uploads/tok/abc/chunk.00000000"]
    "out.txt" with_unreadable_chunk
  = Ret false with_unreadable_chunk /\
  exists w' : world,
    @generate_file example_env (Data.mk "tok" "abc" "out.txt" 10)
      (example_world with_unreadable_chunk "out.txt" 10)
    = Ret (return_message "Error: File could not be merged" 500) w' /\
    Models.upload_status <$> file_row (db w') "abc" = Some "unmerged".
Proof.
  destruct (@merge_failure_is_cleaned_up_and_reported example_env)
    as [Hmerge Hfinal].
  split.
  - destruct (Hmerge ["/uploads/tok/abc/chunk.00000001";
                      "/uploads/tok/abc/chunk.00000000"]
                     "out.txt" with_unreadable_chunk
                     "/uploads/tok/abc/chunk.00000000" eq_refl)
      as (fs' & Hrun & _).
    + intros q Hq.
      repeat (apply elem_of_cons in Hq as [-> | Hq]; [reflexivity|]).
      by apply elem_of_nil in Hq.
    + reflexivity.
    + reflexivity.
    + right. exists "/uploads/tok/abc/chunk.00000001".
      split_and!; [left|discriminate|reflexivity].
    + rewrite Hrun. vm_compute in Hrun. by injection Hrun as <-.
  - destruct (Hfinal (Data.mk "tok" "abc" "out.txt" 10)
                     (example_world with_unreadable_chunk "out.txt" 10)
                     with_unreadable_chunk)
      as (w' & Hrun & _ & Hrow & _).
    + by split_and!.
    + reflexivity.
    + vm_compute. reflexivity.
    + exists w'. split; [exact Hrun|].
      pose proof (Hrow (Models.mkFile "abc" "out.txt" 10 "ongoing" 5 None) eq_refl) as Hnew.
      cbn [Data.identifier] in Hnew. rewrite Hnew. reflexivity.
Defined.

(* ===================================================================== *)
(** * Properties of [generate_file] *)
(* ===================================================================== *)



(** C9, the failing case. A finalise call that finds no chunk and no merged
    file does not return a response: the index error of [chunk_paths[0]]
    leaves [generate_file] as an exception. *)
Theorem generate_file_without_chunks_raises `{Env} (data : Data.t) (w : world) :
  get_file_chunks (fs w) (upload_dir data) = [] ->
  FS.isfile (fs w) (merged_path data) = false ->
  generate_file data w = Raise IndexError w.
Proof.
  intros Hchunks Hmissing.
  rewrite generate_file_eq, Hmissing, Hchunks, merge_chunks_nil.
  by rewrite set_fs_same.
Qed.

Lemma generate_file_without_chunks_raises_witness :
  @generate_file example_env (Data.mk "tok" "abc" "out.txt" 10)
    (example_world upload_dirs "out.txt" 10)
  = Raise IndexError (example_world upload_dirs "out.txt" 10).
Proof.
  apply (@generate_file_without_chunks_raises example_env); reflexivity.
Defined.

(** C3 (amended). A finalise call on canonical paths that reaches the checks
    with a merged file whose length differs from [total_size], and whose
    gzip check does not fail (the file name has no gzip extension, or the
    gzip test passes), returns the response [415] "Inconsistent merged file
    size", removes the merged file and nothing else, and leaves the database
    as it was: no directory is deleted, the status is not set, and no chunk
    is deleted, the merged file apart, which is listed with the chunks only
    where the file name starts with [chunk.]. *)
Theorem size_mismatch_removes_merged_file_only `{Env} (data : Data.t)
    (w w1 : world) (content : list Byte.byte) :
  ordinary data w ->
  checked_state data w = Some w1 ->
  fs w1 !! merged_path data = Some (File content) ->
  Z.of_nat (length content) ≠ Data.total_size data ->
  is_gzip_file (Data.filename data) = false \/
  gzip_ok (fs w1) (merged_path data) = true ->
  exists w' : world,
    generate_file data w
    = Ret (return_message "Error: Inconsistent merged file size" 415) w' /\
    fs w' = delete (merged_path data) (fs w) /\
    db w' = db w /\
    (forall p, p ≠ merged_path data -> fs w' !! p = fs w !! p) /\
    (forall p, FS.isdir (fs w) p = true -> FS.isdir (fs w') p = true) /\
    (forall p, p ∈ get_file_chunks (fs w) (upload_dir data) ->
       p ≠ merged_path data -> is_Some (fs w' !! p)) /\
    (Str.startswith CHUNK_PREFIX (Data.filename data) = false ->
     forall p, p ∈ get_file_chunks (fs w) (upload_dir data) ->
       is_Some (fs w' !! p) /\ fs w' !! p = fs w !! p).
Proof.
  intros Hord Hreach Hfile Hsize Hgzip.
  destruct (checked_state_keeps data w w1 Hreach) as (Hdb & _ & _ & Hdirs).
  pose proof (checked_state_frame data w w1 Hord Hreach) as Hframe.
  assert (Hfs : delete (merged_path data) (fs w1) = delete (merged_path data) (fs w)).
  { apply map_eq. intros p. destruct (decide (p = merged_path data)) as [->|Hne].
    - by rewrite !lookup_delete_eq.
    - rewrite !lookup_delete_ne by done. by apply Hframe. }
  assert (Hkept : forall p, p ≠ merged_path data ->
            delete (merged_path data) (fs w) !! p = fs w !! p).
  { intros p Hp. by rewrite lookup_delete_ne. }
  exists (set_fs (delete (merged_path data) (fs w1)) w1). cbn [fs db set_fs].
  rewrite Hfs. split_and!; [|done|done|done| | |].
  - rewrite (generate_file_checked data w w1 Hreach), integrity_checks_eq.
    assert (is_gzip_file (Data.filename data)
            && negb (gzip_ok (fs w1) (merged_path data)) = false) as ->.
    { destruct Hgzip as [-> | ->]; [done|]. by rewrite andb_false_r. }
    unfold getsize. rewrite Hfile.
    assert ((Z.of_nat (length content) =? Data.total_size data) = false) as ->
      by by apply Z.eqb_neq.
    cbn [negb]. unfold FS.remove, FS.isfile. by rewrite Hfile, Hfs.
  - intros p Hp. unfold FS.isdir. rewrite Hkept; [exact Hp|].
    intros ->. apply Hdirs in Hp. unfold FS.isdir in Hp. by rewrite Hfile in Hp.
  - intros p Hp Hne. rewrite Hkept by done.
    by destruct (ordinary_chunk data w p Hord Hp) as (_ & _ & ? & _).
  - intros Hpre p Hp.
    pose proof (merged_path_no_chunk data w p Hord Hpre Hp) as Hne.
    rewrite Hkept by done. split; [|done].
    by destruct (ordinary_chunk data w p Hord Hp) as (_ & _ & ? & _).
Qed.

Lemma size_mismatch_removes_merged_file_only_witness :
  exists w' : world,
    @generate_file example_env (Data.mk "tok" "abc" "out.txt" 11)
      (example_world two_chunks "out.txt" 11)
    = Ret (return_message "Error: Inconsistent merged file size" 415) w' /\
    fs w' = two_chunks.
Proof.
  destruct (@size_mismatch_removes_merged_file_only example_env
              (Data.mk "tok" "abc" "out.txt" 11)
              (example_world two_chunks "out.txt" 11)
              (example_world
                 (<["/uploads/tok/abc/out.txt" := File (bytes "HELLOWORLD")]> two_chunks)
                 "out.txt" 11)
              (bytes "HELLOWORLD"))
    as (w' & Hrun & Hfs & _).
  - by split_and!.
  - reflexivity.
  - reflexivity.
  - cbn. lia.
  - left. reflexivity.
  - exists w'. split; [exact Hrun|].
    rewrite Hfs. reflexivity.
Defined.

(** C3, as stated, fails: the merged file [out.gz] has 10 bytes, the declared
    size is 11, and the call deletes the chunks and the upload directory and
    sets the status [corrupt], because the gzip check comes first. *)
Lemma size_mismatch_counterexample :
  let data := Data.mk "tok" "abc" "out.gz" 11 in
  let w := example_world with_bad_gzip "out.gz" 11 in
  fs w !! "/uploads/tok/abc/out.gz" = Some (File (bytes "HELLOWORLD")) /\
  Z.of_nat (length (bytes "HELLOWORLD")) ≠ Data.total_size data /\
  fs w !! "/uploads/tok/abc/chunk.00000000" = Some (File (bytes "HELLO")) /\
  exists w' : world,
    @generate_file example_env data w
    = Ret (return_message "Error: Truncated GZIP file" 415) w' /\
    fs w' !! "/uploads/tok/abc/chunk.00000000" = None /\
    fs w' !! "/uploads/tok/abc/chunk.00000001" = None /\
    fs w' !! "/uploads/tok/abc" = None /\
    Models.upload_status <$> file_row (db w') "abc" = Some "corrupt".
Proof.
  cbv zeta. split_and!; [reflexivity|cbn; lia|reflexivity|].
  eexists. split; [vm_compute; reflexivity|].
  split_and!; reflexivity.
Qed.

(** C4 (amended). A finalise call on canonical paths, on a file name with a
    gzip extension, that reaches the checks: where the gzip test of the
    merged file fails (the read raises [IOError]), the call returns the
    response [415] "Truncated GZIP file" and the upload's row has the status
    [corrupt].  The cleanup is best effort: it creates and changes nothing,
    it deletes nothing but regular files that are entries of the upload
    directory and that directory, and it leaves the directory where one of
    its entries is not a regular file; where the upload directory holds
    regular files only, no entry of it, so no chunk, and not the directory
    itself is left.  Where the first megabyte of the merged file
    decompresses, the call goes on to the size check and its response is the
    one of that check. *)
Theorem gzip_failure_discards_upload `{Env} (data : Data.t) (w w1 : world) :
  ordinary data w ->
  checked_state data w = Some w1 ->
  is_gzip_file (Data.filename data) = true ->
  (gzip_rejected (fs w1) (merged_path data) = true ->
   exists w' : world,
     generate_file data w
     = Ret (return_message "Error: Truncated GZIP file" 415) w' /\
     (forall row, file_row (db w) (Data.identifier data) = Some row ->
        file_row (db w') (Data.identifier data)
        = Some (finished "corrupt" (now w) row)) /\
     (forall p x, fs w' !! p = Some x -> fs w1 !! p = Some x) /\
     (forall p, p ≠ upload_dir data -> FS.isfile (fs w1) p = false ->
        fs w' !! p = fs w1 !! p) /\
     (forall p, p ≠ upload_dir data ->
        (forall n, n ∈ FS.entries (fs w1) (upload_dir data) ->
           p ≠ Path.join (upload_dir data) n) ->
        fs w' !! p = fs w1 !! p) /\
     ((exists n, n ∈ FS.entries (fs w1) (upload_dir data) /\
                 FS.isfile (fs w1) (Path.join (upload_dir data) n) = false) ->
      fs w' !! upload_dir data = fs w1 !! upload_dir data) /\
     (FS.isdir (fs w1) (upload_dir data) = true ->
      (forall n, n ∈ FS.entries (fs w1) (upload_dir data) ->
         FS.isfile (fs w1) (Path.join (upload_dir data) n) = true) ->
      fs w' !! upload_dir data = None /\
      (forall n, n ≠ "" -> Str.contains Path.sep n = false ->
         fs w' !! Path.join (upload_dir data) n = None) /\
      (forall i, fs w' !! get_chunk_filename (upload_dir data) i = None))) /\
  (forall content decompressed : list Byte.byte,
     fs w1 !! merged_path data = Some (File content) ->
     gzip_read content (1024 * 1024) = GzipData decompressed ->
     exists w' : world,
       generate_file data w
       = Ret (if Z.of_nat (length content) =? Data.total_size data
              then return_message "Success: File upload completed successfully" 200
              else return_message "Error: Inconsistent merged file size" 415) w').
Proof.
  intros _ Hreach Hgz.
  destruct (checked_state_keeps data w w1 Hreach) as (Hdb & Hnow & _ & _).
  rewrite (generate_file_checked data w w1 Hreach). split.
  - intros Hbad. rewrite integrity_checks_eq, Hgz, Hbad.
    rewrite (gzip_rejected_not_ok _ _ Hbad). cbn [andb negb].
    destruct (remove_from_uploads_best_effort (upload_dir data) (fs w1))
      as (fs' & Hclean & Hout & Hnonfile & Hsub & Hstays).
    rewrite Hclean.
    assert (Hstatus : exists w',
              update_file_status (Data.identifier data) "corrupt" (set_fs fs' w1)
              = Ret tt w' /\ fs w' = fs' /\
              forall row, file_row (db w) (Data.identifier data) = Some row ->
                file_row (db w') (Data.identifier data)
                = Some (finished "corrupt" (now w) row)).
    { destruct (file_row (db w) (Data.identifier data)) as [row|] eqn:Hrow.
      - destruct (update_file_status_found (Data.identifier data) "corrupt"
                    (set_fs fs' w1) row) as (w' & Hrun & Hnew & _ & Hfs & _).
        + cbn [db set_fs]. by rewrite Hdb.
        + done.
        + exists w'. split_and!; [done|done|].
          intros r [= <-]. cbn [now set_fs] in Hnew. by rewrite Hnow in Hnew.
      - exists (set_fs fs' w1). split_and!; [|done|done].
        apply update_file_status_missing. cbn [db set_fs]. by rewrite Hdb. }
    destruct Hstatus as (w' & Hrun & Hfs & Hrow). rewrite Hrun.
    exists w'. rewrite Hfs. split_and!; [done|done|done|done|done|done|].
    intros Hdir Hfiles.
    destruct (remove_from_uploads_all (upload_dir data) (fs w1) Hdir Hfiles)
      as (fs2 & Hclean2 & Hgone_dir & Hnone & _).
    rewrite Hclean in Hclean2. injection Hclean2 as <-.
    split_and!; [done|done|].
    intros i. unfold get_chunk_filename. apply Hnone; [by destruct (format_08d i)|].
    apply chunk_name_no_sep.
  - intros content d Hfile Hd.
    rewrite integrity_checks_eq.
    assert (gzip_ok (fs w1) (merged_path data) = true) as ->.
    { unfold gzip_ok, gzip_reads. rewrite Hfile, Hd. done. }
    rewrite andb_false_r. unfold getsize. rewrite Hfile.
    destruct (Z.of_nat (length content) =? Data.total_size data); cbn [negb].
    + destruct (update_file_status_total (Data.identifier data) "complete" w1)
        as (w' & -> & _). by eexists.
    + unfold FS.remove, FS.isfile. rewrite Hfile. by eexists.
Qed.

Lemma gzip_failure_discards_upload_witness :
  (exists w' : world,
     @generate_file example_env (Data.mk "tok" "abc" "out.gz" 10)
       (example_world with_bad_gzip "out.gz" 10)
     = Ret (return_message "Error: Truncated GZIP file" 415) w' /\
     fs w' !! "/uploads/tok/abc" = None /\
     fs w' !! "/uploads/tok/abc/chunk.00000000" = None) /\
  (exists w' : world,
     @generate_file example_env (Data.mk "tok" "abc" "out.gz" 20)
       (example_world with_good_gzip "out.gz" 20)
     = Ret (return_message "Success: File upload completed successfully" 200) w').
Proof.
  split.
  - destruct (@gzip_failure_discards_upload example_env
                (Data.mk "tok" "abc" "out.gz" 10)
                (example_world with_bad_gzip "out.gz" 10)
                (example_world with_bad_gzip "out.gz" 10)
                ltac:(by split_and!) eq_refl eq_refl) as [Hbad _].
    destruct (Hbad eq_refl) as (w' & Hrun & _ & _ & _ & _ & _ & Hclean).
    destruct Hclean as (Hdir & _ & Hchunks).
    + reflexivity.
    + apply entries_all_files. vm_compute. reflexivity.
    + exists w'. split_and!; [exact Hrun|exact Hdir|exact (Hchunks 0)].
  - destruct (@gzip_failure_discards_upload example_env
                (Data.mk "tok" "abc" "out.gz" 20)
                (example_world with_good_gzip "out.gz" 20)
                (example_world with_good_gzip "out.gz" 20)
                ltac:(by split_and!) eq_refl eq_refl) as [_ Hgood].
    apply (Hgood empty_gzip []); reflexivity.
Defined.

(** C4, as stated, fails: with a sub-directory in the upload directory the
    cleanup stops at it, the upload directory stays, and the call still
    answers [415] and sets the status [corrupt]. *)
Lemma gzip_failure_counterexample :
  let data := Data.mk "tok" "abc" "out.gz" 10 in
  let w := example_world with_subdirectory "out.gz" 10 in
  @is_gzip_file "out.gz" = true /\
  @gzip_ok example_env (fs w) "/uploads/tok/abc/out.gz" = false /\
  @gzip_rejected example_env (fs w) "/uploads/tok/abc/out.gz" = true /\
  FS.isfile (fs w) "/uploads/tok/abc/chunk.00000000" = true /\
  exists w' : world,
    @generate_file example_env data w
    = Ret (return_message "Error: Truncated GZIP file" 415) w' /\
    fs w' !! "/uploads/tok/abc" = Some Dir /\
    fs w' !! "/uploads/tok/abc/sub" = Some Dir /\
    Models.upload_status <$> file_row (db w') "abc" = Some "corrupt".
Proof.
  cbv zeta. split_and!; [reflexivity|reflexivity|reflexivity|reflexivity|].
  eexists. split; [vm_compute; reflexivity|].
  split_and!; reflexivity.
Qed.

(** C10. Where no row matches the identifier, [update_file_status] returns
    without any change of the state, and a finalise call for such an
    identifier leaves the database as it was while its response and what it
    does to the disk are those it would have with any other database.  Where
    a row matches and the status is not [ongoing], the row has the new status
    and the current time as its end date. *)
Theorem update_file_status_without_row `{Env} :
  (forall (identifier status : string) (w : world),
     file_row (db w) identifier = None ->
     update_file_status identifier status w = Ret tt w) /\
  (forall (data : Data.t) (w : world),
     file_row (db w) (Data.identifier data) = None ->
     db (final_state (generate_file data w)) = db w /\
     forall d : database,
       visible (generate_file data (set_db d w)) = visible (generate_file data w)) /\
  (forall (identifier status : string) (w : world) (row : Models.File),
     file_row (db w) identifier = Some row ->
     status ≠ "ongoing" ->
     exists w' row',
       update_file_status identifier status w = Ret tt w' /\
       file_row (db w') identifier = Some row' /\
       Models.upload_status row' = status /\
       Models.upload_end_date row' = Some (now w)).
Proof.
  split_and!.
  - intros identifier status w. apply update_file_status_missing.
  - intros data w Hrow. split; [by apply generate_file_db|].
    intros d. by apply generate_file_visible.
  - intros identifier status w row Hrow Hst.
    destruct (update_file_status_found identifier status w row Hrow Hst)
      as (w' & Hrun & Hnew & _).
    by exists w', (finished status (now w) row).
Qed.

Lemma update_file_status_without_row_witness :
  let data := Data.mk "tok" "other" "out.txt" 10 in
  let w := example_world
             (<["/uploads/tok/other/out.txt" := File (bytes "HELLOWORLD")]>
                (<["/uploads/tok/other" := Dir]> upload_dirs)) "out.txt" 10 in
  @update_file_status "other" "complete" w = Ret tt w /\
  db (final_state (@generate_file example_env data w)) = db w /\
  exists w' row',
    @update_file_status "abc" "complete" w = Ret tt w' /\
    file_row (db w') "abc" = Some row' /\
    Models.upload_end_date row' = Some 1000.
Proof.
  cbv zeta.
  destruct (@update_file_status_without_row example_env) as (Hnone & Hfinal & Hsome).
  split_and!.
  - apply Hnone. reflexivity.
  - apply (Hfinal (Data.mk "tok" "other" "out.txt" 10)). reflexivity.
  - destruct (Hsome "abc" "complete"
                (example_world
                   (<["/uploads/tok/other/out.txt" := File (bytes "HELLOWORLD")]>
                      (<["/uploads/tok/other" := Dir]> upload_dirs)) "out.txt" 10)
                (Models.mkFile "abc" "out.txt" 10 "ongoing" 5 None) eq_refl)
      as (w' & row' & Hrun & Hrow & _ & Hend).
    + discriminate.
    + by exists w', row'.
Defined.

(* ===================================================================== *)
(** * Properties of the token code *)
(* ===================================================================== *)

Section Base64.

Lemma list_ind3 {A} (P : list A -> Prop) :
  P [] -> (forall a, P [a]) -> (forall a b, P [a; b]) ->
  (forall a b c l, P l -> P (a :: b :: c :: l)) ->
  forall l, P l.
Proof.
  intros H0 H1 H2 H3.
  refine (fix go (l : list A) : P l :=
            match l with
            | [] => H0
            | [a] => H1 a
            | [a; b] => H2 a b
            | a :: b :: c :: l' => H3 a b c l' (go l')
            end).
Qed.

(** Three bytes give four characters, and the last group is padded. *)
Lemma urlsafe_b64encode_length (s : list Byte.byte) :
  String.length (urlsafe_b64encode s) = (4 * ((length s + 2) / 3))%nat.
Proof.
  induction s as [|a|a b|a b c l IH] using list_ind3; [done..|].
  cbn [urlsafe_b64encode String.length length]. rewrite IH.
  replace (S (S (S (length l))) + 2)%nat with (length l + 2 + 1 * 3)%nat by lia.
  rewrite Nat.div_add by lia. lia.
Qed.

Lemma urandom_length (n : nat) (w : world) (bytes : list Byte.byte) (w' : world) :
  urandom n w = Ret bytes w' -> length bytes = n.
Proof. unfold urandom. intros [= <- _]. by rewrite length_map, length_seq. Qed.

End Base64.

(** C2. [get_auth_status] returns one of the three strings [not found],
    [expired] and [valid]: [not found] where no access row has the token,
    [expired] where the row found has an expiration date before the current
    time, and [valid] otherwise; it never raises and changes nothing. *)
Theorem get_auth_status_three_way (auth_token : string) (w : world) :
  (access_row (db w) auth_token = None ->
   get_auth_status auth_token w = Ret "not found" w) /\
  (forall access, access_row (db w) auth_token = Some access ->
     now w > Models.expiration_date access ->
     get_auth_status auth_token w = Ret "expired" w) /\
  (forall access, access_row (db w) auth_token = Some access ->
     now w <= Models.expiration_date access ->
     get_auth_status auth_token w = Ret "valid" w) /\
  (exists status,
     get_auth_status auth_token w = Ret status w /\
     (status = "not found" \/ status = "expired" \/ status = "valid")).
Proof.
  unfold get_auth_status, access_row, bind, today.
  destruct (first _ (accesses (db w))) as [access|].
  - destruct (Models.expiration_date access <? now w) eqn:E.
    + apply Z.ltb_lt in E. split_and!; [done| |intros a [= <-]; lia|eauto].
      by intros a [= <-].
    + apply Z.ltb_ge in E. split_and!; [done|intros a [= <-]; lia| |eauto].
      by intros a [= <-].
  - split_and!; [done|done|done|eauto].
Qed.

(** C7 (amended). With a known server token and an expiration date that
    [datetime] can hold, [generate_auth_token] returns; and every token it
    returns is the base64url encoding of 12 random bytes, a token of 16
    characters, recorded with the current time as its creation date and the
    creation date plus [duration_days] days, one day by default, as its
    expiration date, which is returned with it. *)
Theorem generate_auth_token_issues (server_token username : string)
    (name email : option string) (duration_days : option Z) (w : world) :
  (is_Some (server_row (db w) server_token) ->
   representable (now w) (default 1 duration_days) = true ->
   is_Some (returned (generate_auth_token server_token username name email
                                          duration_days w))) /\
  (forall (token : string) (expiry : Z) (w' : world),
     generate_auth_token server_token username name email duration_days w
     = Ret (token, expiry) w' ->
     exists (random : list Byte.byte) (access : Models.Access),
       random = map (entropy w) (seq (drawn w) 12) /\
       length random = 12%nat /\
       token = urlsafe_b64encode random /\
       String.length token = 16%nat /\
       Models.auth_token access = token /\
       Models.creation_date access = now w /\
       Models.expiration_date access
       = Models.creation_date access + default 1 duration_days * 86400000000 /\
       expiry = Models.expiration_date access /\
       accesses (db w') = accesses (db w) ++ [access]).
Proof.
  split.
  - intros [server Hserver] Hdate.
    by rewrite (generate_auth_token_eq _ _ _ _ _ _ server Hserver), Hdate.
  - intros token expiry w' Hrun.
    destruct (server_row (db w) server_token) as [server|] eqn:Hserver;
      [|by rewrite generate_auth_token_unknown in Hrun].
    rewrite (generate_auth_token_eq _ _ _ _ _ _ server Hserver) in Hrun.
    destruct (representable (now w) (default 1 duration_days)); [|done].
    injection Hrun as <- <- <-.
    exists (map (entropy w) (seq (drawn w) 12)).
    eexists (Models.mkAccess _ _ _ _).
    cbn [Models.auth_token Models.creation_date Models.expiration_date].
    split_and!; reflexivity.
Qed.

Lemma generate_auth_token_issues_witness :
  exists w' : world,
    generate_auth_token "server-secret" "alice" None None None
      (example_world upload_dirs "out.txt" 10)
    = Ret ("AAAAAAAAAAAAAAAA", 1000 + 86400000000) w'.
Proof.
  destruct (generate_auth_token_issues "server-secret" "alice" None None None
              (example_world upload_dirs "out.txt" 10)) as [Hreturns Hissued].
  destruct (generate_auth_token "server-secret" "alice" None None None
              (example_world upload_dirs "out.txt" 10))
    as [[token expiry] w'|e w'] eqn:Hrun.
  - destruct (Hissued token expiry w' eq_refl)
      as (random & access & Hrandom & _ & Htoken & _ & _ & Hcreated & Hexpiry
          & Hret & _).
    exists w'. f_equal. f_equal.
    + rewrite Htoken, Hrandom. reflexivity.
    + rewrite Hret, Hexpiry, Hcreated. reflexivity.
  - exfalso. destruct Hreturns as [? Hsome].
    + by eexists.
    + reflexivity.
    + discriminate Hsome.
Defined.

(** C7, as stated, fails: the token issued is the encoding of 12 bytes, and
    no 16 bytes or more have this encoding. *)
Lemma generate_auth_token_entropy_counterexample :
  exists w' : world,
    generate_auth_token "server-secret" "alice" None None None
      (example_world upload_dirs "out.txt" 10)
    = Ret ("AAAAAAAAAAAAAAAA", 1000 + 86400000000) w' /\
    ~ exists random : list Byte.byte,
        (16 <= length random)%nat /\
        urlsafe_b64encode random = "AAAAAAAAAAAAAAAA".
Proof.
  eexists. split; [vm_compute; reflexivity|].
  intros (random & Hlen & Henc).
  assert (Hsize := urlsafe_b64encode_length random).
  rewrite Henc in Hsize. cbn [String.length] in Hsize.
  assert (6 <= (length random + 2) / 3)%nat.
  { apply Nat.div_le_lower_bound; lia. }
  lia.
Qed.

(* ===================================================================== *)
(** * Further properties: tokens *)
(* ===================================================================== *)

Section TokenLifecycle.

Lemma first_app_fresh {A} (p : A -> bool) (table : list A) (row : A) :
  first p table = None -> p row = true -> first p (table ++ [row]) = Some row.
Proof.
  unfold first. intros Hnone Hrow. induction table as [|x rest IH].
  - cbn. by rewrite Hrow.
  - cbn in *. destruct (p x); [done|]. by apply IH.
Qed.

Lemma first_app_found {A} (p : A -> bool) (table extra : list A) (row : A) :
  first p table = Some row -> first p (table ++ extra) = Some row.
Proof.
  unfold first. intros Hrow. induction table as [|x rest IH]; [done|].
  cbn in *. destruct (p x); [done|]. by apply IH.
Qed.

(** Issuing a token appends rows and changes nothing else. *)
Lemma issued_frame (server : Models.Server) (username : string)
    (name email : option string) (duration_days : option Z) (w : world) :
  let w' := issued server username name email duration_days w in
  fs w' = fs w /\ now w' = now w /\
  servers (db w') = servers (db w) /\ files (db w') = files (db w) /\
  (exists new_users, users (db w') = users (db w) ++ new_users) /\
  (exists access, accesses (db w') = accesses (db w) ++ [access]).
Proof.
  cbv zeta. unfold issued. cbn [fs now db servers files users accesses].
  split_and!; try done.
  - destruct (user_row (db w) _); [exists []; by rewrite app_nil_r|by eexists].
  - by eexists.
Qed.

(** After the call the user has a row. *)
Lemma issued_user_row (server : Models.Server) (username : string)
    (name email : option string) (duration_days : option Z) (w : world) :
  is_Some (user_row (db (issued server username name email duration_days w))
                    (Models.server_id server +:+ "/" +:+ username)).
Proof.
  set (uid := Models.server_id server +:+ "/" +:+ username).
  assert (Hdb : users (db (issued server username name email duration_days w))
                = match user_row (db w) uid with
                  | Some _ => users (db w)
                  | None => users (db w) ++ [Models.mkUser uid name email
                                                           (Models.server_id server)]
                  end) by reflexivity.
  unfold user_row at 1. rewrite Hdb.
  destruct (user_row (db w) uid) as [u|] eqn:Hu.
  - exists u. exact Hu.
  - eexists. apply first_app_fresh; [exact Hu|]. cbn. apply String.eqb_refl.
Qed.

End TokenLifecycle.

(** X1. The response to a token is the one of its status: [404] where no
    access row has the token, [410] where the row found has expired, [200]
    otherwise; the [500] branch of [get_auth_response] is never taken on a
    status that [get_auth_status] returns. *)
Theorem auth_response_of_status (auth_token : string) (w : world) :
  exists status : string,
    get_auth_status auth_token w = Ret status w /\
    get_auth_response status
    = match access_row (db w) auth_token with
      | None => return_message "Error: Transfer code does not exist" 404
      | Some access =>
          if Models.expiration_date access <? now w
          then return_message "Error: Transfer code has expired" 410
          else return_message "Success: Valid transfer code" 200
      end /\
    status_code (get_auth_response status) ≠ 500.
Proof.
  unfold get_auth_status, access_row, bind, today.
  destruct (first _ (accesses (db w))) as [access|].
  - destruct (Models.expiration_date access <? now w); by eexists.
  - by eexists.
Qed.

(** X2. [generate_auth_token] raises [InvalidServerToken] and leaves the
    state as it was where no server has the server token.  With a known
    server it returns where the expiration date is one that [datetime] can
    hold, and raises [OverflowError] where it is not.  A call that raises
    leaves the database as it was; and in every case the call leaves the
    files on disk, the servers and the file rows alone, and every user and
    access row that was there stays, in place: rows are appended only. *)
Theorem generate_auth_token_appends_only (server_token username : string)
    (name email : option string) (duration_days : option Z) (w : world) :
  (server_row (db w) server_token = None ->
   generate_auth_token server_token username name email duration_days w
   = Raise InvalidServerToken w) /\
  (is_Some (server_row (db w) server_token) ->
   if representable (now w) (default 1 duration_days)
   then is_Some (returned (generate_auth_token server_token username name email
                                               duration_days w))
   else raised (generate_auth_token server_token username name email
                                    duration_days w) = Some OverflowError) /\
  let w' := final_state (generate_auth_token server_token username name email
                                             duration_days w) in
  (is_Some (raised (generate_auth_token server_token username name email
                                        duration_days w)) -> db w' = db w) /\
  fs w' = fs w /\
  servers (db w') = servers (db w) /\ files (db w') = files (db w) /\
  (exists new_users, users (db w') = users (db w) ++ new_users) /\
  (exists new_accesses, accesses (db w') = accesses (db w) ++ new_accesses).
Proof.
  destruct (server_row (db w) server_token) as [server|] eqn:Hserver.
  - rewrite (generate_auth_token_eq _ _ _ _ _ _ server Hserver).
    destruct (representable (now w) (default 1 duration_days)).
    + split; [done|]. split; [by eexists|].
      cbv zeta. cbn [final_state raised].
      destruct (issued_frame server username name email duration_days w)
        as (? & ? & ? & ? & ? & [access ?]).
      split_and!;
        first [done | by intros [? ?] | by exists [access]].
    + split; [done|]. split; [done|].
      cbv zeta. cbn [final_state raised fs db now].
      split_and!; first [done | exists []; by rewrite app_nil_r].
  - rewrite (generate_auth_token_unknown _ _ _ _ _ _ Hserver).
    split; [done|]. split; [by intros [? ?]|].
    cbv zeta. cbn [final_state].
    split_and!; first [done | exists []; by rewrite app_nil_r].
Qed.

Lemma generate_auth_token_appends_only_witness :
  let w := example_world upload_dirs "out.txt" 10 in
  generate_auth_token "unknown" "alice" None None None w
  = Raise InvalidServerToken w /\
  raised (generate_auth_token "server-secret" "alice" None None (Some 10000000) w)
  = Some OverflowError /\
  is_Some (returned (generate_auth_token "server-secret" "alice" None None None w)).
Proof.
  cbv zeta. split_and!.
  - apply (proj1 (generate_auth_token_appends_only "unknown" "alice" None None None
                    (example_world upload_dirs "out.txt" 10))).
    reflexivity.
  - apply (proj1 (proj2 (generate_auth_token_appends_only "server-secret" "alice"
                           None None (Some 10000000)
                           (example_world upload_dirs "out.txt" 10)))).
    by eexists.
  - apply (proj1 (proj2 (generate_auth_token_appends_only "server-secret" "alice"
                           None None None
                           (example_world upload_dirs "out.txt" 10)))).
    by eexists.
Defined.

Opaque urlsafe_b64encode.

(** X3. A token fresh from [generate_auth_token], one that no earlier access
    row carries, is found again in the state the call leaves: its user is
    [server_id/username], and its status, whatever the clock shows when it
    is asked for, is [valid] up to the expiration date returned with the
    token, the date of issue plus the duration, and [expired] after it. *)
Theorem fresh_token_round_trip (server_token username : string)
    (name email : option string) (duration_days : option Z) (w : world)
    (server : Models.Server) (token : string) (expiry : Z) (w' : world) :
  server_row (db w) server_token = Some server ->
  generate_auth_token server_token username name email duration_days w
  = Ret (token, expiry) w' ->
  access_row (db w) token = None ->
  get_user_by_auth_token token w'
  = Ret (Some (Models.server_id server +:+ "/" +:+ username)) w' /\
  is_Some (user_row (db w') (Models.server_id server +:+ "/" +:+ username)) /\
  expiry = now w + default 1 duration_days * 86400000000 /\
  forall t : Z,
    get_auth_status token (at_time t w')
    = Ret (if expiry <? t then "expired" else "valid") (at_time t w').
Proof.
  intros Hserver Hrun Hfresh.
  rewrite (generate_auth_token_eq _ _ _ _ _ _ server Hserver) in Hrun.
  destruct (representable (now w) (default 1 duration_days)); [|done].
  injection Hrun as <- <- <-.
  set (token := urlsafe_b64encode _) in *.
  set (uid := Models.server_id server +:+ "/" +:+ username).
  set (access := Models.mkAccess token (now w)
                   (now w + microseconds (default 1 duration_days)) uid).
  assert (Hrow : first (fun a => String.eqb (Models.auth_token a) token)
                   (accesses (db (issued server username name email duration_days w)))
                 = Some access).
  { unfold issued. cbn [db accesses]. apply first_app_fresh; [exact Hfresh|].
    cbn. apply String.eqb_refl. }
  split_and!.
  - unfold get_user_by_auth_token. by rewrite Hrow.
  - apply issued_user_row.
  - done.
  - intros t. unfold get_auth_status, bind, today.
    change (db (at_time t (issued server username name email duration_days w)))
      with (db (issued server username name email duration_days w)).
    rewrite Hrow. cbn [Models.expiration_date access now at_time].
    by destruct (now w + microseconds (default 1 duration_days) <? t).
Qed.

Transparent urlsafe_b64encode.

Lemma fresh_token_round_trip_witness :
  let w' := issued (Models.mkServer "s1" "server-secret") "alice" None None None
                   (example_world upload_dirs "out.txt" 10) in
  get_user_by_auth_token "AAAAAAAAAAAAAAAA" w' = Ret (Some "s1/alice") w' /\
  get_auth_status "AAAAAAAAAAAAAAAA" (at_time (1000 + 86400000000) w')
  = Ret "valid" (at_time (1000 + 86400000000) w') /\
  get_auth_status "AAAAAAAAAAAAAAAA" (at_time (1001 + 86400000000) w')
  = Ret "expired" (at_time (1001 + 86400000000) w').
Proof.
  cbv zeta.
  destruct (fresh_token_round_trip "server-secret" "alice" None None None
              (example_world upload_dirs "out.txt" 10)
              (Models.mkServer "s1" "server-secret")
              "AAAAAAAAAAAAAAAA" (1000 + 86400000000)
              (issued (Models.mkServer "s1" "server-secret") "alice" None None None
                      (example_world upload_dirs "out.txt" 10))
              eq_refl eq_refl eq_refl) as (Huser & _ & _ & Hstatus).
  split_and!.
  - exact Huser.
  - exact (Hstatus (1000 + 86400000000)).
  - exact (Hstatus (1001 + 86400000000)).
Defined.

Opaque urlsafe_b64encode.

(** X4. Issuing a token revokes nothing and creates a user once: every token
    that had an access row before the call has the same row and user after
    it, and the same status whatever the clock shows; and a second call for
    the same server and user name, at any time at which the new expiration
    date is one that [datetime] can hold, adds a second access row and no
    user row. *)
Theorem reissue_keeps_tokens_and_user (server_token username : string)
    (name email name2 email2 : option string) (duration_days days2 : option Z)
    (w w1 : world) (server : Models.Server) (token : string) (expiry : Z) :
  server_row (db w) server_token = Some server ->
  generate_auth_token server_token username name email duration_days w
  = Ret (token, expiry) w1 ->
  (forall old access, access_row (db w) old = Some access ->
     access_row (db w1) old = Some access /\
     forall t : Z,
       returned (get_auth_status old (at_time t w1))
       = returned (get_auth_status old (at_time t w))) /\
  forall t : Z,
    representable t (default 1 days2) = true ->
    exists token2 expiry2 w2 access1 access2,
      generate_auth_token server_token username name2 email2 days2 (at_time t w1)
      = Ret (token2, expiry2) w2 /\
      users (db w2) = users (db w1) /\
      accesses (db w2) = accesses (db w) ++ [access1; access2] /\
      Models.auth_token access1 = token /\ Models.auth_token access2 = token2.
Proof.
  intros Hserver Hrun.
  rewrite (generate_auth_token_eq _ _ _ _ _ _ server Hserver) in Hrun.
  destruct (representable (now w) (default 1 duration_days)); [|done].
  injection Hrun as <- <- <-.
  set (w1 := issued server username name email duration_days w).
  assert (Hkeep : forall old access, access_row (db w) old = Some access ->
            access_row (db w1) old = Some access).
  { intros old access Hold. unfold access_row, w1, issued. cbn [db accesses].
    by apply first_app_found. }
  split.
  - intros old access Hold. split; [by apply Hkeep|].
    intros t. unfold get_auth_status, bind, today.
    pose proof (Hkeep old access Hold) as Hnew.
    unfold access_row in Hold, Hnew.
    change (db (at_time t w1)) with (db w1).
    change (db (at_time t w)) with (db w).
    rewrite Hold, Hnew. cbn [now at_time].
    by destruct (Models.expiration_date access <? t).
  - intros t Hdate.
    assert (Hserver1 : server_row (db (at_time t w1)) server_token = Some server)
      by exact Hserver.
    rewrite (generate_auth_token_eq _ _ _ _ _ _ server Hserver1).
    change (now (at_time t w1)) with t. rewrite Hdate.
    set (uid := Models.server_id server +:+ "/" +:+ username).
    set (w1t := at_time t w1).
    exists (urlsafe_b64encode (map (entropy w1t) (seq (drawn w1t) 12))).
    exists (t + microseconds (default 1 days2)).
    exists (issued server username name2 email2 days2 w1t).
    exists (Models.mkAccess (urlsafe_b64encode (map (entropy w) (seq (drawn w) 12)))
              (now w) (now w + microseconds (default 1 duration_days)) uid).
    exists (Models.mkAccess (urlsafe_b64encode (map (entropy w1t) (seq (drawn w1t) 12)))
              t (t + microseconds (default 1 days2)) uid).
    split_and!; [reflexivity| | |reflexivity|reflexivity].
    + assert (Huser : is_Some (user_row (db w1) uid)) by apply issued_user_row.
      destruct Huser as [u Hu].
      assert (Hdb : users (db (issued server username name2 email2 days2 w1t))
                    = match user_row (db w1) uid with
                      | Some _ => users (db w1)
                      | None => users (db w1) ++ [Models.mkUser uid name2 email2
                                                   (Models.server_id server)]
                      end) by reflexivity.
      by rewrite Hdb, Hu.
    + assert (Hacc : accesses (db (issued server username name2 email2 days2 w1t))
                     = (accesses (db w) ++
                        [Models.mkAccess
                           (urlsafe_b64encode (map (entropy w) (seq (drawn w) 12)))
                           (now w) (now w + microseconds (default 1 duration_days)) uid]) ++
                       [Models.mkAccess
                          (urlsafe_b64encode (map (entropy w1t) (seq (drawn w1t) 12)))
                          t (t + microseconds (default 1 days2)) uid])
        by reflexivity.
      by rewrite Hacc, <- app_assoc.
Qed.

Transparent urlsafe_b64encode.

Lemma reissue_keeps_tokens_and_user_witness :
  let w := example_world upload_dirs "out.txt" 10 in
  let w1 := issued (Models.mkServer "s1" "server-secret") "alice" None None None w in
  exists token2 expiry2 w2,
    generate_auth_token "server-secret" "alice" None None (Some 2) (at_time 5000 w1)
    = Ret (token2, expiry2) w2 /\
    users (db w2) = users (db w1).
Proof.
  cbv zeta.
  destruct (reissue_keeps_tokens_and_user "server-secret" "alice"
              None None None None None (Some 2)
              (example_world upload_dirs "out.txt" 10)
              (issued (Models.mkServer "s1" "server-secret") "alice" None None None
                      (example_world upload_dirs "out.txt" 10))
              (Models.mkServer "s1" "server-secret")
              "AAAAAAAAAAAAAAAA" (1000 + 86400000000) eq_refl eq_refl)
    as [_ Hsecond].
  destruct (Hsecond 5000 eq_refl)
    as (token2 & expiry2 & w2 & _ & _ & Hrun2 & Husers & _).
  exists token2, expiry2, w2. split; assumption.
Defined.

(* ===================================================================== *)
(** * Further properties: tokens as path components, upload directories *)
(* ===================================================================== *)

Section Alphabet.

Lemma b64_char_urlsafe (i : Z) : 0 <= i < 64 -> urlsafe_char (b64_char i) = true.
Proof.
  intros Hi.
  assert (Hall : forallb (fun k => urlsafe_char (b64_char (Z.of_nat k))) (seq 0 64) = true)
    by (vm_compute; reflexivity).
  rewrite <- (Z2Nat.id i) by lia.
  apply (proj1 (forallb_forall _ _) Hall). apply in_seq. lia.
Qed.

Lemma sextet_urlsafe (n k : Z) : urlsafe_char (sextet n k) = true.
Proof.
  unfold sextet. apply b64_char_urlsafe.
  change 63 with (Z.ones 6). rewrite Z.land_ones by lia.
  apply Z.mod_pos_bound. lia.
Qed.

Lemma urlsafe_char_not_sep (c : ascii) :
  urlsafe_char c = true -> Ascii.eqb c Path.sep = false.
Proof.
  intros Hc. destruct (Ascii.eqb c Path.sep) eqn:E; [|done].
  apply Ascii.eqb_eq in E. subst c. discriminate Hc.
Qed.

Lemma string_forall_no_sep (s : string) :
  string_forall urlsafe_char s = true -> Str.contains Path.sep s = false.
Proof.
  induction s as [|c s IH]; [done|]. cbn [string_forall Str.contains].
  intros Hs. apply andb_prop in Hs as [Hc Hs].
  by rewrite (urlsafe_char_not_sep c Hc), IH.
Qed.

End Alphabet.

(** X5. The encoding of any bytes by [urlsafe_b64encode] is made of letters,
    digits, [-], [_] and [=] only; it holds no [/], so a token names one
    directory level under the upload folder and never an absolute path. *)
Theorem urlsafe_b64encode_alphabet (s : list Byte.byte) :
  string_forall urlsafe_char (urlsafe_b64encode s) = true /\
  Str.contains Path.sep (urlsafe_b64encode s) = false /\
  Str.startswith "/" (urlsafe_b64encode s) = false.
Proof.
  assert (Hall : string_forall urlsafe_char (urlsafe_b64encode s) = true).
  { induction s as [|a|a b|a b c l IH] using list_ind3.
    - done.
    - cbn [urlsafe_b64encode string_forall]. by rewrite !sextet_urlsafe.
    - cbn [urlsafe_b64encode string_forall]. by rewrite !sextet_urlsafe.
    - cbn [urlsafe_b64encode string_forall]. by rewrite !sextet_urlsafe, IH. }
  split_and!; [done|by apply string_forall_no_sep|].
  by apply no_slash_relative, string_forall_no_sep.
Qed.

Section TempDir.
Context `{Env}.

Lemma join_keeps_prefix (p a b : string) :
  Str.startswith "/" b = false ->
  Str.startswith p a = true -> Str.startswith p (Path.join a b) = true.
Proof.
  intros Hb Hp. unfold Path.join. rewrite Hb.
  destruct (String.eqb a "" || Str.endswith_char Path.sep a).
  - by apply startswith_app.
  - by apply startswith_app.
Qed.

Lemma fold_join_keeps_prefix (p : string) (parts : list string) (a : string) :
  Forall (fun b => Str.startswith "/" b = false) parts ->
  Str.startswith p a = true ->
  Str.startswith p (fold_left Path.join parts a) = true.
Proof.
  revert a. induction parts as [|b parts IH]; intros a Hparts Ha; [done|].
  apply Forall_cons in Hparts as [Hb Hparts]. cbn [fold_left].
  apply IH; [done|]. by apply join_keeps_prefix.
Qed.

Lemma join_absolute (a b : string) :
  Str.startswith "/" b = true -> Path.join a b = b.
Proof. intros Hb. unfold Path.join. by rewrite Hb. Qed.

End TempDir.

(** X6. [get_tempdir] stays under the upload folder as long as no part
    starts with [/]: the folder is then a prefix of the result.  A part that
    starts with [/] discards the folder and every part before it, so an
    identifier that is an absolute path is the upload directory itself. *)
Theorem get_tempdir_prefix_or_escape `{Env} :
  (forall parts : list string,
     Forall (fun b => Str.startswith "/" b = false) parts ->
     Str.startswith UPLOAD_FOLDER (get_tempdir parts) = true) /\
  (forall (before after : list string) (part : string),
     Str.startswith "/" part = true ->
     get_tempdir (before ++ part :: after) = fold_left Path.join after part) /\
  (forall auth_token identifier : string,
     Str.startswith "/" identifier = true ->
     get_tempdir [auth_token; identifier] = identifier).
Proof.
  split_and!.
  - intros parts Hparts. unfold get_tempdir.
    apply fold_join_keeps_prefix; [done|apply startswith_refl].
  - intros before after part Hpart. unfold get_tempdir.
    rewrite fold_left_app. cbn [fold_left]. by rewrite join_absolute.
  - intros auth_token identifier Hid. unfold get_tempdir. cbn [fold_left].
    by apply join_absolute.
Qed.

Lemma get_tempdir_prefix_or_escape_witness :
  Str.startswith "/uploads" (@get_tempdir example_env ["tok"; "abc"]) = true /\
  @get_tempdir example_env ["tok"; "/etc/cron.d"] = "/etc/cron.d".
Proof.
  destruct (@get_tempdir_prefix_or_escape example_env) as (Hin & _ & Hout).
  split.
  - apply Hin. repeat constructor.
  - apply Hout. reflexivity.
Defined.

(* ===================================================================== *)
(** * Further properties: what the disk operations leave alone *)
(* ===================================================================== *)

(** X7. On a canonical directory path [remove_from_uploads] never raises,
    whatever is on disk, and deletes entries of the given directory and the
    directory only: a path that is neither the directory nor
    [join(tempdir, name)] for a listed name is left as it was; nothing that
    is not a regular file is removed, the directory apart, and the directory
    stays where one of its entries is not a regular file; nothing is created
    or changed. *)
Theorem remove_from_uploads_frame `{Env} (tempdir : string) (fs : gmap string node) :
  canonical tempdir = true ->
  exists fs' : gmap string node,
    remove_from_uploads tempdir fs = Ret tt fs' /\
    (forall p, p ≠ tempdir ->
       (forall n, n ∈ FS.entries fs tempdir -> p ≠ Path.join tempdir n) ->
       fs' !! p = fs !! p) /\
    (forall p, p ≠ tempdir -> FS.isfile fs p = false -> fs' !! p = fs !! p) /\
    (forall p x, fs' !! p = Some x -> fs !! p = Some x) /\
    ((exists n, n ∈ FS.entries fs tempdir /\
                FS.isfile fs (Path.join tempdir n) = false) ->
     fs' !! tempdir = fs !! tempdir).
Proof. intros _. apply remove_from_uploads_best_effort. Qed.

Lemma remove_from_uploads_frame_witness :
  exists fs' : gmap string node,
    @remove_from_uploads "/uploads/tok/abc" with_subdirectory = Ret tt fs' /\
    fs' !! "/uploads/tok/abc/sub" = Some Dir /\
    fs' !! "/uploads/tok/abc" = Some Dir /\
    fs' !! "/uploads/tok" = Some Dir.
Proof.
  destruct (@remove_from_uploads_frame example_env "/uploads/tok/abc"
              with_subdirectory eq_refl)
    as (fs' & Hrun & Hout & Hnonfile & _ & Hstays).
  exists fs'. split_and!.
  - exact Hrun.
  - rewrite Hnonfile; [reflexivity|discriminate|reflexivity].
  - rewrite Hstays; [reflexivity|].
    exists "sub". split; [|reflexivity].
    apply elem_of_entries. split_and!; [by eexists|discriminate|reflexivity].
  - rewrite Hnonfile; [reflexivity|discriminate|reflexivity].
Defined.

(** X8. [merge_chunks] on a non-empty list of canonical paths never raises
    and writes to one path only, the output path next to the first sorted
    chunk: every other path, every chunk among them, holds after the call
    what it held before, whether the merge succeeds or fails; it returns
    [True] exactly when a regular file is at the output path after the
    call. *)
Theorem merge_chunks_frame `{Env} (chunk_paths : list string) (filename : string)
    (fs : gmap string node) (first_path : string) :
  head (sort_paths chunk_paths) = Some first_path ->
  (forall p, p ∈ chunk_paths -> canonical p = true) ->
  realpath first_path = first_path ->
  canonical (output_path first_path filename) = true ->
  exists (success : bool) (fs' : gmap string node),
    merge_chunks chunk_paths filename fs = Ret success fs' /\
    (forall p, p ≠ output_path first_path filename -> fs' !! p = fs !! p) /\
    success = FS.isfile fs' (output_path first_path filename).
Proof.
  intros Hhead _ _ _.
  destruct (sort_paths chunk_paths) as [|p0 rest] eqn:Hsort; [done|].
  injection Hhead as ->.
  destruct (merge_chunks_total chunk_paths filename fs first_path rest Hsort)
    as (success & fs' & Hrun & Hframe & Hfail & Hok).
  exists success, fs'. split_and!; [done|done|].
  destruct success.
  - by destruct (Hok eq_refl) as [-> _].
  - by rewrite Hfail.
Qed.

Lemma merge_chunks_frame_witness :
  exists (success : bool) (fs' : gmap string node),
    @merge_chunks example_env
      ["/uploads/tok/abc/chunk.00000001"; "/uploads/tok/abc/chunk.00000000"]
      "out.txt" with_unreadable_chunk = Ret success fs' /\
    fs' !! "/uploads/tok/abc/chunk.00000000" = Some (File (bytes "HELLO")).
Proof.
  destruct (@merge_chunks_frame example_env
              ["/uploads/tok/abc/chunk.00000001"; "/uploads/tok/abc/chunk.00000000"]
              "out.txt" with_unreadable_chunk "/uploads/tok/abc/chunk.00000000")
    as (success & fs' & Hrun & Hframe & _).
  - reflexivity.
  - intros q Hq.
    repeat (apply elem_of_cons in Hq as [-> | Hq]; [reflexivity|]).
    by apply elem_of_nil in Hq.
  - reflexivity.
  - reflexivity.
  - exists success, fs'. split; [exact Hrun|].
    rewrite Hframe; [reflexivity|]. vm_compute. discriminate.
Defined.

(** X9. [bam_test] returns [True] exactly on a regular file that ends with
    the 28 bytes of the BAM end-of-file block, and [False] on any other file
    of 28 bytes or more; on a file of fewer than 28 bytes, and on a
    canonical path that names a directory or nothing, it raises [IOError]
    instead of returning [False].  It changes nothing on disk. *)
Theorem bam_test_outcomes (filename : string) (fs : gmap string node) :
  (forall head : list Byte.byte,
     fs !! filename = Some (File (head ++ bam_eof)) ->
     bam_test filename fs = Ret true fs) /\
  (forall content : list Byte.byte,
     fs !! filename = Some (File content) ->
     (28 <= length content)%nat ->
     (forall head, content ≠ head ++ bam_eof) ->
     bam_test filename fs = Ret false fs) /\
  (forall content : list Byte.byte,
     fs !! filename = Some (File content) ->
     (length content < 28)%nat ->
     bam_test filename fs = Raise IOError fs) /\
  (canonical filename = true -> FS.isfile fs filename = false ->
   bam_test filename fs = Raise IOError fs).
Proof.
  unfold bam_test. split_and!.
  - intros head Hfile. rewrite Hfile.
    rewrite length_app. change (length bam_eof) with 28%nat.
    assert ((length head + 28 <? 28)%nat = false) as -> by (apply Nat.ltb_ge; lia).
    replace (length head + 28 - 28)%nat with (length head) by lia.
    rewrite drop_app_length. by rewrite bool_decide_eq_true_2.
  - intros content Hfile Hlen Hends. rewrite Hfile.
    assert ((length content <? 28)%nat = false) as -> by (apply Nat.ltb_ge; lia).
    rewrite bool_decide_eq_false_2; [done|].
    intros Hdrop. apply (Hends (take (length content - 28) content)).
    by rewrite <- Hdrop, take_drop.
  - intros content Hfile Hlen. rewrite Hfile.
    by assert ((length content <? 28)%nat = true) as -> by (apply Nat.ltb_lt; lia).
  - intros _. unfold FS.isfile. by destruct (fs !! filename) as [[c|]|].
Qed.

Lemma bam_test_outcomes_witness :
  let fs := <["/uploads/tok/abc/reads.bam" := File (bytes "BAM" ++ bam_eof)]>
            (<["/uploads/tok/abc/short.bam" := File (bytes "BAM")]> upload_dirs) in
  bam_test "/uploads/tok/abc/reads.bam" fs = Ret true fs /\
  bam_test "/uploads/tok/abc/short.bam" fs = Raise IOError fs /\
  bam_test "/uploads/tok/abc" fs = Raise IOError fs.
Proof.
  cbv zeta. split_and!.
  - apply (proj1 (bam_test_outcomes _ _) (bytes "BAM")). reflexivity.
  - apply (proj1 (proj2 (proj2 (bam_test_outcomes _ _))) (bytes "BAM")).
    + reflexivity.
    + cbn. lia.
  - apply (proj2 (proj2 (proj2 (bam_test_outcomes _ _)))); reflexivity.
Defined.

(* ===================================================================== *)
(** * Further properties: the status of an upload *)
(* ===================================================================== *)

Section StatusSteps.


End StatusSteps.



(* ===================================================================== *)
(** * Further properties: the listing of the chunks *)
(* ===================================================================== *)

(** X11. In a directory whose path is canonical and plain (no glob
    character), [get_file_chunks] returns, once each, the paths of
    the entries whose names start with [chunk.], whatever follows the prefix
    and whether the entry is a file or a directory; it returns the empty
    list where the directory does not exist; and every path that
    [get_chunk_filename] names and that exists in the directory is among
    them. *)
Theorem get_file_chunks_lists_the_prefix `{Env} (fs : gmap string node)
    (temp_dir : string) :
  canonical temp_dir = true ->
  plain_dir temp_dir = true ->
  (FS.isdir fs temp_dir = false -> get_file_chunks fs temp_dir = []) /\
  (forall p, p ∈ get_file_chunks fs temp_dir <->
     FS.isdir fs temp_dir = true /\
     exists name, p = Path.join temp_dir name /\
                  Str.startswith CHUNK_PREFIX name = true /\
                  Str.contains Path.sep name = false /\
                  is_Some (fs !! p)) /\
  NoDup (get_file_chunks fs temp_dir) /\
  (forall i, FS.isdir fs temp_dir = true ->
     is_Some (fs !! get_chunk_filename temp_dir i) ->
     get_chunk_filename temp_dir i ∈ get_file_chunks fs temp_dir).
Proof. intros _. apply get_file_chunks_spec. Qed.

Lemma get_file_chunks_lists_the_prefix_witness :
  "/uploads/tok/abc/chunk.00000001" ∈
    @get_file_chunks example_env with_unreadable_chunk "/uploads/tok/abc" /\
  @get_file_chunks example_env upload_dirs "/uploads/tok/missing" = [].
Proof.
  split.
  - apply (proj2 (proj2 (proj2 (@get_file_chunks_lists_the_prefix example_env
              with_unreadable_chunk "/uploads/tok/abc" eq_refl eq_refl))) 1).
    + reflexivity.
    + by eexists.
  - apply (proj1 (@get_file_chunks_lists_the_prefix example_env
              upload_dirs "/uploads/tok/missing" eq_refl eq_refl)).
    reflexivity.
Defined.

(* ===================================================================== *)
(** * Further properties: a successful finalise call *)
(* ===================================================================== *)

Section Success.
Context `{Env}.

(** The only way to the response [200] through the checks. *)
Lemma integrity_checks_success (data : Data.t) (temp_dir merged_file : string)
    (w1 w' : world) (r : response) :
  integrity_checks data temp_dir merged_file w1 = Ret r w' ->
  status_code r = 200 ->
  r = return_message "Success: File upload completed successfully" 200 /\
  is_gzip_file (Data.filename data) && negb (gzip_ok (fs w1) merged_file) = false /\
  getsize merged_file (fs w1) = Ret (Data.total_size data) (fs w1) /\
  update_file_status (Data.identifier data) "complete" w1 = Ret tt w'.
Proof.
  rewrite integrity_checks_eq.
  destruct (is_gzip_file (Data.filename data) && negb _).
  - destruct (gzip_rejected (fs w1) merged_file); [|done].
    destruct (remove_from_uploads temp_dir (fs w1)) as [[] fs'|e fs']; [|done].
    destruct (update_file_status _ _ (set_fs fs' w1)); [|done].
    by intros [= <- _].
  - destruct (getsize merged_file (fs w1)) as [size fs1|e fs1] eqn:Hsize; [|done].
    assert (fs1 = fs w1) as ->.
    { unfold getsize in Hsize. destruct (fs w1 !! merged_file) as [[c|]|]; congruence. }
    destruct (size =? Data.total_size data) eqn:E; cbn [negb].
    + apply Z.eqb_eq in E. subst size.
      destruct (update_file_status _ _ w1) as [[] w2|]; [|done].
      by intros [= <- <-].
    + destruct (FS.remove merged_file (fs w1)); [|done]. by intros [= <- _].
Qed.

Lemma generate_file_success (data : Data.t) (w w' : world) (r : response) :
  generate_file data w = Ret r w' ->
  status_code r = 200 ->
  exists w1, checked_state data w = Some w1 /\
             integrity_checks data (upload_dir data) (merged_path data) w1 = Ret r w'.
Proof.
  rewrite generate_file_eq. unfold checked_state.
  destruct (FS.isfile (fs w) (merged_path data)); [by eauto|].
  destruct (merge_chunks _ _ (fs w)) as [[|] fs'|e fs']; [by eauto| |done].
  destruct (update_file_status _ _ (set_fs fs' w)); [|done].
  by intros [= <- _].
Qed.

End Success.

(** X12. Whenever [generate_file] answers [200], the file at the merged path
    has the declared [total_size], a file name with a gzip extension has
    passed the gzip test, the row of the upload, if there is one, has the
    status [complete] and the current time as its end date, and nothing has
    been deleted: every file and every directory that was on disk before
    the call, each chunk among them, is still there. *)
Theorem success_means_checked_and_kept `{Env} (data : Data.t) (w w' : world)
    (r : response) :
  generate_file data w = Ret r w' ->
  status_code r = 200 ->
  r = return_message "Success: File upload completed successfully" 200 /\
  getsize (merged_path data) (fs w') = Ret (Data.total_size data) (fs w') /\
  (is_gzip_file (Data.filename data) = true ->
   gzip_ok (fs w') (merged_path data) = true) /\
  (forall p, FS.isfile (fs w) p = true -> FS.isfile (fs w') p = true) /\
  (forall p, FS.isdir (fs w) p = true -> FS.isdir (fs w') p = true) /\
  (forall row, file_row (db w) (Data.identifier data) = Some row ->
     file_row (db w') (Data.identifier data)
     = Some (finished "complete" (now w) row)).
Proof.
  intros Hrun Hcode.
  destruct (generate_file_success data w w' r Hrun Hcode) as (w1 & Hreach & Hchecks).
  destruct (integrity_checks_success _ _ _ _ _ _ Hchecks Hcode)
    as (Hr & Hgzip & Hsize & Hstatus).
  destruct (checked_state_keeps data w w1 Hreach) as (Hdb & Hnow & Hfiles & Hdirs).
  destruct (update_file_status_total (Data.identifier data) "complete" w1)
    as (w2 & Hrun2 & Hfs & _).
  rewrite Hstatus in Hrun2. injection Hrun2 as <-.
  split_and!; [done| | | | |].
  - by rewrite Hfs.
  - intros Hgz. rewrite Hgz in Hgzip. rewrite Hfs.
    by destruct (gzip_ok (fs w1) (merged_path data)).
  - intros p Hp. rewrite Hfs. by apply Hfiles.
  - intros p Hp. rewrite Hfs. by apply Hdirs.
  - intros row Hrow.
    destruct (update_file_status_found (Data.identifier data) "complete" w1 row)
      as (w3 & Hrun3 & Hnew & _); [by rewrite Hdb|done|].
    rewrite Hstatus in Hrun3. injection Hrun3 as <-. by rewrite <- Hnow.
Qed.

Lemma success_means_checked_and_kept_witness :
  exists w' : world,
    @generate_file example_env (Data.mk "tok" "abc" "out.txt" 10)
      (example_world two_chunks "out.txt" 10)
    = Ret (return_message "Success: File upload completed successfully" 200) w' /\
    FS.isfile (fs w') "/uploads/tok/abc/chunk.00000000" = true /\
    Models.upload_status <$> file_row (db w') "abc" = Some "complete".
Proof.
  assert (Hrun : exists w' : world,
            @generate_file example_env (Data.mk "tok" "abc" "out.txt" 10)
              (example_world two_chunks "out.txt" 10)
            = Ret (return_message "Success: File upload completed successfully" 200) w').
  { eexists. vm_compute. reflexivity. }
  destruct Hrun as [w' Hrun].
  destruct (@success_means_checked_and_kept example_env
              (Data.mk "tok" "abc" "out.txt" 10)
              (example_world two_chunks "out.txt" 10) w'
              (return_message "Success: File upload completed successfully" 200)
              Hrun eq_refl)
    as (_ & _ & _ & Hfiles & _ & Hrow).
  exists w'. split_and!; [exact Hrun| |].
  - apply Hfiles. reflexivity.
  - pose proof (Hrow (Models.mkFile "abc" "out.txt" 10 "ongoing" 5 None) eq_refl) as Hnew.
    cbn [Data.identifier] in Hnew. rewrite Hnew. reflexivity.
Defined.

Section Assembly.
Context `{Env}.

Lemma chunk_names_NoDup (d : string) (n : Z) :
  n <= 100000000 -> NoDup (chunk_names d n).
Proof.
  intros Hn. unfold chunk_names. apply NoDup_fmap_2_strong; [|apply NoDup_seqZ].
  intros i j Hi Hj Heq. apply elem_of_seqZ in Hi. apply elem_of_seqZ in Hj.
  apply (get_chunk_filename_inj d); [lia|lia|done].
Qed.

Lemma elem_of_chunk_names (d : string) (n : Z) (p : string) :
  p ∈ chunk_names d n <-> exists i, 0 <= i < n /\ p = get_chunk_filename d i.
Proof.
  unfold chunk_names. rewrite list_elem_of_fmap. split.
  - intros (i & -> & Hi). apply elem_of_seqZ in Hi. exists i. split; [lia|done].
  - intros (i & Hi & ->). exists i. split; [done|]. apply elem_of_seqZ. lia.
Qed.

(** Any arrangement of the chunk names sorts into numeric order. *)
Lemma sort_paths_chunk_names (d : string) (n : Z) (paths : list string) :
  n <= 100000000 ->
  paths ≡ₚ chunk_names d n ->
  sort_paths paths = chunk_names d n.
Proof.
  intros Hn Hperm. unfold sort_paths.
  apply (StronglySorted_unique String.le).
  - apply StronglySorted_merge_sort; apply _.
  - unfold chunk_names. destruct (Z.le_gt_cases n 0) as [Hle|Hgt].
    + rewrite seqZ_nil by lia. constructor.
    + rewrite <- (Z2Nat.id n) by lia. apply chunk_names_sorted; lia.
  - by rewrite merge_sort_Permutation.
Qed.

(** A check, by evaluation, that the entries with the chunk prefix are the
    names of the sequence numbers below [n]. *)
Lemma chunk_entries_check (fs : gmap string node) (d : string) (n : Z) :
  forallb (fun name =>
             implb (Str.startswith CHUNK_PREFIX name)
                   (existsb (fun i => String.eqb name (CHUNK_PREFIX +:+ format_08d i))
                            (seqZ 0 n)))
          (FS.entries fs d) = true ->
  forall name, name ∈ FS.entries fs d ->
    Str.startswith CHUNK_PREFIX name = true ->
    exists i, 0 <= i < n /\ name = CHUNK_PREFIX +:+ format_08d i.
Proof.
  intros Hall name Hname Hpre. apply list_elem_of_In in Hname.
  pose proof (proj1 (forallb_forall _ _) Hall name Hname) as Hone.
  cbn beta in Hone. rewrite Hpre in Hone. cbn [implb] in Hone.
  apply existsb_exists in Hone as (i & Hi & Heq).
  apply list_elem_of_In, elem_of_seqZ in Hi. apply String.eqb_eq in Heq.
  exists i. split; [lia|done].
Qed.

End Assembly.

(** X13. The whole of a finalise call on a complete upload: the upload
    directory has a canonical path and holds the chunks of the sequence
    numbers [0 .. n-1] and no other entry with the chunk prefix, the merged
    file is not there yet, the file name is a plain name (so not [.] or
    [..]) without a gzip extension, and [total_size] is the sum of the chunk
    lengths.  Then [generate_file]
    answers [200], the merged file holds the chunks in numeric order, every
    chunk is still on disk, and the row of the upload is [complete]. *)
Theorem finalize_assembles_the_upload `{Env} (data : Data.t) (w : world)
    (n : Z) (content : Z -> list Byte.byte) :
  canonical (upload_dir data) = true ->
  plain_dir (upload_dir data) = true ->
  plain_name (Data.filename data) = true ->
  canonical (merged_path data) = true ->
  is_gzip_file (Data.filename data) = false ->
  realpath (get_chunk_filename (upload_dir data) 0)
  = get_chunk_filename (upload_dir data) 0 ->
  FS.isdir (fs w) (upload_dir data) = true ->
  0 < n <= 100000000 ->
  (forall i, 0 <= i < n ->
     fs w !! get_chunk_filename (upload_dir data) i = Some (File (content i))) ->
  (forall name, name ∈ FS.entries (fs w) (upload_dir data) ->
     Str.startswith CHUNK_PREFIX name = true ->
     exists i, 0 <= i < n /\ name = CHUNK_PREFIX +:+ format_08d i) ->
  fs w !! merged_path data = None ->
  Data.total_size data = Z.of_nat (length (concat (map content (seqZ 0 n)))) ->
  exists w' : world,
    generate_file data w
    = Ret (return_message "Success: File upload completed successfully" 200) w' /\
    fs w' = <[merged_path data := File (concat (map content (seqZ 0 n)))]> (fs w) /\
    (forall row, file_row (db w) (Data.identifier data) = Some row ->
       file_row (db w') (Data.identifier data)
       = Some (finished "complete" (now w) row)).
Proof.
  intros _ Hplain Hplainname _ Hnogz Hreal Hdir Hn Hfiles Honly Hfree Htotal.
  destruct (plain_name_facts _ Hplainname) as [Hname Hnosep].
  set (d := upload_dir data) in *.
  destruct (plain_dir_facts d Hplain) as (Hd & Hend & _).
  destruct (get_file_chunks_spec (fs w) d Hplain)
    as (_ & Hmem & Hnodup & Hlisted).
  assert (Hperm : get_file_chunks (fs w) d ≡ₚ chunk_names d n).
  { apply NoDup_Permutation; [done|apply chunk_names_NoDup; lia|].
    intros p. rewrite elem_of_chunk_names. split.
    - intros Hp. apply Hmem in Hp as (_ & name & -> & Hpre & Hsep & Hsome).
      destruct (Honly name) as (i & Hi & ->); [|done|by exists i].
      apply elem_of_entries. split_and!; [done| |done]. by destruct name.
    - intros (i & Hi & ->). apply Hlisted; [done|]. by rewrite Hfiles.
  }
  assert (Hsort := sort_paths_chunk_names d n _ ltac:(lia) Hperm).
  assert (Hcons : chunk_names d n
                  = get_chunk_filename d 0 :: map (get_chunk_filename d) (seqZ 1 (Z.pred n))).
  { unfold chunk_names. by rewrite seqZ_cons by lia. }
  rewrite Hcons in Hsort.
  assert (Hdirname : forall name, Str.contains Path.sep name = false ->
            Path.dirname (Path.join d name) = d).
  { intros name Hs. unfold Path.dirname. by rewrite split_join. }
  assert (Hout : output_path (get_chunk_filename d 0) (Data.filename data)
                 = merged_path data).
  { unfold output_path. rewrite Hreal. unfold get_chunk_filename.
    rewrite Hdirname by apply chunk_name_no_sep. done. }
  assert (Hmerge : merge_chunks (get_file_chunks (fs w) d) (Data.filename data) (fs w)
                   = Ret true (<[merged_path data :=
                                   File (concat (map content (seqZ 0 n)))]> (fs w))).
  { rewrite (merge_chunks_ok _ _ _ _ _ Hsort); cbv zeta; rewrite ?Hout.
    - do 3 f_equal. rewrite <- Hcons. unfold chunk_names. rewrite map_map.
      f_equal. apply map_ext_in. intros i Hi.
      apply list_elem_of_In, elem_of_seqZ in Hi.
      unfold file_content. by rewrite Hfiles by lia.
    - unfold can_create, FS.isdir at 1. rewrite Hfree. cbn [negb andb].
      unfold merged_path. fold d. by rewrite Hdirname.
    - intros Hin. rewrite Hperm in Hin.
      apply elem_of_chunk_names in Hin as (i & Hi & Heq).
      rewrite Heq, Hfiles in Hfree by done. discriminate.
    - intros p Hp. rewrite Hperm in Hp.
      apply elem_of_chunk_names in Hp as (i & Hi & ->).
      unfold FS.isfile. by rewrite Hfiles. }
  set (merged := concat (map content (seqZ 0 n))) in *.
  set (w1 := set_fs (<[merged_path data := File merged]> (fs w)) w).
  assert (Hstatus : exists w',
            update_file_status (Data.identifier data) "complete" w1 = Ret tt w' /\
            fs w' = fs w1 /\
            forall row, file_row (db w) (Data.identifier data) = Some row ->
              file_row (db w') (Data.identifier data)
              = Some (finished "complete" (now w) row)).
  { destruct (file_row (db w) (Data.identifier data)) as [row|] eqn:Hrow.
    - destruct (update_file_status_found (Data.identifier data) "complete" w1 row
                  Hrow ltac:(done)) as (w' & Hrun & Hnew & _ & Hfs & _).
      exists w'. split_and!; [done|done|]. by intros r [= <-].
    - exists w1. split_and!; [|done|done].
      by apply update_file_status_missing. }
  destruct Hstatus as (w' & Hrun & Hfs & Hrow).
  exists w'. split_and!; [|done|done].
  rewrite generate_file_eq. fold d.
  assert (FS.isfile (fs w) (merged_path data) = false) as ->.
  { unfold FS.isfile. by rewrite Hfree. }
  rewrite Hmerge. fold w1. rewrite integrity_checks_eq, Hnogz. cbn [andb].
  unfold getsize. cbn [fs set_fs w1]. rewrite lookup_insert_eq.
  rewrite Htotal, Z.eqb_refl. cbn [negb]. fold w1. by rewrite Hrun.
Qed.

Lemma finalize_assembles_the_upload_witness :
  exists w' : world,
    @generate_file example_env (Data.mk "tok" "abc" "out.txt" 10)
      (example_world two_chunks "out.txt" 10)
    = Ret (return_message "Success: File upload completed successfully" 200) w' /\
    fs w' = <["/uploads/tok/abc/out.txt" := File (bytes "HELLOWORLD")]> two_chunks.
Proof.
  destruct (@finalize_assembles_the_upload example_env
              (Data.mk "tok" "abc" "out.txt" 10)
              (example_world two_chunks "out.txt" 10) 2 hello_world)
    as (w' & Hrun & Hfs & _).
  - reflexivity.
  - reflexivity.
  - reflexivity.
  - reflexivity.
  - reflexivity.
  - reflexivity.
  - reflexivity.
  - lia.
  - intros i Hi. assert (i = 0 \/ i = 1) as [-> | ->] by lia; reflexivity.
  - apply chunk_entries_check. vm_compute. reflexivity.
  - reflexivity.
  - reflexivity.
  - exists w'. split; [exact Hrun|exact Hfs].
Defined.

(* ===================================================================== *)
(** * Further properties: file names and chunk names *)
(* ===================================================================== *)

Section LowerCase.

Lemma lower_char_sep (a : ascii) :
  Ascii.eqb (Str.lower_char a) Path.sep = Ascii.eqb a Path.sep.
Proof. destruct a as [[] [] [] [] [] [] [] []]; reflexivity. Qed.

Lemma lower_char_dot (a : ascii) :
  Ascii.eqb (Str.lower_char a) "."%char = Ascii.eqb a "."%char.
Proof. destruct a as [[] [] [] [] [] [] [] []]; reflexivity. Qed.

Lemma rfind_from_lower (c : ascii) (s : string) (i last : Z) :
  (forall a, Ascii.eqb (Str.lower_char a) c = Ascii.eqb a c) ->
  Str.rfind_from c (Str.lower s) i last = Str.rfind_from c s i last.
Proof.
  intros Hc. revert i last. induction s as [|a s IH]; intros i last; [done|].
  cbn [Str.lower Str.rfind_from]. by rewrite Hc, IH.
Qed.

Lemma take_lower (n : nat) (s : string) :
  Str.take n (Str.lower s) = Str.lower (Str.take n s).
Proof.
  revert s. induction n as [|n IH]; intros [|a s]; try done.
  cbn [Str.lower Str.take]. by rewrite IH.
Qed.

Lemma drop_lower (n : nat) (s : string) :
  Str.drop n (Str.lower s) = Str.lower (Str.drop n s).
Proof.
  revert s. induction n as [|n IH]; intros [|a s]; try done.
  cbn [Str.lower Str.drop]. by rewrite IH.
Qed.

Lemma get_lower (n : nat) (s : string) :
  Str.get n (Str.lower s) = Str.lower_char <$> Str.get n s.
Proof.
  revert n. induction s as [|a s IH]; intros [|n]; try done.
  cbn [Str.lower Str.get]. by rewrite IH.
Qed.

Lemma has_non_dot_lower (p : string) (i n : nat) :
  Path.has_non_dot (Str.lower p) i n = Path.has_non_dot p i n.
Proof.
  revert i. induction n as [|n IH]; intros i; [done|].
  cbn [Path.has_non_dot]. rewrite get_lower.
  destruct (Str.get i p) as [c|]; [|done]. cbn [fmap option_fmap option_map].
  by rewrite lower_char_dot, IH.
Qed.

(** [splitext] splits a name and its lower-case form at the same place. *)
Lemma splitext_lower (p : string) :
  Path.splitext (Str.lower p)
  = (Str.lower (fst (Path.splitext p)), Str.lower (snd (Path.splitext p))).
Proof.
  unfold Path.splitext, Str.rfind.
  rewrite !rfind_from_lower by (apply lower_char_sep || apply lower_char_dot).
  destruct (_ <? _); [|done].
  rewrite has_non_dot_lower. destruct (Path.has_non_dot _ _ _); [|done].
  cbn [fst snd]. by rewrite take_lower, drop_lower.
Qed.

End LowerCase.

(** X14. The checks on the extension do not see the case of letters: two
    file names that are equal after [lower()] get the same answer from
    [is_gzip_file] and from [allowed_file], for any list of allowed
    extensions, because [splitext] cuts both at the same place. *)
Theorem extension_checks_ignore_case (name other : string) :
  Str.lower name = Str.lower other ->
  is_gzip_file name = is_gzip_file other /\
  forall ALLOWED_EXTENSIONS : list string,
    allowed_file ALLOWED_EXTENSIONS name = allowed_file ALLOWED_EXTENSIONS other.
Proof.
  intros Hsame.
  assert (Hext : Str.lower (snd (Path.splitext name))
                 = Str.lower (snd (Path.splitext other))).
  { assert (Ha := splitext_lower name). assert (Hb := splitext_lower other).
    rewrite Hsame in Ha. rewrite Ha in Hb. by injection Hb. }
  unfold is_gzip_file, allowed_file. by rewrite Hext.
Qed.

Lemma extension_checks_ignore_case_witness :
  is_gzip_file "Reads.Tar.GZ" = is_gzip_file "reads.tar.gz" /\
  allowed_file [".bam"; ".gz"] "Reads.Tar.GZ" = allowed_file [".bam"; ".gz"] "reads.tar.gz".
Proof.
  destruct (extension_checks_ignore_case "Reads.Tar.GZ" "reads.tar.gz" eq_refl)
    as [Hgz Hallowed].
  split; [exact Hgz|apply Hallowed].
Defined.

Section NineDigits.

Lemma count_digits_ge (k fuel : nat) (n : Z) :
  (k <= fuel)%nat -> 10 ^ Z.of_nat k <= n -> (S k <= count_digits fuel n)%nat.
Proof.
  revert fuel n. induction k as [|k IH]; intros fuel n Hfuel Hn.
  - destruct fuel as [|f]; cbn [count_digits]; [lia|].
    destruct (n <? 10); lia.
  - destruct fuel as [|f]; [lia|]. cbn [count_digits].
    rewrite Nat2Z.inj_succ, Z.pow_succ_r in Hn by lia.
    assert (0 < 10 ^ Z.of_nat k) by (apply Z.pow_pos_nonneg; lia).
    destruct (n <? 10) eqn:E; [apply Z.ltb_lt in E; lia|].
    apply le_n_S, IH; [lia|]. apply Z.div_le_lower_bound; lia.
Qed.

(** From 100,000,000 on the name has nine digits. *)
Lemma format_08d_nine (n : Z) :
  100000000 <= n < 1000000000 -> format_08d n = digits_w 9 n.
Proof.
  intros Hn. unfold format_08d.
  destruct (n <? 0) eqn:E; [apply Z.ltb_lt in E; lia|].
  assert (num_digits n = 9%nat) as ->; [|done].
  unfold num_digits.
  assert (Hlog : 26 <= Z.log2 n).
  { change 26 with (Z.log2 100000000). apply Z.log2_le_mono. lia. }
  apply Nat.le_antisymm.
  - apply count_digits_le; [lia|lia|]. change (10 ^ Z.of_nat 9) with 1000000000. lia.
  - apply (count_digits_ge 8); [lia|]. change (10 ^ Z.of_nat 8) with 100000000. lia.
Qed.

End NineDigits.

(** X15. Beyond eight digits the names no longer sort in numeric order: the
    name of a sequence number from 100,000,000 to 199,999,999 has nine
    digits and sorts before the name of every sequence number from
    20,000,000 to 99,999,999, so [sort] in [merge_chunks] puts the later
    chunk first. *)
Theorem chunk_order_breaks_at_nine_digits (temp_dir : string) (i j : Z) :
  20000000 <= i < 100000000 ->
  100000000 <= j < 200000000 ->
  (get_chunk_filename temp_dir j ?= get_chunk_filename temp_dir i)%string = Lt /\
  sort_paths [get_chunk_filename temp_dir i; get_chunk_filename temp_dir j]
  = [get_chunk_filename temp_dir j; get_chunk_filename temp_dir i].
Proof.
  intros Hi Hj.
  assert (Hlt : (get_chunk_filename temp_dir j ?= get_chunk_filename temp_dir i)%string = Lt).
  { rewrite !get_chunk_filename_eq, !compare_app_prefix.
    rewrite (format_08d_eight i), (format_08d_nine j) by lia.
    cbn [digits_w String.compare].
    change (10 ^ Z.of_nat 8) with 100000000. change (10 ^ Z.of_nat 7) with 10000000.
    assert (j / 100000000 = 1) as ->.
    { symmetry. apply Z.div_unique with (r := j - 100000000); lia. }
    assert (2 <= i / 10000000 < 10).
    { split; [apply Z.div_le_lower_bound; lia|apply Z.div_lt_upper_bound; lia]. }
    rewrite (Z.mod_small (i / 10000000)) by lia.
    change (1 mod 10) with 1. by rewrite digit_char_lt by lia. }
  split; [done|]. unfold sort_paths.
  apply (StronglySorted_unique String.le).
  - apply StronglySorted_merge_sort; apply _.
  - repeat constructor. by apply string_lt_le.
  - rewrite merge_sort_Permutation. apply perm_swap.
Qed.

Lemma chunk_order_breaks_at_nine_digits_witness :
  sort_paths [get_chunk_filename "/uploads/tok/abc" 99999999;
              get_chunk_filename "/uploads/tok/abc" 100000000]
  = ["/uploads/tok/abc/chunk.100000000"; "/uploads/tok/abc/chunk.99999999"].
Proof.
  rewrite (proj2 (chunk_order_breaks_at_nine_digits "/uploads/tok/abc"
                    99999999 100000000 ltac:(lia) ltac:(lia))).
  vm_compute. reflexivity.
Defined.

(* ===================================================================== *)
(** * Further properties: a gzip read that raises another exception *)
(* ===================================================================== *)

(** X16. [gzip_test] catches [IOError] only.  On a file whose gzip read
    raises another exception ([zlib.error] on a corrupted deflate stream)
    [gzip_test] raises it, and a finalise call on canonical paths that
    reaches the checks with such a merged file, under a file name with a
    gzip extension, raises it too: it returns no response, deletes nothing
    and leaves the database as it was. *)
Theorem gzip_error_escapes `{Env} :
  (forall (filename : string) (fs : gmap string node) (content : list Byte.byte),
     fs !! filename = Some (File content) ->
     gzip_read content (1024 * 1024) = GzipOtherError ->
     gzip_test filename fs = Raise ZlibError fs) /\
  (forall (data : Data.t) (w w1 : world) (content : list Byte.byte),
     ordinary data w ->
     checked_state data w = Some w1 ->
     is_gzip_file (Data.filename data) = true ->
     fs w1 !! merged_path data = Some (File content) ->
     gzip_read content (1024 * 1024) = GzipOtherError ->
     generate_file data w = Raise ZlibError w1 /\
     db w1 = db w /\
     (forall p, p ≠ merged_path data -> fs w1 !! p = fs w !! p)).
Proof.
  split.
  - intros filename fs content Hfile Hread.
    rewrite gzip_test_eq. unfold gzip_ok, gzip_rejected, gzip_reads.
    rewrite Hfile, Hread. by rewrite bool_decide_eq_false_2.
  - intros data w w1 content Hord Hreach Hgz Hfile Hread.
    destruct (checked_state_keeps data w w1 Hreach) as (Hdb & _).
    split_and!; [|done|by apply checked_state_frame].
    rewrite (generate_file_checked data w w1 Hreach), integrity_checks_eq, Hgz.
    unfold gzip_ok, gzip_rejected, gzip_reads. rewrite Hfile, Hread.
    by rewrite bool_decide_eq_false_2.
Qed.

Lemma gzip_error_escapes_witness :
  let w := example_world with_corrupt_gzip "out.gz" 14 in
  @gzip_test example_env "/uploads/tok/abc/out.gz" with_corrupt_gzip
  = Raise ZlibError with_corrupt_gzip /\
  @generate_file example_env (Data.mk "tok" "abc" "out.gz" 14) w
  = Raise ZlibError w.
Proof.
  cbv zeta. destruct (@gzip_error_escapes example_env) as [Htest Hfinal].
  split.
  - apply (Htest _ _ corrupt_gzip); reflexivity.
  - apply (Hfinal (Data.mk "tok" "abc" "out.gz" 14)
                  (example_world with_corrupt_gzip "out.gz" 14)
                  (example_world with_corrupt_gzip "out.gz" 14) corrupt_gzip);
      [by split_and!|reflexivity..].
Defined.
